(** * Flash_Direx routing backend (backend/app.py): model and checked properties

    The development follows the layout of [backend/app.py]:
    geometry helpers, the tile key, the path extractor over the road
    multigraph, the local routing attempt and the [/route] orchestrator.

    Numbers.  Distances, buffers, weights and coordinates are Python
    floats; they are modelled by real numbers, so rounding error, NaN and
    infinities are left out of the geometry and routing parts.  The tile
    key is the one place where the exact binary value of a float decides
    the outcome (it is printed with three decimals), so there a bound is
    an IEEE-754 datum ([SpecFloat.spec_float]) and the printing is
    computed exactly.

    The world outside.  The OSRM request, the tile store with its disk
    and download ([load_or_build_bbox] and what it calls) and the graph
    functions of OSMnx and NetworkX are a record of functions, the
    [Library]; a run of the program is the list of its calls to them
    together with its value or the exception it raised.  Logging is left
    out. *)

From Stdlib Require Import Reals Lra Lia ZArith NArith PArith QArith Qabs List Bool.
From Stdlib Require Import String Ascii DecimalString DecimalN.
From Stdlib Require Import Floats.SpecFloat.
Import ListNotations.

Local Open Scope R_scope.

(** ** Geometry helpers *)

Module Geometry.

(** [math.radians] *)
Definition radians (x : R) : R := x * PI / 180.

(** Python's [max(a, b)] keeps its first argument unless the second is
    strictly greater; [min(a, b)] keeps it unless the second is strictly
    smaller. *)
Definition py_max (a b : R) : R := if Rlt_dec a b then b else a.
Definition py_min (a b : R) : R := if Rlt_dec b a then b else a.

(** A coordinate is the pair [(lat, lon)], in degrees. *)
Definition latlon : Type := (R * R)%type.

Definition haversine (a b : latlon) : R :=
  let '(lat1, lon1) := a in
  let '(lat2, lon2) := b in
  let R0 := 6371000 in
  let dphi := radians (lat2 - lat1) in
  let dl := radians (lon2 - lon1) in
  let p1 := radians lat1 in
  let p2 := radians lat2 in
  let h := (sin (dphi / 2)) ^ 2 + cos p1 * cos p2 * (sin (dl / 2)) ^ 2 in
  2 * R0 * asin (sqrt h).

Definition deg_buffer_for_km (lat km : R) : R * R :=
  let dlat := km / 110574e-3 in
  let dlon := km / (111320e-3 * py_max (1 / 10) (cos (radians lat))) in
  (dlat, dlon).

Definition compute_buffer_km (start_lat start_lng end_lat end_lng : R) : R :=
  let dist_km := haversine (start_lat, start_lng) (end_lat, end_lng) / 1000 in
  py_max 8 (py_min 60 (dist_km * (5 / 100))).

(** The clamp of the specification, written from its words:
    [clamp x lo hi] is [lo] below [lo], [hi] above [hi], [x] between. *)
Definition clamp (x lo hi : R) : R :=
  if Rlt_dec x lo then lo else if Rlt_dec hi x then hi else x.

End Geometry.

(** ** Tile key *)

Module TileKey.

Local Open Scope N_scope.
Local Open Scope string_scope.

(** [n / d] rounded to the nearest integer, ties to the even one: the
    rounding of a correctly rounded decimal conversion. *)
Definition round_half_even (n : N) (d : positive) : N :=
  let q := n / Npos d in
  let r := n mod Npos d in
  match 2 * r ?= Npos d with
  | Lt => q
  | Gt => q + 1
  | Eq => if N.even q then q else q + 1
  end.

(** The magnitude [m * 2^e] of a finite float as a fraction whose
    denominator is a power of two. *)
Definition magnitude (m : positive) (e : Z) : N * positive :=
  match e with
  | Z0 => (Npos m, 1%positive)
  | Zpos p => (Npos (m * 2 ^ p), 1%positive)
  | Zneg p => (Npos m, (2 ^ p)%positive)
  end.

(** The magnitude in thousandths, rounded. *)
Definition thousandths (m : positive) (e : Z) : N :=
  let '(n, d) := magnitude m e in round_half_even (1000 * n) d.

Definition digit (k : N) : ascii := ascii_of_N (48 + k).

(** [t] thousandths printed with an integer part and three decimals. *)
Definition fixed3 (t : N) : string :=
  NilEmpty.string_of_uint (N.to_uint (t / 1000)) ++ "." ++
  String (digit ((t / 100) mod 10))
    (String (digit ((t / 10) mod 10))
      (String (digit (t mod 10)) "")).

Definition sign_str (s : bool) : string := if s then "-" else "".

(** [f"{x:.3f}"]: the sign is printed whenever the sign bit is set, also
    when the digits round to zero. *)
Definition format_3f (x : spec_float) : string :=
  match x with
  | S754_nan => "nan"
  | S754_infinity s => sign_str s ++ "inf"
  | S754_zero s => sign_str s ++ fixed3 0
  | S754_finite s m e => sign_str s ++ fixed3 (thousandths m e)
  end.

Definition tile_key (north south east west : spec_float) : string :=
  let r := format_3f in
  r north ++ "_" ++ r south ++ "_" ++ r east ++ "_" ++ r west.

(** The exact value of a float that has one. *)
Definition SF2Q (x : spec_float) : option Q :=
  match x with
  | S754_zero _ => Some 0%Q
  | S754_finite s m e =>
      let '(n, d) := magnitude m e in
      Some (Qmake (if s then Z.opp (Z.of_N n) else Z.of_N n) d)
  | _ => None
  end.

Definition sign_bit (x : spec_float) : bool :=
  match x with
  | S754_zero s | S754_infinity s | S754_finite s _ _ => s
  | S754_nan => false
  end.

(** A double-precision datum. *)
Definition binary64 (x : spec_float) : bool := valid_binary 53 1024 x.

(** The two values differ by at least [eps], by less than [eps]. *)
Definition differ_by_at_least (eps : Q) (x y : spec_float) : Prop :=
  exists vx vy, SF2Q x = Some vx /\ SF2Q y = Some vy /\
                (eps <= Qabs (vx - vy))%Q.

Definition differ_by_less_than (eps : Q) (x y : spec_float) : Prop :=
  exists vx vy, SF2Q x = Some vx /\ SF2Q y = Some vy /\
                (Qabs (vx - vy) < eps)%Q.

(** The two values have one sign and lie strictly within half a
    thousandth of one multiple [k / 1000] of a thousandth. *)
Definition same_cell (x y : spec_float) : Prop :=
  sign_bit x = sign_bit y /\
  exists vx vy (k : Z),
    SF2Q x = Some vx /\ SF2Q y = Some vy /\
    (Qabs (vx - (k # 1000)) < 1 # 2000)%Q /\
    (Qabs (vy - (k # 1000)) < 1 # 2000)%Q.

(** No character of the string is [c]. *)
Fixpoint lacks (c : ascii) (s : string) : bool :=
  match s with
  | EmptyString => true
  | String a s' => negb (Ascii.eqb a c) && lacks c s'
  end.

(** Every character of the string is a decimal digit. *)
Fixpoint all_digits (s : string) : bool :=
  match s with
  | EmptyString => true
  | String a s' => (N.leb 48 (N_of_ascii a) && N.leb (N_of_ascii a) 57)
                   && all_digits s'
  end.

(** The numerator of a value from its sign bit and magnitude. *)
Definition signed (s : bool) (n : N) : Z :=
  if s then Z.opp (Z.of_N n) else Z.of_N n.

(** A power of two. *)
Definition pow2 (d : positive) : Prop :=
  exists k : nat, Zpos d = (2 ^ Z.of_nat k)%Z.

(** Doubles used below: 32.75, 32.75 + 2^-13, 32.875,
    32.8125 - 2^-13, 32.8125 + 2^-13, 32.5, -96.5 and -96.875. *)
Module Doubles.
Definition lat_32_75 := S754_finite false (131 * 2 ^ 45) (-47).
Definition lat_32_75_up := S754_finite false (131 * 2 ^ 45 + 2 ^ 34) (-47).
Definition lat_32_875 := S754_finite false (263 * 2 ^ 44) (-47).
Definition lat_below_tie :=
  S754_finite false (525 * 2 ^ 43 - 2 ^ 34) (-47).
Definition lat_above_tie :=
  S754_finite false (525 * 2 ^ 43 + 2 ^ 34) (-47).
Definition lat_32_5 := S754_finite false (65 * 2 ^ 46) (-47).
Definition lng_m96_5 := S754_finite true (193 * 2 ^ 45) (-46).
Definition lng_m96_875 := S754_finite true (775 * 2 ^ 43) (-46).
End Doubles.

End TileKey.

(** ** Exceptions *)

(** Python exceptions, as far as the program tells them apart: a failed
    dictionary lookup, or whatever a library call raised.  All of them are
    instances of [Exception]. *)
Inductive exn : Type :=
| KeyError (key : string)
| Raised (msg : string).

(** [str(e)] *)
Definition str (e : exn) : string :=
  match e with
  | KeyError key => key
  | Raised msg => msg
  end.

Inductive result (A : Type) : Type :=
| Ok (a : A)
| Err (e : exn).
Arguments Ok {A} a.
Arguments Err {A} e.

Definition rbind {A B} (m : result A) (f : A -> result B) : result B :=
  match m with
  | Ok a => f a
  | Err e => Err e
  end.

Declare Scope result_scope.
Delimit Scope result_scope with result.
Notation "x <- m ;; k" := (rbind m (fun x => k))
  (at level 61, m at next level, right associativity) : result_scope.
Notation "' p <- m ;; k" := (rbind m (fun p => k))
  (at level 61, p pattern, m at next level, right associativity) : result_scope.

(** ** The road graph *)

Module RoadGraph.

Definition node : Type := Z.
Definition key : Type := Z.

(** Node attributes ["y"] (latitude) and ["x"] (longitude). *)
Record node_data : Type := { y : R; x : R }.

(** Shapely geometries, as [flatten_coords] tells them apart; the
    coordinates are [(x, y)] pairs. *)
Inductive geom : Type :=
| LineString (coords : list (R * R))
| MultiLineString (geoms : list (list (R * R)))
| OtherGeometry.

(** Edge attributes; each may be absent. *)
Record edge_data : Type := {
  travel_time : option R;
  length : option R;
  geometry : option geom
}.

(** A [networkx.MultiDiGraph]: the node dictionary in insertion order,
    and for each ordered pair the dictionary [G[u][v]] of parallel edges
    in insertion order, empty when [u] has no edge to [v]. *)
Record graph : Type := {
  nodes : list (node * node_data);
  adj : node -> node -> list (key * edge_data)
}.

Fixpoint assoc {A} (k : Z) (l : list (Z * A)) : option A :=
  match l with
  | [] => None
  | (k', a) :: l' => if Z.eqb k k' then Some a else assoc k l'
  end.

(** [G.has_edge(u, v)] *)
Definition has_edge (G : graph) (u v : node) : bool :=
  match adj G u v with [] => false | _ :: _ => true end.

(** [G.nodes[u]] *)
Definition node_attrs (G : graph) (u : node) : result node_data :=
  match assoc u (nodes G) with
  | Some d => Ok d
  | None => Err (KeyError "node")
  end.

(** [G[u][v]] *)
Definition edges_between (G : graph) (u v : node)
  : result (list (key * edge_data)) :=
  match adj G u v with
  | [] => Err (KeyError "edge")
  | l => Ok l
  end.

(** [G[u][v][k]], where [k] may be [None] *)
Definition edge_attrs (G : graph) (u v : node) (k : option key)
  : result edge_data :=
  (l <- edges_between G u v ;;
   match k with
   | None => Err (KeyError "None")
   | Some k =>
       match assoc k l with
       | Some ed => Ok ed
       | None => Err (KeyError "key")
       end
   end)%result.

End RoadGraph.

(** ** Path extractor *)

Module PathExtractor.

Import Geometry RoadGraph.
Local Open Scope result_scope.

(** A polyline point, the dictionary [{"lat": .., "lng": ..}]. *)
Record point : Type := { lat : R; lng : R }.

Definition node_point (d : node_data) : point :=
  {| lat := y d; lng := x d |}.

(** The estimated time of one parallel edge: its [travel_time], else
    its [length] (default [1e9]) at 12.5 m/s. *)
Definition edge_time (ed : edge_data) : R :=
  match travel_time ed with
  | Some t => t
  | None =>
      match length ed with
      | Some l => l / (25 / 2)
      | None => 1e9 / (25 / 2)
      end
  end.

(** One turn of the loop of [best_edge_key] on the state
    [(best, best_k)]. *)
Definition best_step (st : R * option key) (ked : key * edge_data)
  : R * option key :=
  let '(best, best_k) := st in
  let '(k, ed) := ked in
  let t := edge_time ed in
  if Rlt_dec t best then (t, Some k) else (best, best_k).

Definition best_edge_key (G : graph) (u v : node) : option key :=
  if negb (has_edge G u v) then None
  else snd (fold_left best_step (adj G u v) (1e20, None)).

Definition flatten_coords (g : geom) : option (list (R * R)) :=
  match g with
  | LineString coords => Some coords
  | MultiLineString geoms => Some (List.concat geoms)
  | OtherGeometry => None
  end.

Definition straight (G : graph) (u v : node) : result (list point) :=
  du <- node_attrs G u ;;
  dv <- node_attrs G v ;;
  Ok [node_point du; node_point dv].

Definition edge_coords (G : graph) (u v : node) (k : option key)
  : result (list point) :=
  ed <- edge_attrs G u v k ;;
  match geometry ed with
  | Some g =>
      match flatten_coords g with
      | Some (c :: cs) =>
          Ok (map (fun xy => {| lat := snd xy; lng := fst xy |}) (c :: cs))
      | _ => straight G u v
      end
  | None => straight G u v
  end.

Definition node_distance (G : graph) (u v : node) : result R :=
  du <- node_attrs G u ;;
  dv <- node_attrs G v ;;
  Ok (haversine (y du, x du) (y dv, x dv)).

(** Python's [min] of a non-empty sequence [a :: l]. *)
Definition py_min_list (a : R) (l : list R) : R := fold_left py_min l a.

(** The lengths that are present, in edge order. *)
Fixpoint lengths (l : list (key * edge_data)) : list R :=
  match l with
  | [] => []
  | (_, ed) :: l' =>
      match length ed with
      | Some len => len :: lengths l'
      | None => lengths l'
      end
  end.

Definition edge_len_m (G : graph) (u v : node) : result R :=
  l <- edges_between G u v ;;
  match lengths l with
  | a :: vals => Ok (py_min_list a vals)
  | [] => node_distance G u v
  end.

Definition is_None {A} (o : option A) : bool :=
  match o with None => true | Some _ => false end.

(** The body of the loop of [polyline_from_path] for the pair [(u, v)],
    before the first coordinate is dropped: the segment and its
    length. *)
Definition segment (G : graph) (undirected : bool) (u v : node)
  : result (list point * R) :=
  if negb undirected then
    let k := best_edge_key G u v in
    if is_None k && has_edge G v u then
      let k := best_edge_key G v u in
      seg <- edge_coords G v u k ;;
      L <- edge_len_m G v u ;;
      Ok (rev seg, L)
    else
      seg <- edge_coords G u v k ;;
      L <- edge_len_m G u v ;;
      Ok (seg, L)
  else if has_edge G u v then
    let k := best_edge_key G u v in
    seg <- edge_coords G u v k ;;
    L <- edge_len_m G u v ;;
    Ok (seg, L)
  else if has_edge G v u then
    let k := best_edge_key G v u in
    seg <- edge_coords G v u k ;;
    L <- edge_len_m G v u ;;
    Ok (rev seg, L)
  else
    seg <- straight G u v ;;
    L <- node_distance G u v ;;
    Ok (seg, L).

(** [if i>0 and seg: seg = seg[1:]]; the tail of an empty segment is
    the empty segment. *)
Definition drop_first (i : nat) (seg : list point) : list point :=
  match i with
  | O => seg
  | S _ => tl seg
  end.

(** The loop of [polyline_from_path] from index [i] on, [path] being
    [path_nodes[i:]]. *)
Fixpoint polyline_loop (G : graph) (undirected : bool) (i : nat)
    (path : list node) (poly : list point) (meters : R)
  : result (list point * R) :=
  match path with
  | [] => Ok (poly, meters)
  | u :: rest =>
      match rest with
      | [] => Ok (poly, meters)
      | v :: _ =>
          '(seg, L) <- segment G undirected u v ;;
          polyline_loop G undirected (S i) rest
            (poly ++ drop_first i seg) (meters + L)
      end
  end.

Definition polyline_from_path (G : graph) (path_nodes : list node)
    (undirected : bool) : result (list point * R) :=
  polyline_loop G undirected 0 path_nodes [] 0.

(** *** Notions used to state the properties of the extractor *)

(** The segments of the consecutive pairs of a path, in order, up to
    the first that raises. *)
Fixpoint segments (G : graph) (undirected : bool) (path : list node)
  : result (list (list point * R)) :=
  match path with
  | [] => Ok []
  | u :: rest =>
      match rest with
      | [] => Ok []
      | v :: _ =>
          sl <- segment G undirected u v ;;
          more <- segments G undirected rest ;;
          Ok (sl :: more)
      end
  end.

(** The first sequence whole, every later one without its first
    element. *)
Definition stitch {A} (segs : list (list A)) : list A :=
  match segs with
  | [] => []
  | s :: later => s ++ List.concat (map (@tl A) later)
  end.

(** No two neighbours of the list are equal. *)
Fixpoint stutter_free {A} (l : list A) : Prop :=
  match l with
  | [] => True
  | a :: r =>
      match r with
      | [] => True
      | b :: _ => a <> b /\ stutter_free r
      end
  end.

(** Each sequence ends where the next one starts. *)
Fixpoint chained {A} (segs : list (list A)) : Prop :=
  match segs with
  | [] => True
  | s :: later =>
      match later with
      | [] => True
      | s' :: _ =>
          (exists p front back, s = front ++ [p] /\ s' = p :: back)
          /\ chained later
      end
  end.

(** Every consecutive pair of the path has an edge in at least one
    direction. *)
Fixpoint pairs_connected (G : graph) (path : list node) : Prop :=
  match path with
  | [] => True
  | u :: rest =>
      match rest with
      | [] => True
      | v :: _ =>
          (has_edge G u v = true \/ has_edge G v u = true)
          /\ pairs_connected G rest
      end
  end.

(** Every edge is estimated faster than the initial value [1e20] of
    the search of [best_edge_key]. *)
Definition below_sentinel (G : graph) : Prop :=
  forall u v k ed, In (k, ed) (adj G u v) -> edge_time ed < 1e20.

(** The end points of every edge are nodes of the graph, with their
    coordinates. *)
Definition placed (G : graph) : Prop :=
  forall u v, has_edge G u v = true ->
    assoc u (nodes G) <> None /\ assoc v (nodes G) <> None.

(** What the loop of [polyline_from_path] appends from index [i] on. *)
Definition appended (i : nat) (segs : list (list point)) : list point :=
  match i with
  | O => stitch segs
  | S _ => List.concat (map (@tl point) segs)
  end.

(** Sample graphs: three nodes in a row with the edges 1 -> 2 and
    2 -> 3, each a single edge of 10 s and 100 m without geometry; and
    two nodes with the single edge 1 -> 2 of a given travel time. *)
Module Graphs.

Definition plain_edge (t len : R) : edge_data :=
  {| travel_time := Some t; length := Some len; geometry := None |}.

Definition chain (d1 d2 d3 : node_data) : graph :=
  {| nodes := [(1%Z, d1); (2%Z, d2); (3%Z, d3)];
     adj := fun u v =>
       if (Z.eqb u 1 && Z.eqb v 2) || (Z.eqb u 2 && Z.eqb v 3)
       then [(0%Z, plain_edge 10 100)] else [] |}.

Definition at_0_0 : node_data := {| y := 0; x := 0 |}.
Definition at_1_1 : node_data := {| y := 1; x := 1 |}.
Definition at_2_2 : node_data := {| y := 2; x := 2 |}.

(** Three nodes at three places. *)
Definition spread_chain : graph := chain at_0_0 at_1_1 at_2_2.

(** Its two segments. *)
Definition spread_segments : list (list point * R) :=
  [([node_point at_0_0; node_point at_1_1], 100);
   ([node_point at_1_1; node_point at_2_2], 100)].

(** Nodes 2 and 3 at one place. *)
Definition stacked_chain : graph := chain at_0_0 at_1_1 at_1_1.

Definition single_edge (t : R) : graph :=
  {| nodes := [(1%Z, at_0_0); (2%Z, at_1_1)];
     adj := fun u v =>
       if Z.eqb u 1 && Z.eqb v 2
       then [(0%Z, plain_edge t 100)] else [] |}.

(** The three nodes at three places without any edge. *)
Definition islands : graph :=
  {| nodes := [(1%Z, at_0_0); (2%Z, at_1_1); (3%Z, at_2_2)];
     adj := fun _ _ => [] |}.

(** Nodes 1 and 2 without any edge. *)
Definition no_edge : graph :=
  {| nodes := [(1%Z, at_0_0); (2%Z, at_1_1)]; adj := fun _ _ => [] |}.

End Graphs.

End PathExtractor.

(** ** Calls out of the program: events and the library *)

Module Effects.

Import RoadGraph.

Inductive weight : Type := by_travel_time | by_length.

(** What a run does outside the program, in order.  [LocalAttempt] is
    the entry of [route_via_osmnx], recorded with its buffer so that
    the attempts of the orchestrator can be read from a run. *)
Inductive event : Type :=
| OsrmGet (start_lng start_lat end_lng end_lat timeout : R)
| LocalAttempt (buffer_km : R)
| LoadTile (north south east west : R)
| NearestNodes (X Y : R)
| GetUndirected
| ToUndirected
| HasPath (s t : option node)
| WeightedSearch (w : weight)
| UnweightedSearch.

(** A computation: the events it caused, then its value or the
    exception it raised. *)
Definition M (A : Type) : Type := (list event * result A)%type.

Definition ret {A} (a : A) : M A := ([], Ok a).

Definition lift {A} (r : result A) : M A := ([], r).

(** A call that is seen from outside. *)
Definition call {A} (ev : event) (r : result A) : M A := ([ev], r).

Definition bind {A B} (m : M A) (f : A -> M B) : M B :=
  match m with
  | (t, Ok a) => let '(t', r) := f a in (t ++ t', r)
  | (t, Err e) => (t, Err e)
  end.

(** [try: m except Exception as e: h e] *)
Definition try_except {A} (m : M A) (h : exn -> M A) : M A :=
  match m with
  | (t, Ok a) => (t, Ok a)
  | (t, Err e) => let '(t', r) := h e in (t ++ t', r)
  end.

Definition events {A} (m : M A) : list event := fst m.
Definition outcome {A} (m : M A) : result A := snd m.

(** The OSRM answer, once [raise_for_status] and the JSON decoding have
    passed: the ["code"] and the ["routes"], each route with its
    [[lon, lat]] coordinates, ["distance"] and ["duration"]. *)
Record osrm_route : Type := {
  coordinates : list (R * R);
  distance : R;
  duration : R
}.

Record osrm_json : Type := {
  code : option string;
  routes : list osrm_route
}.

(** The services and library functions the program calls.  Each is a
    function of its arguments: within one request the graph of a
    bounding box, once built, is served again from the cache, and the
    graph functions are deterministic. *)
Record Library : Type := {
  (** [requests.get] on the OSRM URL, [raise_for_status], [r.json()] *)
  osrm_get : R -> R -> R -> R -> R -> result osrm_json;
  (** [load_or_build_bbox]: the tile store and the map download *)
  load_or_build_bbox : R -> R -> R -> R -> result graph;
  (** [ox.distance.nearest_nodes(G, X, Y)] *)
  nearest_nodes : graph -> R -> R -> result node;
  (** [ox.utils_graph.get_undirected(G)] *)
  get_undirected : graph -> result graph;
  (** [G.to_undirected(as_view=False)] *)
  to_undirected : graph -> result graph;
  (** [nx.has_path(UG, s, t)] *)
  has_path : graph -> option node -> option node -> result bool;
  (** [ox.routing.shortest_path(G, s, t, weight)] *)
  routing_shortest_path :
    graph -> option node -> option node -> weight ->
    result (option (list node));
  (** [ox.shortest_path(G, s, t, weight)] *)
  ox_shortest_path :
    graph -> option node -> option node -> weight ->
    result (option (list node));
  (** [nx.shortest_path(UG, s, t)] *)
  nx_shortest_path :
    graph -> option node -> option node -> result (list node)
}.

End Effects.

Declare Scope run_scope.
Delimit Scope run_scope with run.
Notation "x <- m ;; k" := (Effects.bind m (fun x => k))
  (at level 61, m at next level, right associativity) : run_scope.
Notation "' p <- m ;; k" := (Effects.bind m (fun p => k))
  (at level 61, p pattern, m at next level, right associativity) : run_scope.

(** ** Remote routing, local routing and the orchestrator *)

Module Orchestrator.

Import Geometry RoadGraph PathExtractor Effects.
Local Open Scope run_scope.
Local Open Scope string_scope.

(** The JSON object that [/route] answers with; a key that is missing
    is [None] in the optional fields [error] and [detail], and [null]
    in [meters] and [seconds]. *)
Record RouteResult : Type := {
  polyline : list point;
  meters : option R;
  seconds : option R;
  error : option string;
  detail : option string
}.

Definition found (poly : list point) (m s : R) : RouteResult :=
  {| polyline := poly; meters := Some m; seconds := Some s;
     error := None; detail := None |}.

Definition no_path : RouteResult :=
  {| polyline := []; meters := None; seconds := None;
     error := Some "no_path"; detail := None |}.

Definition server_error (e : exn) : RouteResult :=
  {| polyline := []; meters := None; seconds := None;
     error := Some "server_error"; detail := Some (str e) |}.

Section WithLibrary.

Variable lib : Library.

Definition route_via_osrm (start_lat start_lng end_lat end_lng : R)
    (timeout : R) : M (option RouteResult) :=
  data <- call (OsrmGet start_lng start_lat end_lng end_lat timeout)
            (osrm_get lib start_lng start_lat end_lng end_lat timeout) ;;
  match code data, routes data with
  | Some c, route :: _ =>
      if String.eqb c "Ok" then
        let coords := coordinates route in
        let poly :=
          map (fun ll => {| lat := snd ll; lng := fst ll |}) coords in
        ret (Some (found poly (distance route) (duration route)))
      else ret None
  | _, _ => ret None
  end.

Definition build_corridor (start_lat start_lng end_lat end_lng : R)
    (buffer_km : R) : M graph :=
  let mid_lat := (start_lat + end_lat) / 2 in
  let '(dlat, dlon) := deg_buffer_for_km mid_lat buffer_km in
  let north := py_max start_lat end_lat + dlat in
  let south := py_min start_lat end_lat - dlat in
  let east := py_max start_lng end_lng + dlon in
  let west := py_min start_lng end_lng - dlon in
  call (LoadTile north south east west)
    (load_or_build_bbox lib north south east west).

(** One turn of the linear scan of [nearest_node_fast]. *)
Definition nearest_step (lat lng : R) (st : option node * R)
    (nd : node * node_data) : option node * R :=
  let '(best, best_d) := st in
  let '(n, data) := nd in
  let dist := haversine (lat, lng) (y data, x data) in
  if Rlt_dec dist best_d then (Some n, dist) else (best, best_d).

Definition nearest_node_fast (G : graph) (lat lng : R)
  : M (option node * R) :=
  try_except
    (nid <- call (NearestNodes lng lat) (nearest_nodes lib G lng lat) ;;
     data <- lift (node_attrs G nid) ;;
     ret (Some nid, haversine (lat, lng) (y data, x data)))
    (fun _ => ret (fold_left (nearest_step lat lng) (nodes G) (None, 1e20))).

(** [path and len(path) >= 2] *)
Definition usable (path : option (list node)) : option (list node) :=
  match path with
  | Some ((_ :: _ :: _) as p) => Some p
  | _ => None
  end.

(** The two shortest-path entry points of OSMnx, the second tried
    when the first raises. *)
Definition weighted_path (G : graph) (s t : option node) (w : weight)
  : M (option (list node)) :=
  try_except
    (call (WeightedSearch w) (routing_shortest_path lib G s t w))
    (fun _ =>
       try_except
         (call (WeightedSearch w) (ox_shortest_path lib G s t w))
         (fun _ => ret None)).

(** The seconds of one step of a travel-time path. *)
Definition step_seconds (G : graph) (u v : node) : result R :=
  let fastest (a b : node) : result R :=
    (dflt <- edge_len_m G a b ;;
     match map (fun ked : key * edge_data =>
                  match travel_time (snd ked) with
                  | Some t => t
                  | None => dflt / (25 / 2)
                  end) (adj G a b) with
     | t0 :: ts => Ok (py_min_list t0 ts)
     | [] => Err (Raised "min() arg is an empty sequence")
     end)%result in
  if has_edge G u v then fastest u v
  else if has_edge G v u then fastest v u
  else (d <- edge_len_m G u v ;; Ok (d / (25 / 2)))%result.

(** The loop [for u, v in zip(path[:-1], path[1:])] summing the
    seconds. *)
Fixpoint path_seconds (G : graph) (path : list node) (secs : R)
  : result R :=
  match path with
  | [] => Ok secs
  | u :: rest =>
      match rest with
      | [] => Ok secs
      | v :: _ =>
          (best <- step_seconds G u v ;;
           path_seconds G rest (secs + best))%result
      end
  end.

(** [ox.utils_graph.get_undirected(G)], and [G.to_undirected] when
    that raises. *)
Definition undirected_view (G : graph) : M graph :=
  try_except
    (call GetUndirected (get_undirected lib G))
    (fun _ => call ToUndirected (to_undirected lib G)).

Definition route_via_osmnx (start_lat start_lng end_lat end_lng : R)
    (buffer_km : R) : M (option RouteResult) :=
  _ <- call (LocalAttempt buffer_km) (Ok tt) ;;
  G <- build_corridor start_lat start_lng end_lat end_lng buffer_km ;;
  '(s, sd) <- nearest_node_fast G start_lat start_lng ;;
  '(t, td) <- nearest_node_fast G end_lat end_lng ;;
  (* quick connectivity check *)
  UG <- undirected_view G ;;
  connected <- call (HasPath s t) (has_path lib UG s t) ;;
  if negb connected then ret None
  else
    (* directed, travel_time *)
    path <- weighted_path G s t by_travel_time ;;
    match usable path with
    | Some path =>
        '(poly, m) <- lift (polyline_from_path G path false) ;;
        secs <- lift (path_seconds G path 0) ;;
        ret (Some (found poly m secs))
    | None =>
        (* directed, length *)
        path <- weighted_path G s t by_length ;;
        match usable path with
        | Some path =>
            '(poly, m) <- lift (polyline_from_path G path false) ;;
            ret (Some (found poly m (m / (25 / 2))))
        | None =>
            (* undirected safety *)
            path <- try_except
                      (p <- call UnweightedSearch
                             (nx_shortest_path lib UG s t) ;;
                       ret (Some p))
                      (fun _ => ret None) ;;
            match usable path with
            | Some path =>
                '(poly, m) <- lift (polyline_from_path G path true) ;;
                ret (Some (found poly m (m / (25 / 2))))
            | None => ret None
            end
        end
    end.

(** The loop [for mult in (1.0, 1.6, 2.3)] of [route], from some
    multiplier on; it returns at the first result. *)
Fixpoint local_attempts (start_lat start_lng end_lat end_lng buf : R)
    (mults : list R) : M (option RouteResult) :=
  match mults with
  | [] => ret None
  | mult :: rest =>
      res <- route_via_osmnx start_lat start_lng end_lat end_lng
               (py_min 60 (buf * mult)) ;;
      match res with
      | Some r => ret (Some r)
      | None => local_attempts start_lat start_lng end_lat end_lng buf rest
      end
  end.

Definition multipliers : list R := [1; 16 / 10; 23 / 10].

(** [engine in ("auto", "osrm")] *)
Definition tries_remote (engine : string) : bool :=
  String.eqb engine "auto" || String.eqb engine "osrm".

(** Step 1 of [route], OSRM first: the remote route if the engine
    asks for it and the service gives one; a raised exception is
    logged and dropped. *)
Definition remote_attempt (start_lat start_lng end_lat end_lng : R)
    (engine : string) : M (option RouteResult) :=
  if tries_remote engine then
    try_except
      (route_via_osrm start_lat start_lng end_lat end_lng 8)
      (fun _ => ret None)
  else ret None.

(** [buffer_km if buffer_km is not None else compute_buffer_km(..)] *)
Definition base_buffer (start_lat start_lng end_lat end_lng : R)
    (buffer_km : option R) : R :=
  match buffer_km with
  | Some b => b
  | None => compute_buffer_km start_lat start_lng end_lat end_lng
  end.

(** The body of the outer [try] of [route]. *)
Definition route_body (start_lat start_lng end_lat end_lng : R)
    (buffer_km : option R) (engine : string) : M RouteResult :=
  (* 1) OSRM first *)
  osrm_res <- remote_attempt start_lat start_lng end_lat end_lng engine ;;
  match osrm_res with
  | Some r => ret r
  | None =>
      (* 2) local OSMnx fallback *)
      let buf :=
        base_buffer start_lat start_lng end_lat end_lng buffer_km in
      res <- local_attempts start_lat start_lng end_lat end_lng buf
               multipliers ;;
      match res with
      | Some r => ret r
      | None => ret no_path
      end
  end.

Definition route (start_lat start_lng end_lat end_lng : R)
    (buffer_km : option R) (engine : string) : M RouteResult :=
  try_except
    (route_body start_lat start_lng end_lat end_lng buffer_km engine)
    (fun e => ret (server_error e)).

End WithLibrary.

(** *** Notions used to state the properties of the orchestrator *)

(** The buffers of the local attempts of a run, in order. *)
Fixpoint attempted (t : list event) : list R :=
  match t with
  | [] => []
  | LocalAttempt b :: t' => b :: attempted t'
  | _ :: t' => attempted t'
  end.

Definition is_search (ev : event) : bool :=
  match ev with
  | WeightedSearch _ | UnweightedSearch => true
  | _ => false
  end.

Definition is_local_attempt (ev : event) : bool :=
  match ev with
  | LocalAttempt _ => true
  | _ => false
  end.

(** No event of the run satisfies [p]. *)
Definition free_of {A} (p : event -> bool) (m : M A) : Prop :=
  forallb (fun ev => negb (p ev)) (events m) = true.

(** The remote attempt gave no route: it was skipped, the service had
    no route, or the call raised. *)
Definition remote_exhausted (lib : Library)
    (start_lat start_lng end_lat end_lng : R) (engine : string) : Prop :=
  tries_remote engine = false
  \/ outcome (route_via_osrm lib start_lat start_lng end_lat end_lng 8)
     = Ok None
  \/ exists e,
       outcome (route_via_osrm lib start_lat start_lng end_lat end_lng 8)
       = Err e.

(** Sample libraries. *)
Module Worlds.

Import PathExtractor.Graphs.

(** The remote service answers without a route; every corridor is
    the chain 1 -> 2 -> 3, node 1 nearest to the points east of
    longitude -96.804 and node 3 to the others. *)
Definition local_only : Library :=
  {| osrm_get := fun _ _ _ _ _ =>
       Ok {| code := Some "NoRoute"; routes := [] |};
     load_or_build_bbox := fun _ _ _ _ => Ok spread_chain;
     nearest_nodes := fun _ X _ =>
       if Rlt_dec X (-96804e-3) then Ok 3%Z else Ok 1%Z;
     get_undirected := fun G => Ok G;
     to_undirected := fun G => Ok G;
     has_path := fun _ _ _ => Ok true;
     routing_shortest_path := fun _ _ _ _ => Ok (Some [1; 2; 3]%Z);
     ox_shortest_path := fun _ _ _ _ => Ok (Some [1; 2; 3]%Z);
     nx_shortest_path := fun _ _ _ => Ok [1; 2; 3]%Z |}.

(** The remote service answers without a route; a corridor whose
    north bound is below [limit] is the three islands, a larger one
    is the chain 1 -> 2 -> 3; the nodes count as connected when the
    edge 1 -> 2 is there. *)
Definition connects_beyond (limit : R) : Library :=
  {| osrm_get := fun _ _ _ _ _ =>
       Ok {| code := Some "NoRoute"; routes := [] |};
     load_or_build_bbox := fun north _ _ _ =>
       if Rlt_dec north limit then Ok islands else Ok spread_chain;
     nearest_nodes := fun _ X _ =>
       if Rlt_dec X (-96804e-3) then Ok 3%Z else Ok 1%Z;
     get_undirected := fun G => Ok G;
     to_undirected := fun G => Ok G;
     has_path := fun G _ _ => Ok (has_edge G 1%Z 2%Z);
     routing_shortest_path := fun _ _ _ _ => Ok (Some [1; 2; 3]%Z);
     ox_shortest_path := fun _ _ _ _ => Ok (Some [1; 2; 3]%Z);
     nx_shortest_path := fun _ _ _ => Ok [1; 2; 3]%Z |}.

(** The same, but the download of every corridor raises. *)
Definition download_fails : Library :=
  {| osrm_get := fun _ _ _ _ _ =>
       Ok {| code := Some "NoRoute"; routes := [] |};
     load_or_build_bbox := fun _ _ _ _ => Err (Raised "overpass");
     nearest_nodes := fun _ _ _ => Ok 1%Z;
     get_undirected := fun G => Ok G;
     to_undirected := fun G => Ok G;
     has_path := fun _ _ _ => Ok true;
     routing_shortest_path := fun _ _ _ _ => Ok None;
     ox_shortest_path := fun _ _ _ _ => Ok None;
     nx_shortest_path := fun _ _ _ => Err (Raised "no path") |}.

(** The route of the chain 1 -> 2 -> 3. *)
Definition chain_route : RouteResult :=
  found [node_point at_0_0; node_point at_1_1; node_point at_2_2]
    (0 + 100 + 100) (0 + 10 + 10).

End Worlds.

End Orchestrator.

(** ** The characters of a tile key *)

Definition key_alphabet : string := "0123456789.-_afin".

(** ** Tile store *)

(** The orchestrator sees the tile store through the [Library].  This
    module is the store itself: [build_graph_from_bbox_compat],
    [prune_to_giant] and [load_or_build_bbox] over the functions of
    OSMnx and NetworkX that they call, the dictionary [GRAPH_CACHE] and
    the files of [TILES_DIR].  A run is the list of the calls made with
    the value returned or the exception raised; [load_or_build_bbox]
    also returns the cache and the files as it leaves them. *)

Module TileStore.

Import RoadGraph TileKey.

(** [FORCE_REBUILD] and [MIN_NODES] *)
Definition FORCE_REBUILD : bool := false.
Definition MIN_NODES : nat := 400.

(** A bounding box as [load_or_build_bbox] receives it. *)
Record bbox : Type := {
  north : spec_float;
  south : spec_float;
  east : spec_float;
  west : spec_float
}.

(** What building or loading a tile does outside the program. *)
Inductive tile_event : Type :=
| GraphGraphFromBbox
| GraphFromBboxTuple
| GraphFromBboxPositional
| GraphGraphFromPolygon
| GraphFromPolygon
| AddEdgeLengths
| AddEdgeSpeeds
| AddEdgeTravelTimes
| ToUndirectedCopy
| ConnectedComponents
| ReadTile (file : string)
| WriteTile (file : string).

(** A computation: its events, then its value or exception. *)
Definition T (A : Type) : Type := (list tile_event * result A)%type.

Definition tret {A} (a : A) : T A := ([], Ok a).

Definition tcall {A} (ev : tile_event) (r : result A) : T A := ([ev], r).

Definition tbind {A B} (m : T A) (f : A -> T B) : T B :=
  match m with
  | (t, Ok a) => let '(t', r) := f a in (t ++ t', r)
  | (t, Err e) => (t, Err e)
  end.

(** [try: m except Exception: h] *)
Definition ttry {A} (m : T A) (h : exn -> T A) : T A :=
  match m with
  | (t, Ok a) => (t, Ok a)
  | (t, Err e) => let '(t', r) := h e in (t ++ t', r)
  end.

(** What [open(fp, "wb")] followed by [pickle.dump(G, f)] does: the
    graph is in the file; or [open] raises and there is no file; or
    [pickle.dump] raises after [open] has created the file, which then
    holds what was written so far, a later [pickle.load] giving the
    content. *)
Inductive written : Type :=
| Written
| NotOpened (e : exn)
| Broken (e : exn) (content : result graph).

(** The OSMnx and NetworkX functions of the tile store, with the
    attributes that [hasattr] tests, and the writing of a tile file.
    [shapely_box] only builds the rectangle of its four bounds; it is
    part of the two polygon calls. *)
Record TileLibrary : Type := {
  (** [hasattr(ox, "graph") and hasattr(ox.graph, "graph_from_bbox")] *)
  has_graph_graph_from_bbox : bool;
  (** [hasattr(ox, "graph_from_bbox")] *)
  has_graph_from_bbox : bool;
  (** [hasattr(ox, "graph") and hasattr(ox.graph, "graph_from_polygon")] *)
  has_graph_graph_from_polygon : bool;
  (** [hasattr(ox, "speed")] *)
  has_speed : bool;
  (** [ox.graph.graph_from_bbox(north=.., south=.., east=.., west=..)] *)
  graph_graph_from_bbox : bbox -> result graph;
  (** [ox.graph_from_bbox(bbox=(north, south, east, west))] *)
  graph_from_bbox_tuple : bbox -> result graph;
  (** [ox.graph_from_bbox(north, south, east, west)] *)
  graph_from_bbox_positional : bbox -> result graph;
  (** [ox.graph.graph_from_polygon(shapely_box(west, south, east, north))] *)
  graph_graph_from_polygon : bbox -> result graph;
  (** [ox.graph_from_polygon(shapely_box(west, south, east, north))] *)
  graph_from_polygon : bbox -> result graph;
  (** [ox.distance.add_edge_lengths] *)
  add_edge_lengths : graph -> result graph;
  (** [ox.speed.add_edge_speeds], [ox.speed.add_edge_travel_times] *)
  speed_add_edge_speeds : graph -> result graph;
  speed_add_edge_travel_times : graph -> result graph;
  (** [ox.add_edge_speeds], [ox.add_edge_travel_times] *)
  add_edge_speeds : graph -> result graph;
  add_edge_travel_times : graph -> result graph;
  (** [G.to_undirected(as_view=False)] *)
  to_undirected_copy : graph -> result graph;
  (** [list(nx.connected_components(UG))] *)
  connected_components : graph -> result (list (list node));
  (** [open(fp, "wb")] and [pickle.dump(G, f)] *)
  write_tile : string -> graph -> written
}.

(** [G.number_of_nodes()] *)
Definition number_of_nodes (G : graph) : nat := List.length (nodes G).

Definition mem (u : node) (l : list node) : bool := existsb (Z.eqb u) l.

(** [G.subgraph(keep).copy()]: the nodes of [G] that are in [keep], and
    the edges of [G] between them. *)
Definition subgraph (G : graph) (keep : list node) : graph :=
  {| nodes := filter (fun nd => mem (fst nd) keep) (nodes G);
     adj := fun u v => if mem u keep && mem v keep then adj G u v else [] |}.

(** [max(c :: comps, key=len)]: the first of the longest. *)
Definition longest (c : list node) (comps : list (list node)) : list node :=
  fold_left
    (fun best x => if (List.length best <? List.length x)%nat then x else best)
    comps c.

(** The in-memory cache [GRAPH_CACHE], by tile key, and the files of
    [TILES_DIR], by file name; a file holds what [pickle.load] gives for
    it, a graph or an exception. *)
Record store : Type := {
  GRAPH_CACHE : string -> option graph;
  tiles : string -> option (result graph)
}.

Definition upd {A} (m : string -> option A) (k : string) (a : A)
  : string -> option A :=
  fun k' => if String.eqb k' k then Some a else m k'.

Section WithTileLibrary.

Variable lib : TileLibrary.

(** One [try] block of [build_graph_from_bbox_compat]: the graph of the
    call if the function is there and does not raise. *)
Definition attempt (available : bool) (ev : tile_event) (r : result graph)
  : T (option graph) :=
  ttry
    (if available then tbind (tcall ev r) (fun G => tret (Some G))
     else tret None)
    (fun _ => tret None).

(** The rest of the function when a block did not return. *)
Definition or_else (m : T (option graph)) (rest : T graph) : T graph :=
  tbind m (fun o => match o with Some G => tret G | None => rest end).

Definition build_graph_from_bbox_compat (b : bbox) : T graph :=
  or_else (attempt (has_graph_graph_from_bbox lib) GraphGraphFromBbox
             (graph_graph_from_bbox lib b))
    (or_else (attempt (has_graph_from_bbox lib) GraphFromBboxTuple
                (graph_from_bbox_tuple lib b))
       (or_else (attempt (has_graph_from_bbox lib) GraphFromBboxPositional
                   (graph_from_bbox_positional lib b))
          (or_else (attempt (has_graph_graph_from_polygon lib)
                      GraphGraphFromPolygon (graph_graph_from_polygon lib b))
             (tcall GraphFromPolygon (graph_from_polygon lib b))))).

Definition prune_to_giant (G : graph) : T graph :=
  tbind
    (ttry
       (tbind (tcall ToUndirectedCopy (to_undirected_copy lib G)) (fun UG =>
        tbind (tcall ConnectedComponents (connected_components lib UG))
          (fun comps =>
             match comps with
             | c :: others => tret (Some (subgraph G (longest c others)))
             | [] => tret None
             end)))
       (fun _ => tret None))
    (fun o => tret (match o with Some G' => G' | None => G end)).

(** The block that adds speeds and travel times: an exception leaves
    the graph as it was before the call that raised. *)
Definition add_speeds (G : graph) : T graph :=
  let speeds :=
    if has_speed lib then speed_add_edge_speeds lib else add_edge_speeds lib in
  let times :=
    if has_speed lib then speed_add_edge_travel_times lib
    else add_edge_travel_times lib in
  tbind
    (ttry (tbind (tcall AddEdgeSpeeds (speeds G)) (fun G1 => tret (Some G1)))
       (fun _ => tret None))
    (fun o =>
       match o with
       | None => tret G
       | Some G1 =>
           ttry (tcall AddEdgeTravelTimes (times G1)) (fun _ => tret G1)
       end).

(** The polygon fallback for a graph that looks tiny. *)
Definition polygon_fallback (b : bbox) (G : graph) : T graph :=
  ttry
    (tbind
       (if has_graph_graph_from_polygon lib
        then tcall GraphGraphFromPolygon (graph_graph_from_polygon lib b)
        else tcall GraphFromPolygon (graph_from_polygon lib b)) (fun G2 =>
     tbind (tcall AddEdgeLengths (add_edge_lengths lib G2)) (fun G2 =>
     tbind (add_speeds G2) (fun G2 =>
     tret (if (number_of_nodes G <? number_of_nodes G2)%nat
           then G2 else G)))))
    (fun _ => tret G).

(** The building of a tile, from the download to the pruning. *)
Definition build_tile (b : bbox) : T graph :=
  tbind (build_graph_from_bbox_compat b) (fun G =>
  tbind (tcall AddEdgeLengths (add_edge_lengths lib G)) (fun G =>
  tbind (add_speeds G) (fun G =>
  tbind (if (number_of_nodes G <? MIN_NODES)%nat
         then polygon_fallback b G else tret G) (fun G =>
  prune_to_giant G)))).

Definition load_or_build_bbox (st : store) (b : bbox) : T graph * store :=
  let key := tile_key (north b) (south b) (east b) (west b) in
  let fp := (key ++ ".pkl")%string in
  match (if FORCE_REBUILD then None else GRAPH_CACHE st key) with
  | Some G => (tret G, st)
  | None =>
      match (if FORCE_REBUILD then None else tiles st fp) with
      | Some content =>
          match content with
          | Ok G =>
              (tcall (ReadTile fp) (Ok G),
               {| GRAPH_CACHE := upd (GRAPH_CACHE st) key G;
                  tiles := tiles st |})
          | Err e => (tcall (ReadTile fp) (Err e), st)
          end
      | None =>
          match build_tile b with
          | (t, Ok G) =>
              match write_tile lib fp G with
              | Written =>
                  ((t ++ [WriteTile fp], Ok G),
                   {| GRAPH_CACHE := upd (GRAPH_CACHE st) key G;
                      tiles := upd (tiles st) fp (Ok G) |})
              | NotOpened e => ((t ++ [WriteTile fp], Err e), st)
              | Broken e content =>
                  ((t ++ [WriteTile fp], Err e),
                   {| GRAPH_CACHE := GRAPH_CACHE st;
                      tiles := upd (tiles st) fp content |})
              end
          | (t, Err e) => ((t, Err e), st)
          end
      end
  end.

End WithTileLibrary.

(** *** Notions used to state the properties of the tile store *)

(** The key and the file name of the tile of a box. *)
Definition key_of (b : bbox) : string :=
  tile_key (north b) (south b) (east b) (west b).

Definition file_of (b : bbox) : string := (key_of b ++ ".pkl")%string.

(** The first store is kept in the second: every cached graph and every
    file of the first is in the second, unchanged. *)
Definition kept (st st' : store) : Prop :=
  (forall k G, GRAPH_CACHE st k = Some G -> GRAPH_CACHE st' k = Some G) /\
  (forall f c, tiles st f = Some c -> tiles st' f = Some c).

(** The two stores agree outside of the tile of the box. *)
Definition same_elsewhere (b : bbox) (st st' : store) : Prop :=
  (forall k, k <> key_of b -> GRAPH_CACHE st' k = GRAPH_CACHE st k) /\
  (forall f, f <> file_of b -> tiles st' f = tiles st f).

Definition is_fetch (ev : tile_event) : bool :=
  match ev with
  | GraphGraphFromBbox | GraphFromBboxTuple | GraphFromBboxPositional
  | GraphGraphFromPolygon | GraphFromPolygon => true
  | _ => false
  end.

(** Sample store and library: nothing cached, no file; every download
    gives the chain 1 -> 2 -> 3 and a fourth, lonely node, and the
    components are those two. *)
Module Tiles.

Import PathExtractor.Graphs.

Definition empty_store : store :=
  {| GRAPH_CACHE := fun _ => None; tiles := fun _ => None |}.

Definition chain_and_island : graph :=
  {| nodes := [(1%Z, at_0_0); (2%Z, at_1_1); (3%Z, at_2_2); (4%Z, at_0_0)];
     adj := adj spread_chain |}.

Definition osmnx : TileLibrary :=
  {| has_graph_graph_from_bbox := false;
     has_graph_from_bbox := true;
     has_graph_graph_from_polygon := true;
     has_speed := true;
     graph_graph_from_bbox := fun _ => Err (Raised "no attribute");
     graph_from_bbox_tuple := fun _ => Err (Raised "unexpected keyword");
     graph_from_bbox_positional := fun _ => Ok chain_and_island;
     graph_graph_from_polygon := fun _ => Ok chain_and_island;
     graph_from_polygon := fun _ => Ok chain_and_island;
     add_edge_lengths := fun G => Ok G;
     speed_add_edge_speeds := fun G => Ok G;
     speed_add_edge_travel_times := fun G => Err (Raised "no speed");
     add_edge_speeds := fun G => Ok G;
     add_edge_travel_times := fun G => Ok G;
     to_undirected_copy := fun G => Ok G;
     connected_components := fun _ => Ok [[4%Z]; [1%Z; 2%Z; 3%Z]];
     write_tile := fun _ _ => Written |}.

(** The same library on a disk that fills up while a tile is dumped. *)
Definition full_disk : TileLibrary :=
  {| has_graph_graph_from_bbox := has_graph_graph_from_bbox osmnx;
     has_graph_from_bbox := has_graph_from_bbox osmnx;
     has_graph_graph_from_polygon := has_graph_graph_from_polygon osmnx;
     has_speed := has_speed osmnx;
     graph_graph_from_bbox := graph_graph_from_bbox osmnx;
     graph_from_bbox_tuple := graph_from_bbox_tuple osmnx;
     graph_from_bbox_positional := graph_from_bbox_positional osmnx;
     graph_graph_from_polygon := graph_graph_from_polygon osmnx;
     graph_from_polygon := graph_from_polygon osmnx;
     add_edge_lengths := add_edge_lengths osmnx;
     speed_add_edge_speeds := speed_add_edge_speeds osmnx;
     speed_add_edge_travel_times := speed_add_edge_travel_times osmnx;
     add_edge_speeds := add_edge_speeds osmnx;
     add_edge_travel_times := add_edge_travel_times osmnx;
     to_undirected_copy := to_undirected_copy osmnx;
     connected_components := connected_components osmnx;
     write_tile := fun _ _ =>
       Broken (Raised "No space left on device") (Err (Raised "EOFError")) |}.

Definition dallas : bbox :=
  {| north := Doubles.lat_32_875; south := Doubles.lat_32_5;
     east := Doubles.lng_m96_5; west := Doubles.lng_m96_875 |}.

(** A box less than half a thousandth of a degree away from [dallas]
    on its north side. *)
Definition dallas_nearby : bbox :=
  {| north := S754_finite false (263 * 2 ^ 44 + 2 ^ 34) (-47);
     south := Doubles.lat_32_5;
     east := Doubles.lng_m96_5; west := Doubles.lng_m96_875 |}.

(** The store after the tile of [dallas] has been built. *)
Definition warm_store : store :=
  snd (load_or_build_bbox osmnx empty_store dallas).

(** The store after a restart of the server: the cache is empty, the
    files are there. *)
Definition restarted : store :=
  {| GRAPH_CACHE := fun _ => None; tiles := tiles warm_store |}.

End Tiles.

End TileStore.

(** ** Notions used to state further properties of the extractor *)

Module PathNotions.

Import RoadGraph PathExtractor.

(** No edge of the graph has a geometry. *)
Definition no_geometry (G : graph) : Prop :=
  forall u v k ed, In (k, ed) (adj G u v) -> geometry ed = None.

(** The nodes of the path are nodes of the graph, with the attributes
    [ds]. *)
Definition located (G : graph) (path : list node) (ds : list node_data)
  : Prop :=
  Forall2 (fun u d => assoc u (nodes G) = Some d) path ds.

(** The two-point sequences of the neighbours of a list. *)
Fixpoint pairs {A} (l : list A) : list (list A) :=
  match l with
  | [] => []
  | a :: r =>
      match r with
      | [] => []
      | b :: _ => [a; b] :: pairs r
      end
  end.

End PathNotions.

(** ** Notions used to state further properties of the runs *)

Module RunNotions.

Import RoadGraph Effects Orchestrator.

Definition is_osrm_get (ev : event) : bool :=
  match ev with
  | OsrmGet _ _ _ _ _ => true
  | _ => false
  end.

(** The shortest-path searches of a run, in order. *)
Definition searches (t : list event) : list event := filter is_search t.

(** The result is one with a route: a distance and a duration, no
    error. *)
Definition is_route (r : RouteResult) : Prop :=
  (exists m s, meters r = Some m /\ seconds r = Some s)
  /\ error r = None /\ detail r = None.

(** The result is one without a route: nothing but an error code, with
    a detail for "server_error" and for it alone. *)
Definition is_failure (r : RouteResult) : Prop :=
  polyline r = [] /\ meters r = None /\ seconds r = None /\
  ((error r = Some "no_path"%string /\ detail r = None)
   \/ (error r = Some "server_error"%string /\ exists d, detail r = Some d)).

End RunNotions.

(** ** More sample graphs *)

Module Parallel.

Import RoadGraph PathExtractor PathExtractor.Graphs.

(** Nodes 1 and 2 with three parallel edges 1 -> 2: key 0 of 30 s and
    300 m, key 1 of 20 s and 250 m, key 2 of 20 s and 200 m. *)
Definition three_lanes : graph :=
  {| nodes := [(1%Z, at_0_0); (2%Z, at_1_1)];
     adj := fun u v =>
       if Z.eqb u 1 && Z.eqb v 2
       then [(0%Z, plain_edge 30 300); (1%Z, plain_edge 20 250);
             (2%Z, plain_edge 20 200)]
       else [] |}.

End Parallel.

(** ** More sample libraries *)

Module MoreWorlds.

Import RoadGraph PathExtractor.Graphs Effects Orchestrator.

(** The remote service has the two-point route of 1500 m and 120 s and
    a second route; the nearest-node search of the library raises. *)
Definition remote_up : Library :=
  {| osrm_get := fun _ _ _ _ _ =>
       Ok {| code := Some "Ok"%string;
             routes :=
               [ {| coordinates := [(-96798e-3, 32781e-3);
                                    (-96810e-3, 32790e-3)];
                    distance := 1500; duration := 120 |};
                 {| coordinates := []; distance := 0; duration := 0 |} ] |};
     load_or_build_bbox := fun _ _ _ _ => Ok islands;
     nearest_nodes := fun _ _ _ => Err (Raised "no index");
     get_undirected := fun G => Ok G;
     to_undirected := fun G => Ok G;
     has_path := fun _ _ _ => Ok false;
     routing_shortest_path := fun _ _ _ _ => Ok None;
     ox_shortest_path := fun _ _ _ _ => Ok None;
     nx_shortest_path := fun _ _ _ => Err (Raised "no path") |}.

End MoreWorlds.
(** * Properties *)

Import Geometry.

(** ** Geometry *)

Lemma py_max_Rmax a b : py_max a b = Rmax a b.
Proof.
  unfold py_max, Rmax.
  destruct (Rlt_dec a b), (Rle_dec a b); try reflexivity; lra.
Qed.

Lemma py_min_Rmin a b : py_min a b = Rmin a b.
Proof.
  unfold py_min, Rmin.
  destruct (Rlt_dec b a), (Rle_dec a b); try reflexivity; lra.
Qed.

Lemma radians_opp d : radians (- d) = - radians d.
Proof. unfold radians. field. Qed.

Lemma sin_half_sq_opp t : sin (- t / 2) ^ 2 = sin (t / 2) ^ 2.
Proof.
  replace (- t / 2) with (- (t / 2)) by lra.
  rewrite sin_neg. ring.
Qed.

Lemma haversine_sym a b : haversine a b = haversine b a.
Proof.
  destruct a as [lat1 lon1], b as [lat2 lon2]. unfold haversine.
  replace (lat1 - lat2) with (- (lat2 - lat1)) by lra.
  replace (lon1 - lon2) with (- (lon2 - lon1)) by lra.
  rewrite !radians_opp, !sin_half_sq_opp.
  rewrite (Rmult_comm (cos (radians lat2)) (cos (radians lat1))).
  reflexivity.
Qed.

Lemma haversine_refl a : haversine a a = 0.
Proof.
  destruct a as [lat1 lon1]. unfold haversine.
  replace (lat1 - lat1) with 0 by lra.
  replace (lon1 - lon1) with 0 by lra.
  replace (radians 0 / 2) with 0 by (unfold radians; lra).
  rewrite sin_0.
  replace (0 ^ 2 + cos (radians lat1) * cos (radians lat1) * 0 ^ 2) with 0
    by ring.
  rewrite sqrt_0, asin_0. ring.
Qed.

(** C9. For any two coordinates [a] and [b], [haversine a b] equals
    [haversine b a], and for any coordinate [a], [haversine a a] is 0. *)
Theorem haversine_symmetric_and_zero_on_diagonal :
  (forall a b : latlon, haversine a b = haversine b a) /\
  (forall a : latlon, haversine a a = 0).
Proof. split; [exact haversine_sym | exact haversine_refl]. Qed.

Lemma clamp_8_60 d : py_max 8 (py_min 60 d) = clamp d 8 60.
Proof.
  unfold py_max, py_min, clamp.
  destruct (Rlt_dec d 60), (Rlt_dec d 8), (Rlt_dec 60 d);
    try destruct (Rlt_dec 8 d); try destruct (Rlt_dec 8 60);
    try reflexivity; lra.
Qed.

Lemma clamp_bounds d : 8 <= clamp d 8 60 <= 60.
Proof.
  unfold clamp.
  destruct (Rlt_dec d 8); [lra|]. destruct (Rlt_dec 60 d); lra.
Qed.

Lemma clamp_mono d d' : d <= d' -> clamp d 8 60 <= clamp d' 8 60.
Proof.
  intros H. unfold clamp.
  destruct (Rlt_dec d 8), (Rlt_dec 60 d), (Rlt_dec d' 8), (Rlt_dec 60 d');
    lra.
Qed.

(** C8. [compute_buffer_km] returns the clamp of the haversine distance
    in km times 0.05 to [8, 60]; its value always lies in [8, 60]; and a
    trip that is at least as long gets a buffer that is at least as
    large. *)
Theorem compute_buffer_km_is_clamp_bounded_monotone :
  forall s_lat s_lng e_lat e_lng : R,
    compute_buffer_km s_lat s_lng e_lat e_lng
      = clamp (haversine (s_lat, s_lng) (e_lat, e_lng) / 1000 * (5 / 100)) 8 60
    /\ 8 <= compute_buffer_km s_lat s_lng e_lat e_lng <= 60
    /\ forall s_lat' s_lng' e_lat' e_lng' : R,
         haversine (s_lat, s_lng) (e_lat, e_lng)
           <= haversine (s_lat', s_lng') (e_lat', e_lng') ->
         compute_buffer_km s_lat s_lng e_lat e_lng
           <= compute_buffer_km s_lat' s_lng' e_lat' e_lng'.
Proof.
  intros. unfold compute_buffer_km. rewrite clamp_8_60.
  split; [reflexivity|]. split; [apply clamp_bounds|].
  intros. rewrite clamp_8_60. apply clamp_mono. lra.
Qed.

Lemma asin_nonneg t : 0 <= t -> 0 <= asin t.
Proof.
  intros H. unfold asin.
  destruct (Rle_dec t (-1)); [lra|].
  destruct (Rle_dec 1 t); [pose proof PI_RGT_0; lra|].
  destruct (Req_dec t 0) as [->|Hne].
  - replace (0 / sqrt (1 - 0²)) with 0 by (unfold Rdiv; ring).
    rewrite atan_0. lra.
  - rewrite <- atan_0. left. apply atan_increasing.
    apply Rdiv_lt_0_compat; [lra|].
    apply sqrt_lt_R0. unfold Rsqr. nra.
Qed.

Lemma haversine_nonneg a b : 0 <= haversine a b.
Proof.
  destruct a as [lat1 lon1], b as [lat2 lon2]. unfold haversine.
  apply Rmult_le_pos; [lra|]. apply asin_nonneg, sqrt_pos.
Qed.

(** The trip from (32.781, -96.798) to itself is not longer than the
    trip from there to (32.790, -96.810), and its buffer is not
    larger. *)
Lemma compute_buffer_km_witness :
  haversine (32781e-3, -96798e-3) (32781e-3, -96798e-3)
    <= haversine (32781e-3, -96798e-3) (32790e-3, -96810e-3)
  /\ compute_buffer_km 32781e-3 (-96798e-3) 32781e-3 (-96798e-3)
     <= compute_buffer_km 32781e-3 (-96798e-3) 32790e-3 (-96810e-3).
Proof.
  assert (H : haversine (32781e-3, -96798e-3) (32781e-3, -96798e-3)
              <= haversine (32781e-3, -96798e-3) (32790e-3, -96810e-3)).
  { rewrite haversine_refl. apply haversine_nonneg. }
  split; [exact H|].
  exact (proj2 (proj2 (compute_buffer_km_is_clamp_bounded_monotone
                         32781e-3 (-96798e-3) 32781e-3 (-96798e-3)))
           32781e-3 (-96798e-3) 32790e-3 (-96810e-3) H).
Defined.

(** ** Tile key *)

Import TileKey.

Section StringFacts.

Local Open Scope string_scope.

Lemma lacks_app c s t : lacks c (s ++ t) = lacks c s && lacks c t.
Proof.
  induction s as [|a s IH]; simpl; [reflexivity|].
  rewrite IH. apply andb_assoc.
Qed.

(** Two strings cut at the first occurrence of a separator agree part
    by part. *)
Lemma split_at_first c s1 s2 t1 t2 :
  lacks c s1 = true -> lacks c s2 = true ->
  s1 ++ String c t1 = s2 ++ String c t2 -> s1 = s2 /\ t1 = t2.
Proof.
  revert s2. induction s1 as [|a s1 IH]; intros [|b s2]; simpl;
    intros H1 H2 E.
  - now inversion E.
  - inversion E; subst. rewrite Ascii.eqb_refl in H2. discriminate.
  - inversion E; subst. rewrite Ascii.eqb_refl in H1. discriminate.
  - inversion E; subst.
    apply andb_true_iff in H1 as [_ H1]. apply andb_true_iff in H2 as [_ H2].
    destruct (IH s2 H1 H2 H3) as [-> ->]. auto.
Qed.

Lemma length_app s t :
  String.length (s ++ t) = (String.length s + String.length t)%nat.
Proof. induction s; simpl; congruence. Qed.

(** Two strings with suffixes of one length agree part by part. *)
Lemma split_at_suffix s1 s2 t1 t2 :
  String.length t1 = String.length t2 ->
  s1 ++ t1 = s2 ++ t2 -> s1 = s2 /\ t1 = t2.
Proof.
  intros L. revert s2. induction s1 as [|a s1 IH]; intros [|b s2]; simpl;
    intros E.
  - auto.
  - exfalso. apply (f_equal String.length) in E. simpl in E.
    rewrite length_app in E. lia.
  - exfalso. apply (f_equal String.length) in E. simpl in E.
    rewrite length_app in E. lia.
  - inversion E; subst. destruct (IH s2 H1) as [-> ->]. auto.
Qed.

End StringFacts.

Section Digits.

Local Open Scope string_scope.

Lemma all_digits_uint d : all_digits (NilEmpty.string_of_uint d) = true.
Proof. induction d; simpl; auto. Qed.

Lemma all_digits_lacks c s :
  (N_of_ascii c <? 48)%N || (57 <? N_of_ascii c)%N = true ->
  all_digits s = true -> lacks c s = true.
Proof.
  intros Hc. induction s as [|a s IH]; simpl; [reflexivity|].
  intros H. apply andb_true_iff in H as [Ha Hs].
  rewrite (IH Hs), andb_true_r.
  destruct (Ascii.eqb_spec a c) as [->|]; [|reflexivity].
  apply andb_true_iff in Ha as [H1 H2].
  apply N.leb_le in H1, H2.
  apply orb_true_iff in Hc as [Hc|Hc]; apply N.ltb_lt in Hc; lia.
Qed.

Lemma digit_code k : (k < 10)%N -> N_of_ascii (digit k) = (48 + k)%N.
Proof.
  intros H. unfold digit. apply N_ascii_embedding. lia.
Qed.

Lemma digit_inj j k : (j < 10)%N -> (k < 10)%N -> digit j = digit k -> j = k.
Proof.
  intros Hj Hk E. apply (f_equal N_of_ascii) in E.
  rewrite !digit_code in E by assumption. lia.
Qed.

Lemma all_digits_digit k s :
  (k < 10)%N -> all_digits (String (digit k) s) = all_digits s.
Proof.
  intros H. simpl. rewrite digit_code by assumption.
  replace (48 <=? 48 + k)%N with true by (symmetry; apply N.leb_le; lia).
  replace (48 + k <=? 57)%N with true by (symmetry; apply N.leb_le; lia).
  reflexivity.
Qed.

End Digits.

Section Fixed3.

Local Open Scope string_scope.
Local Open Scope N_scope.

Lemma fixed3_lacks c t :
  (N_of_ascii c <? 48) || (57 <? N_of_ascii c) = true ->
  Ascii.eqb "."%char c = false ->
  lacks c (fixed3 t) = true.
Proof.
  intros Hc Hdot. unfold fixed3.
  rewrite lacks_app.
  rewrite (all_digits_lacks c _ Hc (all_digits_uint _)).
  cbn [append andb].
  match goal with
  | |- lacks c (String "." ?s) = true =>
      change (negb (Ascii.eqb "." c) && lacks c s = true)
  end.
  rewrite Hdot. cbn [negb andb].
  apply (all_digits_lacks c _ Hc).
  rewrite !all_digits_digit; auto using N.mod_lt; apply N.mod_lt; lia.
Qed.

Lemma thousandths_digits t :
  t = 1000 * (t / 1000) + 100 * ((t / 100) mod 10)
      + 10 * ((t / 10) mod 10) + t mod 10.
Proof.
  replace (t / 1000) with (t / 10 / 10 / 10)
    by (rewrite !N.Div0.div_div; reflexivity).
  replace (t / 100) with (t / 10 / 10)
    by (rewrite N.Div0.div_div; reflexivity).
  pose proof (N.div_mod t 10 ltac:(lia)).
  pose proof (N.div_mod (t / 10) 10 ltac:(lia)).
  pose proof (N.div_mod (t / 10 / 10) 10 ltac:(lia)).
  lia.
Qed.

Lemma fixed3_inj t1 t2 : fixed3 t1 = fixed3 t2 -> t1 = t2.
Proof.
  unfold fixed3. intros E.
  apply split_at_suffix in E as [Ei Ed]; [|reflexivity].
  apply (f_equal NilEmpty.uint_of_string) in Ei.
  rewrite !NilEmpty.usu in Ei. injection Ei as Ei.
  apply DecimalN.Unsigned.to_uint_inj in Ei.
  injection Ed as E2 E1 E0.
  apply digit_inj in E2, E1, E0; try (apply N.mod_lt; lia).
  rewrite (thousandths_digits t1), (thousandths_digits t2).
  congruence.
Qed.

Lemma signed_fixed3_inj s1 s2 t1 t2 :
  sign_str s1 ++ fixed3 t1 = sign_str s2 ++ fixed3 t2 ->
  s1 = s2 /\ t1 = t2.
Proof.
  assert (Hm : forall t, lacks "-" (fixed3 t) = true)
    by (intros; apply fixed3_lacks; reflexivity).
  destruct s1, s2; simpl; intros E.
  - injection E as E. split; [reflexivity | now apply fixed3_inj].
  - apply (f_equal (lacks "-")) in E. rewrite Hm in E. discriminate.
  - apply (f_equal (lacks "-")) in E. rewrite Hm in E. discriminate.
  - split; [reflexivity | now apply fixed3_inj].
Qed.

End Fixed3.

Section Rounding.

Local Open Scope N_scope.

(** The rounded quotient is within one half of the exact one. *)
Lemma round_half_even_near n d :
  let q := round_half_even n d in
  2 * q * Npos d <= 2 * n + Npos d /\ 2 * n <= 2 * q * Npos d + Npos d.
Proof.
  unfold round_half_even.
  pose proof (N.div_mod n (Npos d) ltac:(discriminate)) as E.
  pose proof (N.mod_lt n (Npos d) ltac:(discriminate)) as L.
  set (q := n / Npos d) in *. set (r := n mod Npos d) in *.
  destruct (N.compare_spec (2 * r) (Npos d)); [destruct (N.even q)| |];
    cbv zeta; nia.
Qed.

(** An integer strictly within one half of the exact quotient is the
    rounded quotient. *)
Lemma round_half_even_unique n d q0 :
  2 * q0 * Npos d < 2 * n + Npos d -> 2 * n < 2 * q0 * Npos d + Npos d ->
  round_half_even n d = q0.
Proof.
  intros H1 H2. unfold round_half_even.
  pose proof (N.div_mod n (Npos d) ltac:(discriminate)) as E.
  pose proof (N.mod_lt n (Npos d) ltac:(discriminate)) as L.
  set (q := n / Npos d) in *. set (r := n mod Npos d) in *.
  assert (Hq : q0 = q \/ q0 = q + 1) by nia.
  destruct (N.compare_spec (2 * r) (Npos d)); destruct Hq; subst q0;
    try reflexivity; nia.
Qed.

End Rounding.

Section Dyadic.

Local Open Scope Z_scope.

Lemma pow2_mod5 k : (2 ^ Z.of_nat k) mod 5 <> 0.
Proof.
  induction k as [|k IH].
  - discriminate.
  - rewrite Nat2Z.inj_succ, Z.pow_succ_r by lia.
    rewrite <- Z.mul_mod_idemp_r by lia.
    pose proof (Z.mod_pos_bound (2 ^ Z.of_nat k) 5 ltac:(lia)) as B.
    set (r := 2 ^ Z.of_nat k mod 5) in *.
    assert (r = 1 \/ r = 2 \/ r = 3 \/ r = 4) as [-> | [-> | [-> | ->]]] by lia;
      discriminate.
Qed.

(** One thousandth is not a dyadic number. *)
Lemma pow2_not_thousands d a : pow2 d -> 1000 * a <> Zpos d.
Proof.
  intros [k Hk] E. apply (pow2_mod5 k). rewrite <- Hk, <- E.
  replace (1000 * a) with (200 * a * 5) by lia. apply Z.mod_mul. lia.
Qed.

Lemma pow2_mul d1 d2 : pow2 d1 -> pow2 d2 -> pow2 (d1 * d2).
Proof.
  intros [k1 H1] [k2 H2]. exists (k1 + k2)%nat.
  rewrite Pos2Z.inj_mul, H1, H2, Nat2Z.inj_add, Z.pow_add_r; lia.
Qed.

Lemma pow2_magnitude m e : pow2 (snd (magnitude m e)).
Proof.
  destruct e as [|p|p]; simpl.
  - exists 0%nat. reflexivity.
  - exists 0%nat. reflexivity.
  - exists (Pos.to_nat p). rewrite positive_nat_Z. apply Pos2Z.inj_pow.
Qed.

End Dyadic.

Section FormatFacts.

Local Open Scope string_scope.

(** A float that has a value is printed as its sign and its rounded
    thousandths; the value is a dyadic fraction. *)
Lemma format_3f_valued x v :
  SF2Q x = Some v ->
  exists n d,
    pow2 d /\ v = Qmake (signed (sign_bit x) n) d /\
    format_3f x
      = sign_str (sign_bit x) ++ fixed3 (round_half_even (1000 * n) d).
Proof.
  destruct x as [s|s| |s m e]; simpl; try discriminate.
  - intros [= <-]. exists 0%N, 1%positive.
    split; [exists 0%nat; reflexivity|]. destruct s; split; reflexivity.
  - pose proof (pow2_magnitude m e) as P. unfold thousandths.
    destruct (magnitude m e) as [n d]. intros [= <-].
    exists n, d. split; [exact P|]. split; reflexivity.
Qed.

Lemma format_3f_lacks_underscore x : lacks "_" (format_3f x) = true.
Proof.
  assert (F : forall t, lacks "_" (fixed3 t) = true)
    by (intros; apply fixed3_lacks; reflexivity).
  destruct x as [s|s| |s m e]; simpl; try (destruct s; reflexivity).
  - reflexivity.
  - rewrite lacks_app, F. destruct s; reflexivity.
Qed.

Lemma tile_key_inj n s e w n' s' e' w' :
  tile_key n s e w = tile_key n' s' e' w' ->
  format_3f n = format_3f n' /\ format_3f s = format_3f s' /\
  format_3f e = format_3f e' /\ format_3f w = format_3f w'.
Proof.
  unfold tile_key. cbv zeta. intros E.
  change ("_" ++ ?t) with (String "_" t) in E.
  apply split_at_first in E as [E1 E];
    try apply format_3f_lacks_underscore.
  apply split_at_first in E as [E2 E];
    try apply format_3f_lacks_underscore.
  apply split_at_first in E as [E3 E];
    try apply format_3f_lacks_underscore.
  auto.
Qed.

(** Two values printed alike are less than one thousandth apart. *)
Lemma same_format_close x y vx vy :
  SF2Q x = Some vx -> SF2Q y = Some vy ->
  format_3f x = format_3f y ->
  (Qabs (vx - vy) < 1 # 1000)%Q.
Proof.
  intros Hx Hy E.
  destruct (format_3f_valued x vx Hx) as (n1 & d1 & P1 & -> & F1).
  destruct (format_3f_valued y vy Hy) as (n2 & d2 & P2 & -> & F2).
  rewrite F1, F2 in E. apply signed_fixed3_inj in E as [Es Eq].
  rewrite <- Es. clear Es F1 F2 Hx Hy.
  pose proof (round_half_even_near (1000 * n1) d1) as [A1 B1].
  pose proof (round_half_even_near (1000 * n2) d2) as [A2 B2].
  cbv zeta in *. rewrite Eq in A1, B1. clear Eq.
  set (q := round_half_even (1000 * n2) d2) in *.
  pose proof (pow2_not_thousands _ (Z.of_N n1 * Zpos d2 - Z.of_N n2 * Zpos d1)
                (pow2_mul _ _ P1 P2)) as Ne1.
  pose proof (pow2_not_thousands _ (Z.of_N n2 * Zpos d1 - Z.of_N n1 * Zpos d2)
                (pow2_mul _ _ P1 P2)) as Ne2.
  unfold Qlt, Qabs, Qminus, Qplus, Qopp, signed. cbn [Qnum Qden].
  rewrite Pos2Z.inj_mul in *.
  assert (A1' : (2 * Z.of_N q * Zpos d1 * Zpos d2
                 <= (2000 * Z.of_N n1 + Zpos d1) * Zpos d2)%Z)
    by (apply Z.mul_le_mono_nonneg_r; lia).
  assert (B1' : (2000 * Z.of_N n1 * Zpos d2
                 <= (2 * Z.of_N q * Zpos d1 + Zpos d1) * Zpos d2)%Z)
    by (apply Z.mul_le_mono_nonneg_r; lia).
  assert (A2' : (2 * Z.of_N q * Zpos d2 * Zpos d1
                 <= (2000 * Z.of_N n2 + Zpos d2) * Zpos d1)%Z)
    by (apply Z.mul_le_mono_nonneg_r; lia).
  assert (B2' : (2000 * Z.of_N n2 * Zpos d1
                 <= (2 * Z.of_N q * Zpos d2 + Zpos d2) * Zpos d1)%Z)
    by (apply Z.mul_le_mono_nonneg_r; lia).
  destruct (sign_bit x); lia.
Qed.

End FormatFacts.

Section Cells.

(** A value strictly within half a thousandth of [k] thousandths rounds
    to [|k|] thousandths. *)
Lemma cell_rounding s n d k :
  (Qabs (Qmake (signed s n) d - (k # 1000)) < 1 # 2000)%Q ->
  round_half_even (1000 * n) d = Z.abs_N k.
Proof.
  unfold Qlt, Qabs, Qminus, Qplus, Qopp, signed. cbn [Qnum Qden].
  rewrite Pos2Z.inj_mul. intros H.
  apply round_half_even_unique; destruct s; nia.
Qed.

Lemma same_cell_format x y : same_cell x y -> format_3f x = format_3f y.
Proof.
  intros (Es & vx & vy & k & Hx & Hy & Cx & Cy).
  destruct (format_3f_valued x vx Hx) as (n1 & d1 & _ & -> & ->).
  destruct (format_3f_valued y vy Hy) as (n2 & d2 & _ & -> & ->).
  apply cell_rounding in Cx, Cy. rewrite Cx, Cy, Es. reflexivity.
Qed.

End Cells.

(** C2, as the code has it.  Two boxes have the same key exactly when
    corresponding bounds are printed alike with three decimals; bounds
    of one sign that lie strictly within 0.0005 of one multiple of 0.001
    are printed alike, so the key is stable under perturbations that stay
    inside such a cell; and two boxes that differ by at least 0.001 on a
    bound have distinct keys. *)
Theorem tile_key_cells :
  forall n s e w n' s' e' w' : spec_float,
    (format_3f n = format_3f n' /\ format_3f s = format_3f s' /\
     format_3f e = format_3f e' /\ format_3f w = format_3f w'
     <-> tile_key n s e w = tile_key n' s' e' w') /\
    (same_cell n n' -> same_cell s s' -> same_cell e e' -> same_cell w w' ->
     tile_key n s e w = tile_key n' s' e' w') /\
    (differ_by_at_least (1 # 1000) n n' \/ differ_by_at_least (1 # 1000) s s' \/
     differ_by_at_least (1 # 1000) e e' \/ differ_by_at_least (1 # 1000) w w' ->
     tile_key n s e w <> tile_key n' s' e' w').
Proof.
  intros. split; [|split].
  - split; [|apply tile_key_inj].
    intros (En & Es & Ee & Ew). unfold tile_key. cbv zeta.
    rewrite En, Es, Ee, Ew. reflexivity.
  - intros Hn Hs He Hw. unfold tile_key. cbv zeta.
    rewrite (same_cell_format _ _ Hn), (same_cell_format _ _ Hs),
      (same_cell_format _ _ He), (same_cell_format _ _ Hw).
    reflexivity.
  - intros H E. apply tile_key_inj in E as (En & Es & Ee & Ew).
    assert (F : forall x y, differ_by_at_least (1 # 1000) x y ->
                            format_3f x <> format_3f y).
    { intros x y (vx & vy & Hx & Hy & D) Exy.
      pose proof (same_format_close x y vx vy Hx Hy Exy) as C.
      apply (Qlt_irrefl (1 # 1000)). eapply Qle_lt_trans; eauto. }
    destruct H as [H|[H|[H|H]]]; apply F in H; contradiction.
Qed.

Import TileKey.Doubles.

Example sample_keys :
  tile_key lat_32_75 lat_32_5 lng_m96_5 lng_m96_875
    = "32.750_32.500_-96.500_-96.875"%string
  /\ tile_key lat_below_tie lat_32_5 lng_m96_5 lng_m96_875
    = "32.812_32.500_-96.500_-96.875"%string
  /\ tile_key lat_above_tie lat_32_5 lng_m96_5 lng_m96_875
    = "32.813_32.500_-96.500_-96.875"%string.
Proof. repeat split. Qed.

Ltac valued :=
  eexists; eexists; split; [reflexivity|]; split; [reflexivity|];
  vm_compute; first [reflexivity | discriminate].

Ltac in_cell k :=
  split; [reflexivity|]; eexists; eexists; exists k;
  split; [reflexivity|]; split; [reflexivity|]; split; vm_compute; reflexivity.

(** The box (32.75, 32.5, -96.5, -96.875) and the one whose north bound
    is larger by 2^-13 share their cells and their key; raising the north
    bound to 32.875 changes the key. *)
Lemma tile_key_cells_witness :
  (same_cell lat_32_75 lat_32_75_up /\ same_cell lat_32_5 lat_32_5 /\
   same_cell lng_m96_5 lng_m96_5 /\ same_cell lng_m96_875 lng_m96_875) /\
  tile_key lat_32_75 lat_32_5 lng_m96_5 lng_m96_875
    = tile_key lat_32_75_up lat_32_5 lng_m96_5 lng_m96_875 /\
  differ_by_at_least (1 # 1000) lat_32_75 lat_32_875 /\
  tile_key lat_32_75 lat_32_5 lng_m96_5 lng_m96_875
    <> tile_key lat_32_875 lat_32_5 lng_m96_5 lng_m96_875.
Proof.
  assert (Hn : same_cell lat_32_75 lat_32_75_up) by in_cell 32750%Z.
  assert (Hs : same_cell lat_32_5 lat_32_5) by in_cell 32500%Z.
  assert (He : same_cell lng_m96_5 lng_m96_5) by in_cell (-96500)%Z.
  assert (Hw : same_cell lng_m96_875 lng_m96_875) by in_cell (-96875)%Z.
  assert (Hd : differ_by_at_least (1 # 1000) lat_32_75 lat_32_875) by valued.
  split; [exact (conj Hn (conj Hs (conj He Hw)))|].
  split.
  - exact (proj1 (proj2 (tile_key_cells lat_32_75 lat_32_5 lng_m96_5 lng_m96_875
                           lat_32_75_up lat_32_5 lng_m96_5 lng_m96_875))
             Hn Hs He Hw).
  - split; [exact Hd|].
    exact (proj2 (proj2 (tile_key_cells lat_32_75 lat_32_5 lng_m96_5 lng_m96_875
                           lat_32_875 lat_32_5 lng_m96_5 lng_m96_875))
             (or_introl Hd)).
Defined.

(** C2 fails as stated: the doubles 32.8125 - 2^-13 and 32.8125 + 2^-13
    differ by 2^-12 < 0.0005 and are printed 32.812 and 32.813, so two
    boxes that differ by less than 0.0005 on every bound have distinct
    keys. *)
Lemma tile_key_not_stable_below_half_thousandth :
  binary64 lat_below_tie = true /\ binary64 lat_above_tie = true /\
  binary64 lat_32_5 = true /\ binary64 lng_m96_5 = true /\
  binary64 lng_m96_875 = true /\
  differ_by_less_than (1 # 2000) lat_below_tie lat_above_tie /\
  differ_by_less_than (1 # 2000) lat_32_5 lat_32_5 /\
  differ_by_less_than (1 # 2000) lng_m96_5 lng_m96_5 /\
  differ_by_less_than (1 # 2000) lng_m96_875 lng_m96_875 /\
  tile_key lat_below_tie lat_32_5 lng_m96_5 lng_m96_875
    <> tile_key lat_above_tie lat_32_5 lng_m96_5 lng_m96_875.
Proof.
  repeat (split; [first [reflexivity | valued]|]).
  vm_compute. discriminate.
Qed.

(** ** Path extractor *)

Import RoadGraph PathExtractor.

(** Evaluation of a term whose real numbers stay as they are. *)
Ltac run_reals :=
  cbv -[Rlt_dec IZR Rplus Rmult Rdiv Rinv Rminus Ropp haversine
        PI sin cos asin sqrt].

Ltac decide_reals :=
  repeat match goal with
         | |- context [Rlt_dec ?a ?b] =>
             destruct (Rlt_dec a b); [try (exfalso; lra) | try (exfalso; lra)]
         end.

Section Stitching.

Context {A : Type}.

Lemma stutter_free_app_one (front : list A) p back :
  stutter_free (front ++ [p]) -> stutter_free (p :: back) ->
  stutter_free (front ++ p :: back).
Proof.
  induction front as [|a front IH]; simpl; intros H1 H2; [exact H2|].
  destruct front as [|b front]; simpl in *.
  - split; [apply H1 | exact H2].
  - destruct H1 as [Hab H1]. split; [exact Hab | apply IH; assumption].
Qed.

(** Appending the tails of chained sequences to a list that ends where
    the first of them starts keeps neighbours distinct. *)
Lemma stutter_free_tails (later : list (list A)) :
  forall front p,
    stutter_free (front ++ [p]) ->
    (forall s rest, later = s :: rest -> exists back, s = p :: back) ->
    chained later -> Forall stutter_free later ->
    stutter_free ((front ++ [p]) ++ List.concat (map (@tl A) later)).
Proof.
  induction later as [|s later IH]; intros front p Hf Hs Hc Ha.
  - simpl. rewrite app_nil_r. exact Hf.
  - destruct (Hs s later eq_refl) as [back ->]. simpl.
    inversion Ha as [|? ? Hs1 Ha']; subst.
    assert (Hall : stutter_free (front ++ p :: back))
      by (apply stutter_free_app_one; assumption).
    destruct later as [|s' later'].
    + simpl. rewrite app_nil_r, <- app_assoc. exact Hall.
    + destruct Hc as [(q & fr & bk & E1 & E2) Hc].
      rewrite app_assoc.
      replace ((front ++ [p]) ++ back) with ((front ++ fr) ++ [q])
        by (rewrite <- !app_assoc; simpl; rewrite <- E1; reflexivity).
      apply IH.
      * rewrite <- app_assoc, <- E1. exact Hall.
      * intros s0 rest [= <- <-]. exists bk. exact E2.
      * exact Hc.
      * exact Ha'.
Qed.

Lemma stutter_free_stitch (segs : list (list A)) :
  chained segs -> Forall stutter_free segs -> stutter_free (stitch segs).
Proof.
  destruct segs as [|s later]; simpl; [trivial|].
  intros Hc Ha. inversion Ha as [|? ? Hs Ha']; subst.
  destruct later as [|s' later'].
  - simpl. rewrite app_nil_r. exact Hs.
  - destruct Hc as [(q & fr & bk & -> & E2) Hc].
    apply stutter_free_tails; try assumption.
    intros s0 rest [= <- <-]. exists bk. exact E2.
Qed.

End Stitching.

Section Extraction.

Local Open Scope result_scope.

Variable G : graph.
Variable undirected : bool.

Lemma polyline_loop_segments (path : list node) :
  forall i poly m,
    polyline_loop G undirected i path poly m
    = (segs <- segments G undirected path ;;
       Ok (poly ++ appended i (map fst segs),
           fold_left Rplus (map snd segs) m)).
Proof.
  induction path as [|u rest IH]; intros i poly m.
  - simpl. destruct i; simpl; rewrite app_nil_r; reflexivity.
  - destruct rest as [|v rest'].
    + simpl. destruct i; simpl; rewrite app_nil_r; reflexivity.
    + change (polyline_loop G undirected i (u :: v :: rest') poly m)
        with ('(seg, L) <- segment G undirected u v ;;
              polyline_loop G undirected (S i) (v :: rest')
                (poly ++ drop_first i seg) (m + L)).
      change (segments G undirected (u :: v :: rest'))
        with (sl <- segment G undirected u v ;;
              more <- segments G undirected (v :: rest') ;;
              Ok (sl :: more)).
      destruct (segment G undirected u v) as [[seg L]|e]; [|reflexivity].
      cbn [rbind]. rewrite IH.
      destruct (segments G undirected (v :: rest')) as [more|e];
        [|reflexivity].
      cbn [rbind map fst snd fold_left]. rewrite <- app_assoc.
      destruct i; reflexivity.
Qed.

Lemma polyline_from_path_segments (path : list node) :
  polyline_from_path G path undirected
  = (segs <- segments G undirected path ;;
     Ok (stitch (map fst segs), fold_left Rplus (map snd segs) 0)).
Proof.
  unfold polyline_from_path. rewrite polyline_loop_segments. reflexivity.
Qed.

End Extraction.

(** C5, as the code has it.  The polyline is the coordinate sequence of
    the first edge followed by that of every later edge with its first
    coordinate dropped, and the meters are the sum of the edge lengths;
    when each sequence ends where the next one starts and has no two
    equal neighbours itself, neither has the polyline. *)
Theorem polyline_from_path_stitches_segments :
  forall (G : graph) (path_nodes : list node) (undirected : bool),
    polyline_from_path G path_nodes undirected
    = (segs <- segments G undirected path_nodes ;;
       Ok (stitch (map fst segs), fold_left Rplus (map snd segs) 0))%result
    /\ forall segs,
         segments G undirected path_nodes = Ok segs ->
         chained (map fst segs) -> Forall stutter_free (map fst segs) ->
         exists poly meters,
           polyline_from_path G path_nodes undirected = Ok (poly, meters)
           /\ poly = stitch (map fst segs) /\ stutter_free poly.
Proof.
  intros G path_nodes undirected.
  split; [apply polyline_from_path_segments|].
  intros segs Hs Hc Ha. rewrite polyline_from_path_segments, Hs.
  cbn [rbind].
  eexists; eexists. split; [reflexivity|]. split; [reflexivity|].
  apply stutter_free_stitch; assumption.
Qed.

Import PathExtractor.Graphs.

Lemma chain_segments d1 d2 d3 :
  segments (chain d1 d2 d3) false [1; 2; 3]%Z
  = Ok [([node_point d1; node_point d2], 100);
        ([node_point d2; node_point d3], 100)].
Proof. run_reals. decide_reals. reflexivity. Qed.

Lemma chain_pairs_connected d1 d2 d3 :
  pairs_connected (chain d1 d2 d3) [1; 2; 3]%Z.
Proof. simpl. auto. Qed.

Lemma apart (a b : R) : a <> b ->
  {| lat := a; lng := a |} <> {| lat := b; lng := b |}.
Proof. intros H E. injection E as E _. contradiction. Qed.

(** On the chain with nodes at (0,0), (1,1), (2,2) the two segments are
    chained and free of repetitions, and so is the polyline. *)
Lemma polyline_from_path_stitches_segments_witness :
  segments spread_chain false [1; 2; 3]%Z = Ok spread_segments /\
  chained (map fst spread_segments) /\
  Forall stutter_free (map fst spread_segments) /\
  exists poly meters,
    polyline_from_path spread_chain [1; 2; 3]%Z false = Ok (poly, meters)
    /\ poly = stitch (map fst spread_segments) /\ stutter_free poly.
Proof.
  pose (segs := spread_segments).
  assert (Hs : segments spread_chain false [1; 2; 3]%Z = Ok segs)
    by apply chain_segments.
  assert (Hc : chained (map fst segs)).
  { simpl. split; [|exact I].
    exists (node_point at_1_1), [node_point at_0_0], [node_point at_2_2].
    split; reflexivity. }
  assert (Ha : Forall stutter_free (map fst segs)).
  { constructor; [split; [apply (apart 0 1); lra | exact I]|].
    constructor; [split; [apply (apart 1 2); lra | exact I]|].
    constructor. }
  split; [exact Hs|]. split; [exact Hc|]. split; [exact Ha|].
  exact (proj2 (polyline_from_path_stitches_segments
                  spread_chain [1; 2; 3]%Z false) segs Hs Hc Ha).
Defined.

(** C5 fails as stated: on the chain 1 -> 2 -> 3 whose nodes 2 and 3 lie
    at one place, every consecutive pair is connected, the edge 2 -> 3
    contributes its sequence [(1,1); (1,1)] without the first coordinate,
    and the polyline repeats (1,1) at the join. *)
Lemma polyline_repeats_coordinate_at_join :
  pairs_connected stacked_chain [1; 2; 3]%Z /\
  segment stacked_chain false 1%Z 2%Z
    = Ok ([node_point at_0_0; node_point at_1_1], 100) /\
  segment stacked_chain false 2%Z 3%Z
    = Ok ([node_point at_1_1; node_point at_1_1], 100) /\
  polyline_from_path stacked_chain [1; 2; 3]%Z false
    = Ok ([node_point at_0_0; node_point at_1_1] ++ [node_point at_1_1],
          0 + 100 + 100) /\
  ~ stutter_free ([node_point at_0_0; node_point at_1_1]
                    ++ [node_point at_1_1]).
Proof.
  split; [apply chain_pairs_connected|].
  repeat split; try (run_reals; decide_reals; reflexivity).
  simpl. intros [_ [H _]]. apply H. reflexivity.
Qed.

(** *** Directed mode: where it raises and where it does not *)

Lemma has_edge_false G u v : has_edge G u v = false -> adj G u v = [].
Proof. unfold has_edge. destruct (adj G u v); [reflexivity | discriminate]. Qed.

(** A pair without an edge in either direction: no key, and the lookup
    of the edge raises; the undirected mode takes the straight segment
    instead. *)
Lemma directed_pair_without_edge_raises G u v :
  has_edge G u v = false -> has_edge G v u = false ->
  best_edge_key G u v = None
  /\ segment G false u v = Err (KeyError "edge")
  /\ segment G true u v
     = (seg <- straight G u v ;; L <- node_distance G u v ;; Ok (seg, L))%result.
Proof.
  intros Huv Hvu. unfold segment, best_edge_key, edge_coords, edge_attrs,
    edges_between.
  rewrite Huv, Hvu, (has_edge_false _ _ _ Huv). repeat split.
Qed.

(** Nodes 1 and 2 without an edge: directed mode raises, undirected
    mode draws the straight segment. *)
Example no_edge_extraction :
  polyline_from_path no_edge [1; 2]%Z false = Err (KeyError "edge") /\
  polyline_from_path no_edge [1; 2]%Z true
  = Ok ([node_point at_0_0; node_point at_1_1],
        0 + haversine (0, 0) (1, 1)).
Proof. split; reflexivity. Qed.

Lemma polyline_raises_at_first_pair G u v rest e :
  segment G false u v = Err e ->
  polyline_from_path G (u :: v :: rest) false = Err e.
Proof.
  intros H. unfold polyline_from_path.
  change (polyline_loop G false 0 (u :: v :: rest) [] 0)
    with ('(seg, L) <- segment G false u v ;;
          polyline_loop G false 1 (v :: rest) ([] ++ drop_first 0 seg) (0 + L))%result.
  rewrite H. reflexivity.
Qed.

(** C10, at the input where the code departs from it: the single edge
    1 -> 2 has a travel time of 1e20 s, the initial value of the search
    for the fastest edge; the pair is connected, yet [best_edge_key]
    finds no key and the extraction raises [KeyError]. *)
Theorem directed_extraction_raises_on_connected_pair :
  pairs_connected (single_edge 1e20) [1; 2]%Z /\
  has_edge (single_edge 1e20) 1%Z 2%Z = true /\
  best_edge_key (single_edge 1e20) 1%Z 2%Z = None /\
  polyline_from_path (single_edge 1e20) [1; 2]%Z false = Err (KeyError "None").
Proof.
  split; [simpl; auto|]. split; [reflexivity|].
  split; run_reals; decide_reals; reflexivity.
Qed.

Section DirectedTotal.

Local Open Scope result_scope.

Lemma assoc_in {A} k (l : list (Z * A)) :
  In k (map fst l) -> exists a, assoc k l = Some a.
Proof.
  induction l as [|[k' a] l IH]; simpl; [contradiction|].
  intros [->|H]; [rewrite Z.eqb_refl; eauto|].
  destruct (Z.eqb k k'); eauto.
Qed.

(** Once a key is held, the search ends with a key, the held one or
    one of the list. *)
Lemma best_step_keeps l :
  forall b k0, exists b' k,
    fold_left best_step l (b, Some k0) = (b', Some k)
    /\ (k = k0 \/ In k (map fst l)).
Proof.
  induction l as [|[k1 ed] l IH]; intros b k0; simpl.
  - eauto.
  - destruct (Rlt_dec (edge_time ed) b).
    + destruct (IH (edge_time ed) k1) as (b' & k & E & [->|H]); eauto 6.
    + destruct (IH b k0) as (b' & k & E & [->|H]); eauto 6.
Qed.

Variable G : graph.
Hypothesis fast : below_sentinel G.
Hypothesis nodes_placed : placed G.

Lemma best_edge_key_found u v :
  has_edge G u v = true ->
  exists k, best_edge_key G u v = Some k /\ In k (map fst (adj G u v)).
Proof.
  intros H. unfold best_edge_key. rewrite H. cbn [negb].
  pose proof (fast u v) as F. unfold has_edge in H.
  destruct (adj G u v) as [|[k1 ed] l]; [discriminate|].
  cbn [fold_left best_step].
  destruct (Rlt_dec (edge_time ed) 1e20) as [_|N].
  - destruct (best_step_keeps l (edge_time ed) k1) as (b' & k & E & Hk).
    rewrite E. exists k. split; [reflexivity|].
    destruct Hk as [->|Hk]; simpl; auto.
  - exfalso. apply N, (F k1). left. reflexivity.
Qed.

Lemma straight_ok u v :
  has_edge G u v = true -> exists seg, straight G u v = Ok seg.
Proof.
  intros H. destruct (nodes_placed u v H) as [Hu Hv].
  unfold straight, node_attrs.
  destruct (assoc u (nodes G)); [|contradiction].
  destruct (assoc v (nodes G)); [|contradiction].
  cbn [rbind]. eauto.
Qed.

Lemma edges_between_ok u v :
  has_edge G u v = true -> edges_between G u v = Ok (adj G u v).
Proof.
  unfold has_edge, edges_between.
  destruct (adj G u v); [discriminate | reflexivity].
Qed.

Lemma edge_coords_ok u v k :
  has_edge G u v = true -> In k (map fst (adj G u v)) ->
  exists seg, edge_coords G u v (Some k) = Ok seg.
Proof.
  intros H Hk. unfold edge_coords, edge_attrs.
  rewrite (edges_between_ok u v H). cbn [rbind].
  destruct (assoc_in k _ Hk) as [ed ->]. cbn [rbind].
  destruct (geometry ed) as [g|]; [|apply straight_ok; exact H].
  destruct (flatten_coords g) as [[|c cs]|]; eauto using straight_ok.
Qed.

Lemma edge_len_m_ok u v :
  has_edge G u v = true -> exists L, edge_len_m G u v = Ok L.
Proof.
  intros H. unfold edge_len_m. rewrite (edges_between_ok u v H).
  cbn [rbind]. destruct (lengths (adj G u v)); [|eauto].
  destruct (nodes_placed u v H) as [Hu Hv].
  unfold node_distance, node_attrs.
  destruct (assoc u (nodes G)); [|contradiction].
  destruct (assoc v (nodes G)); [|contradiction].
  cbn [rbind]. eauto.
Qed.

Lemma directed_segment_ok u v :
  has_edge G u v = true \/ has_edge G v u = true ->
  exists sl, segment G false u v = Ok sl.
Proof.
  intros H. unfold segment. cbn [negb].
  destruct (has_edge G u v) eqn:Huv.
  - destruct (best_edge_key_found u v Huv) as (k & -> & Hk).
    cbn [is_None andb].
    destruct (edge_coords_ok u v k Huv Hk) as [seg ->].
    destruct (edge_len_m_ok u v Huv) as [L ->]. cbn [rbind]. eauto.
  - destruct H as [H|Hvu]; [discriminate|].
    unfold best_edge_key at 1. rewrite Huv. cbn [negb is_None andb].
    rewrite Hvu.
    destruct (best_edge_key_found v u Hvu) as (k & -> & Hk).
    destruct (edge_coords_ok v u k Hvu Hk) as [seg ->].
    destruct (edge_len_m_ok v u Hvu) as [L ->]. cbn [rbind]. eauto.
Qed.

Lemma directed_segments_ok path :
  pairs_connected G path -> exists segs, segments G false path = Ok segs.
Proof.
  induction path as [|u rest IH]; [simpl; eauto|].
  destruct rest as [|v rest']; [simpl; eauto|].
  intros [Huv Hrest].
  change (segments G false (u :: v :: rest'))
    with (sl <- segment G false u v ;;
          more <- segments G false (v :: rest') ;;
          Ok (sl :: more)).
  destruct (directed_segment_ok u v Huv) as [sl ->].
  destruct (IH Hrest) as [more ->]. cbn [rbind]. eauto.
Qed.

End DirectedTotal.

(** In directed mode the extraction returns for every path whose
    consecutive pairs are connected in at least one direction, over a
    graph whose edges are all estimated below [1e20] s and have their
    end points among the nodes. *)
Lemma directed_extraction_total_below_sentinel G path_nodes :
  below_sentinel G -> placed G -> pairs_connected G path_nodes ->
  exists poly meters, polyline_from_path G path_nodes false = Ok (poly, meters).
Proof.
  intros F P C.
  destruct (directed_segments_ok G F P path_nodes C) as [segs Hs].
  rewrite polyline_from_path_segments, Hs. cbn [rbind]. eauto.
Qed.

(** The chain with nodes at three places meets these conditions. *)
Example spread_chain_extraction :
  below_sentinel spread_chain /\ placed spread_chain /\
  exists poly meters,
    polyline_from_path spread_chain [1; 2; 3]%Z false = Ok (poly, meters).
Proof.
  assert (F : below_sentinel spread_chain).
  { intros u v k ed. cbn [adj spread_chain chain].
    destruct (_ || _); [|contradiction].
    intros [[= _ <-]|[]]. run_reals. lra. }
  assert (P : placed spread_chain).
  { intros u v. unfold has_edge. cbn [adj nodes spread_chain chain].
    destruct (Z.eqb_spec u 1), (Z.eqb_spec v 2), (Z.eqb_spec u 2),
      (Z.eqb_spec v 3); subst; cbn; try discriminate;
      intros _; split; discriminate. }
  split; [exact F|]. split; [exact P|].
  apply directed_extraction_total_below_sentinel; auto.
  apply chain_pairs_connected.
Qed.

(** ** Runs: events and outcomes *)

Import Effects Orchestrator.

Section Runs.

Context {A B : Type}.

Lemma run_eta (m : M A) : m = (events m, outcome m).
Proof. destruct m; reflexivity. Qed.

Lemma bind_ok (m : M A) (f : A -> M B) a :
  outcome m = Ok a ->
  Effects.bind m f = (events m ++ events (f a), outcome (f a)).
Proof.
  destruct m as [t r]. simpl. intros ->. simpl.
  destruct (f a); reflexivity.
Qed.

Lemma bind_err (m : M A) (f : A -> M B) e :
  outcome m = Err e -> Effects.bind m f = (events m, Err e).
Proof. destruct m as [t r]. simpl. intros ->. reflexivity. Qed.

Lemma try_ok (m : M A) (h : exn -> M A) a :
  outcome m = Ok a -> try_except m h = (events m, Ok a).
Proof. destruct m as [t r]. simpl. intros ->. reflexivity. Qed.

Lemma try_err (m : M A) (h : exn -> M A) e :
  outcome m = Err e ->
  try_except m h = (events m ++ events (h e), outcome (h e)).
Proof.
  destruct m as [t r]. simpl. intros ->. simpl.
  destruct (h e); reflexivity.
Qed.

End Runs.

Section FreeOf.

Variable p : event -> bool.

Lemma free_of_ret {A} (a : A) : free_of p (ret a).
Proof. reflexivity. Qed.

Lemma free_of_lift {A} (r : result A) : free_of p (lift r).
Proof. reflexivity. Qed.

Lemma free_of_call {A} ev (r : result A) :
  p ev = false -> free_of p (call ev r).
Proof. unfold free_of. simpl. intros ->. reflexivity. Qed.

Lemma free_of_bind {A B} (m : M A) (f : A -> M B) :
  free_of p m -> (forall a, free_of p (f a)) -> free_of p (Effects.bind m f).
Proof.
  unfold free_of. intros Hm Hf. destruct m as [t [a|e]]; simpl in *.
  - specialize (Hf a). destruct (f a) as [t' r]. simpl in *.
    rewrite forallb_app, Hm, Hf. reflexivity.
  - exact Hm.
Qed.

Lemma free_of_try {A} (m : M A) (h : exn -> M A) :
  free_of p m -> (forall e, free_of p (h e)) -> free_of p (try_except m h).
Proof.
  unfold free_of. intros Hm Hh. destruct m as [t [a|e]]; simpl in *.
  - exact Hm.
  - specialize (Hh e). destruct (h e) as [t' r]. simpl in *.
    rewrite forallb_app, Hm, Hh. reflexivity.
Qed.

Lemma free_of_app {A B} (m : M A) (m' : M B) :
  free_of p m -> free_of p m' ->
  forallb (fun ev => negb (p ev)) (events m ++ events m') = true.
Proof. unfold free_of. intros H H'. rewrite forallb_app, H, H'. reflexivity. Qed.

End FreeOf.

Lemma attempted_app t t' : attempted (t ++ t') = attempted t ++ attempted t'.
Proof.
  induction t as [|ev t IH]; [reflexivity|].
  destruct ev; simpl; rewrite IH; reflexivity.
Qed.

Lemma attempted_free {A} (m : M A) :
  free_of is_local_attempt m -> attempted (events m) = [].
Proof.
  unfold free_of. induction (events m) as [|ev t IH]; [reflexivity|].
  destruct ev; simpl; try discriminate; exact IH.
Qed.

(** Closes a goal [free_of p m] by following the structure of [m]. *)
Ltac quiet :=
  repeat first
    [ apply free_of_ret
    | apply free_of_lift
    | apply free_of_call; reflexivity
    | apply free_of_bind; [|intros]
    | apply free_of_try; [|intros]
    | match goal with
      | |- free_of _ (match ?x with _ => _ end) => destruct x
      | |- free_of _ (if ?b then _ else _) => destruct b
      | |- free_of _ (let '(_, _) := ?x in _) => destruct x
      end ].

Section Steps.

Variable lib : Library.
Variable p : event -> bool.

Lemma route_via_osrm_free a b c d timeout :
  (forall x1 x2 x3 x4 x5, p (OsrmGet x1 x2 x3 x4 x5) = false) ->
  free_of p (route_via_osrm lib a b c d timeout).
Proof.
  intros H. unfold route_via_osrm.
  apply free_of_bind; [apply free_of_call, H|]. intros. quiet.
Qed.

Lemma remote_attempt_free a b c d engine :
  (forall x1 x2 x3 x4 x5, p (OsrmGet x1 x2 x3 x4 x5) = false) ->
  free_of p (remote_attempt lib a b c d engine).
Proof.
  intros H. unfold remote_attempt.
  destruct (tries_remote engine); [|apply free_of_ret].
  apply free_of_try; [apply route_via_osrm_free, H | intros; apply free_of_ret].
Qed.

Lemma build_corridor_free a b c d buf :
  (forall x1 x2 x3 x4, p (LoadTile x1 x2 x3 x4) = false) ->
  free_of p (build_corridor lib a b c d buf).
Proof.
  intros H. unfold build_corridor.
  destruct (deg_buffer_for_km _ _). apply free_of_call, H.
Qed.

Lemma nearest_node_fast_free G lat lng :
  (forall X Y, p (NearestNodes X Y) = false) ->
  free_of p (nearest_node_fast lib G lat lng).
Proof.
  intros H. unfold nearest_node_fast.
  apply free_of_try; [|intros; apply free_of_ret].
  apply free_of_bind; [apply free_of_call, H|]. intros. quiet.
Qed.

Lemma undirected_view_free G :
  p GetUndirected = false -> p ToUndirected = false ->
  free_of p (undirected_view lib G).
Proof.
  intros H1 H2. unfold undirected_view.
  apply free_of_try; [|intros]; apply free_of_call; assumption.
Qed.

(** [nearest_node_fast] always returns. *)
Lemma nearest_node_fast_returns G lat lng :
  exists s d, outcome (nearest_node_fast lib G lat lng) = Ok (s, d).
Proof.
  unfold nearest_node_fast.
  match goal with
  | |- context [try_except ?m ?h] =>
      destruct (outcome m) as [[s d]|e] eqn:E;
      [rewrite (try_ok m h _ E) | rewrite (try_err m h _ E)]
  end; simpl; eauto.
  destruct (fold_left _ _ _); eauto.
Qed.

End Steps.

(** Decides the comparisons of real constants of a goal, innermost
    first. *)
Ltac settle_reals :=
  repeat match goal with
         | |- context [Rlt_dec ?a ?b] =>
             first
               [ let H := fresh in
                 assert (H : a < b) by lra;
                 destruct (Rlt_dec a b); [clear H | contradiction]
               | let H := fresh in
                 assert (H : ~ a < b) by lra;
                 destruct (Rlt_dec a b); [contradiction | clear H] ]
         end.

Ltac run_route :=
  cbv -[Rlt_dec IZR Rplus Rmult Rdiv Rinv Rminus Ropp haversine
        PI sin cos asin sqrt].

Import Orchestrator.Worlds PathExtractor.Graphs.

Section RunSteps.

Context {A B : Type}.

Lemma outcome_bind_ok (m : M A) (f : A -> M B) a :
  outcome m = Ok a -> outcome (Effects.bind m f) = outcome (f a).
Proof. intros H. rewrite (bind_ok m f a H). reflexivity. Qed.

Lemma events_bind_ok (m : M A) (f : A -> M B) a :
  outcome m = Ok a ->
  events (Effects.bind m f) = events m ++ events (f a).
Proof. intros H. rewrite (bind_ok m f a H). reflexivity. Qed.

Lemma outcome_bind_err (m : M A) (f : A -> M B) e :
  outcome m = Err e -> outcome (Effects.bind m f) = Err e.
Proof. intros H. rewrite (bind_err m f e H). reflexivity. Qed.

Lemma events_bind_err (m : M A) (f : A -> M B) e :
  outcome m = Err e -> events (Effects.bind m f) = events m.
Proof. intros H. rewrite (bind_err m f e H). reflexivity. Qed.

Lemma free_of_bind_ok p (m : M A) (f : A -> M B) a :
  outcome m = Ok a -> free_of p m -> free_of p (f a) ->
  free_of p (Effects.bind m f).
Proof.
  intros H Hm Hf. unfold free_of. rewrite (events_bind_ok m f a H).
  apply free_of_app; assumption.
Qed.

End RunSteps.

(** ** The local attempt *)

Section LocalAttempt.

Variable lib : Library.
Variables start_lat start_lng end_lat end_lng : R.

(** A local attempt records itself, once. *)
Lemma route_via_osmnx_attempted buf :
  attempted
    (events (route_via_osmnx lib start_lat start_lng end_lat end_lng buf))
  = [buf].
Proof.
  unfold route_via_osmnx.
  rewrite (events_bind_ok (call (LocalAttempt buf) (Ok tt)) _ tt eq_refl).
  cbn [call events fst app attempted].
  f_equal. apply attempted_free.
  unfold build_corridor, nearest_node_fast, undirected_view, weighted_path.
  quiet.
Qed.

End LocalAttempt.

(** C7. When the nodes nearest to the start and to the end are not
    connected in the undirected view of the corridor graph, the local
    attempt returns no result, and its run contains no shortest-path
    search, weighted or not. *)
Theorem disconnected_attempt_fails_before_any_search :
  forall (lib : Library) (start_lat start_lng end_lat end_lng buffer_km : R)
         (G UG : graph) (s t : option node) (sd td : R),
    outcome (build_corridor lib start_lat start_lng end_lat end_lng buffer_km)
      = Ok G ->
    outcome (nearest_node_fast lib G start_lat start_lng) = Ok (s, sd) ->
    outcome (nearest_node_fast lib G end_lat end_lng) = Ok (t, td) ->
    outcome (undirected_view lib G) = Ok UG ->
    has_path lib UG s t = Ok false ->
    outcome (route_via_osmnx lib start_lat start_lng end_lat end_lng buffer_km)
      = Ok None
    /\ free_of is_search
         (route_via_osmnx lib start_lat start_lng end_lat end_lng buffer_km).
Proof.
  intros lib start_lat start_lng end_lat end_lng buffer_km G UG s t sd td
    HG Hs Ht HU Hp.
  unfold route_via_osmnx. split.
  - rewrite (outcome_bind_ok (call (LocalAttempt buffer_km) (Ok tt)) _ tt
               eq_refl).
    rewrite (outcome_bind_ok _ _ G HG).
    rewrite (outcome_bind_ok _ _ (s, sd) Hs).
    rewrite (outcome_bind_ok _ _ (t, td) Ht).
    rewrite (outcome_bind_ok _ _ UG HU).
    rewrite (outcome_bind_ok (call (HasPath s t) (has_path lib UG s t)) _
               false Hp).
    reflexivity.
  - apply (free_of_bind_ok _ (call (LocalAttempt buffer_km) (Ok tt)) _ tt
             eq_refl);
      [apply free_of_call; reflexivity|].
    apply (free_of_bind_ok _ _ _ G HG);
      [apply build_corridor_free; reflexivity|].
    apply (free_of_bind_ok _ _ _ (s, sd) Hs);
      [apply nearest_node_fast_free; reflexivity|].
    apply (free_of_bind_ok _ _ _ (t, td) Ht);
      [apply nearest_node_fast_free; reflexivity|].
    apply (free_of_bind_ok _ _ _ UG HU);
      [apply undirected_view_free; reflexivity|].
    apply (free_of_bind_ok _ (call (HasPath s t) (has_path lib UG s t)) _
             false Hp);
      [apply free_of_call; reflexivity|].
    apply free_of_ret.
Qed.

(** In the corridor of 10 km around the trip from (32.781, -96.798) to
    (32.790, -96.810) the library [connects_beyond 32.9] has the three
    islands: nodes 1 and 3 are nearest and not connected. *)
Lemma disconnected_attempt_witness :
  outcome (build_corridor (connects_beyond 329e-1)
             32781e-3 (-96798e-3) 32790e-3 (-96810e-3) 10) = Ok islands /\
  outcome (nearest_node_fast (connects_beyond 329e-1) islands
             32781e-3 (-96798e-3))
    = Ok (Some 1%Z, haversine (32781e-3, -96798e-3) (0, 0)) /\
  outcome (nearest_node_fast (connects_beyond 329e-1) islands
             32790e-3 (-96810e-3))
    = Ok (Some 3%Z, haversine (32790e-3, -96810e-3) (2, 2)) /\
  outcome (undirected_view (connects_beyond 329e-1) islands) = Ok islands /\
  has_path (connects_beyond 329e-1) islands (Some 1%Z) (Some 3%Z) = Ok false /\
  outcome (route_via_osmnx (connects_beyond 329e-1)
             32781e-3 (-96798e-3) 32790e-3 (-96810e-3) 10) = Ok None /\
  free_of is_search
    (route_via_osmnx (connects_beyond 329e-1)
       32781e-3 (-96798e-3) 32790e-3 (-96810e-3) 10).
Proof.
  assert (HG : outcome (build_corridor (connects_beyond 329e-1)
                 32781e-3 (-96798e-3) 32790e-3 (-96810e-3) 10) = Ok islands)
    by (run_route; settle_reals; reflexivity).
  assert (Hs : outcome (nearest_node_fast (connects_beyond 329e-1) islands
                 32781e-3 (-96798e-3))
               = Ok (Some 1%Z, haversine (32781e-3, -96798e-3) (0, 0)))
    by (run_route; settle_reals; reflexivity).
  assert (Ht : outcome (nearest_node_fast (connects_beyond 329e-1) islands
                 32790e-3 (-96810e-3))
               = Ok (Some 3%Z, haversine (32790e-3, -96810e-3) (2, 2)))
    by (run_route; settle_reals; reflexivity).
  assert (HU : outcome (undirected_view (connects_beyond 329e-1) islands)
               = Ok islands) by reflexivity.
  assert (Hp : has_path (connects_beyond 329e-1) islands (Some 1%Z) (Some 3%Z)
               = Ok false) by reflexivity.
  repeat (split; [assumption|]).
  exact (disconnected_attempt_fails_before_any_search _ _ _ _ _ _ _ _ _ _ _ _
           HG Hs Ht HU Hp).
Defined.

(** ** The orchestrator *)

Section Route.

Variable lib : Library.
Variables start_lat start_lng end_lat end_lng : R.

#[local] Abbreviation attempt b :=
  (route_via_osmnx lib start_lat start_lng end_lat end_lng b).
#[local] Abbreviation loop buf mults :=
  (local_attempts lib start_lat start_lng end_lat end_lng buf mults).

Lemma local_attempts_found buf mult rest r :
  outcome (attempt (py_min 60 (buf * mult))) = Ok (Some r) ->
  outcome (loop buf (mult :: rest)) = Ok (Some r)
  /\ attempted (events (loop buf (mult :: rest))) = [py_min 60 (buf * mult)].
Proof.
  intros H. cbn [local_attempts]. split.
  - rewrite (outcome_bind_ok _ _ _ H). reflexivity.
  - rewrite (events_bind_ok _ _ _ H), attempted_app,
      route_via_osmnx_attempted. reflexivity.
Qed.

Lemma local_attempts_next buf mult rest :
  outcome (attempt (py_min 60 (buf * mult))) = Ok None ->
  outcome (loop buf (mult :: rest)) = outcome (loop buf rest)
  /\ attempted (events (loop buf (mult :: rest)))
     = py_min 60 (buf * mult) :: attempted (events (loop buf rest)).
Proof.
  intros H. cbn [local_attempts]. split.
  - rewrite (outcome_bind_ok _ _ _ H). reflexivity.
  - rewrite (events_bind_ok _ _ _ H), attempted_app,
      route_via_osmnx_attempted. reflexivity.
Qed.

Lemma local_attempts_raised buf mult rest e :
  outcome (attempt (py_min 60 (buf * mult))) = Err e ->
  outcome (loop buf (mult :: rest)) = Err e
  /\ attempted (events (loop buf (mult :: rest))) = [py_min 60 (buf * mult)].
Proof.
  intros H. cbn [local_attempts]. split.
  - rewrite (outcome_bind_err _ _ _ H). reflexivity.
  - rewrite (events_bind_err _ _ _ H), route_via_osmnx_attempted.
    reflexivity.
Qed.

Variable buffer_km : option R.
Variable engine : string.

#[local] Abbreviation buf := (base_buffer start_lat start_lng end_lat end_lng buffer_km).
#[local] Abbreviation remote :=
  (remote_attempt lib start_lat start_lng end_lat end_lng engine).
#[local] Abbreviation body :=
  (route_body lib start_lat start_lng end_lat end_lng buffer_km engine).
#[local] Abbreviation run :=
  (route lib start_lat start_lng end_lat end_lng buffer_km engine).

Lemma remote_exhausted_none :
  remote_exhausted lib start_lat start_lng end_lat end_lng engine ->
  outcome remote = Ok None.
Proof.
  unfold remote_attempt. intros [H|[H|[e H]]].
  - rewrite H. reflexivity.
  - destruct (tries_remote engine); [|reflexivity].
    rewrite (try_ok _ _ _ H). reflexivity.
  - destruct (tries_remote engine); [|reflexivity].
    rewrite (try_err _ _ _ H). reflexivity.
Qed.

Lemma remote_attempted : attempted (events remote) = [].
Proof. apply attempted_free, remote_attempt_free. reflexivity. Qed.

(** What [route] returns for an outcome of its body. *)
Lemma route_of_body :
  outcome run
  = match outcome body with
    | Ok r => Ok r
    | Err e => Ok (server_error e)
    end
  /\ events run = events body.
Proof.
  unfold route. destruct body as [t [r|e]]; simpl; [auto|].
  rewrite app_nil_r. auto.
Qed.

(** After an exhausted remote attempt the body is the local loop. *)
Lemma body_of_loop :
  outcome remote = Ok None ->
  outcome body
  = match outcome (loop buf multipliers) with
    | Ok (Some r) => Ok r
    | Ok None => Ok no_path
    | Err e => Err e
    end
  /\ attempted (events body) = attempted (events (loop buf multipliers)).
Proof.
  intros H. unfold route_body. fold buf. split.
  - rewrite (outcome_bind_ok _ _ _ H).
    destruct (outcome (loop buf multipliers)) as [[r|]|e] eqn:E.
    + rewrite (outcome_bind_ok _ _ _ E). reflexivity.
    + rewrite (outcome_bind_ok _ _ _ E). reflexivity.
    + rewrite (outcome_bind_err _ _ _ E). reflexivity.
  - rewrite (events_bind_ok _ _ _ H), attempted_app, remote_attempted.
    cbn [app].
    destruct (outcome (loop buf multipliers)) as [[r|]|e] eqn:E.
    + rewrite (events_bind_ok _ _ _ E). cbn. rewrite app_nil_r. reflexivity.
    + rewrite (events_bind_ok _ _ _ E). cbn. rewrite app_nil_r. reflexivity.
    + rewrite (events_bind_err _ _ _ E). reflexivity.
Qed.

(** A remote route is returned as it is, after the one remote call. *)
Lemma remote_route_returned_verbatim r :
  tries_remote engine = true ->
  outcome (route_via_osrm lib start_lat start_lng end_lat end_lng 8)
    = Ok (Some r) ->
  outcome run = Ok r /\ attempted (events run) = [].
Proof.
  intros He H.
  assert (Hr : outcome remote = Ok (Some r)).
  { unfold remote_attempt. rewrite He, (try_ok _ _ _ H). reflexivity. }
  destruct route_of_body as [Ho He'].
  rewrite Ho, He'. unfold route_body.
  rewrite (outcome_bind_ok _ _ _ Hr), (events_bind_ok _ _ _ Hr).
  split; [reflexivity|].
  rewrite attempted_app, remote_attempted. reflexivity.
Qed.

End Route.

Lemma py_min_60_cap x : py_min 60 x = Rmin 60 x /\ py_min 60 x <= 60.
Proof.
  split; [apply py_min_Rmin|]. rewrite py_min_Rmin. apply Rmin_l.
Qed.

(** C6. After an exhausted remote attempt the orchestrator attempts the
    local route with the buffers base x 1.0, base x 1.6 and base x 2.3,
    each capped at 60 km, in this order, and returns the result of the
    first attempt that has one without attempting the later ones. *)
Theorem local_attempts_escalate_in_order :
  forall (lib : Library) (start_lat start_lng end_lat end_lng : R)
         (buffer_km : option R) (engine : string),
    remote_exhausted lib start_lat start_lng end_lat end_lng engine ->
    let base := base_buffer start_lat start_lng end_lat end_lng buffer_km in
    let b1 := py_min 60 (base * 1) in
    let b2 := py_min 60 (base * (16 / 10)) in
    let b3 := py_min 60 (base * (23 / 10)) in
    let attempt b :=
      outcome (route_via_osmnx lib start_lat start_lng end_lat end_lng b) in
    let run := route lib start_lat start_lng end_lat end_lng buffer_km engine in
    (b1 = Rmin 60 (base * 1) /\ b2 = Rmin 60 (base * (16 / 10)) /\
     b3 = Rmin 60 (base * (23 / 10)) /\ b1 <= 60 /\ b2 <= 60 /\ b3 <= 60) /\
    (forall r, attempt b1 = Ok (Some r) ->
       outcome run = Ok r /\ attempted (events run) = [b1]) /\
    (forall r, attempt b1 = Ok None -> attempt b2 = Ok (Some r) ->
       outcome run = Ok r /\ attempted (events run) = [b1; b2]) /\
    (forall r, attempt b1 = Ok None -> attempt b2 = Ok None ->
       attempt b3 = Ok (Some r) ->
       outcome run = Ok r /\ attempted (events run) = [b1; b2; b3]) /\
    (attempt b1 = Ok None -> attempt b2 = Ok None -> attempt b3 = Ok None ->
       attempted (events run) = [b1; b2; b3]).
Proof.
  intros lib start_lat start_lng end_lat end_lng buffer_km engine Hx
    base b1 b2 b3 attempt run.
  apply remote_exhausted_none in Hx.
  destruct (route_of_body lib start_lat start_lng end_lat end_lng
              buffer_km engine) as [Ho He].
  destruct (body_of_loop lib start_lat start_lng end_lat end_lng
              buffer_km engine Hx) as [Bo Be].
  fold base in Bo, Be. fold run in Ho, He. unfold multipliers in Bo, Be.
  split.
  { pose proof (py_min_60_cap (base * 1)).
    pose proof (py_min_60_cap (base * (16 / 10))).
    pose proof (py_min_60_cap (base * (23 / 10))).
    subst b1 b2 b3. tauto. }
  rewrite Ho, He, Bo, Be. clear Ho He Bo Be.
  split; [|split; [|split]].
  - intros r H1.
    destruct (local_attempts_found lib _ _ _ _ base 1 [16 / 10; 23 / 10]
                r H1) as [-> ->].
    auto.
  - intros r H1 H2.
    destruct (local_attempts_next lib _ _ _ _ base 1
                [16 / 10; 23 / 10] H1) as [-> ->].
    destruct (local_attempts_found lib _ _ _ _ base (16 / 10) [23 / 10] r H2)
      as [-> ->].
    auto.
  - intros r H1 H2 H3.
    destruct (local_attempts_next lib _ _ _ _ base 1
                [16 / 10; 23 / 10] H1) as [-> ->].
    destruct (local_attempts_next lib _ _ _ _ base (16 / 10)
                [23 / 10] H2) as [-> ->].
    destruct (local_attempts_found lib _ _ _ _ base (23 / 10) [] r H3)
      as [-> ->].
    auto.
  - intros H1 H2 H3.
    destruct (local_attempts_next lib _ _ _ _ base 1
                [16 / 10; 23 / 10] H1) as [_ ->].
    destruct (local_attempts_next lib _ _ _ _ base (16 / 10)
                [23 / 10] H2) as [_ ->].
    destruct (local_attempts_next lib _ _ _ _ base (23 / 10) [] H3)
      as [_ ->].
    reflexivity.
Qed.

(** C3. When the remote attempt is exhausted and the three local
    attempts return no result, [route] returns the result with an empty
    polyline, no meters, no seconds and the error "no_path". *)
Theorem exhausted_route_is_no_path :
  forall (lib : Library) (start_lat start_lng end_lat end_lng : R)
         (buffer_km : option R) (engine : string),
    remote_exhausted lib start_lat start_lng end_lat end_lng engine ->
    (forall mult, In mult multipliers ->
       outcome (route_via_osmnx lib start_lat start_lng end_lat end_lng
                  (py_min 60
                     (base_buffer start_lat start_lng end_lat end_lng buffer_km
                      * mult)))
       = Ok None) ->
    outcome (route lib start_lat start_lng end_lat end_lng buffer_km engine)
    = Ok {| polyline := []; meters := None; seconds := None;
            error := Some "no_path"%string; detail := None |}.
Proof.
  intros lib start_lat start_lng end_lat end_lng buffer_km engine Hx Hall.
  apply remote_exhausted_none in Hx.
  destruct (route_of_body lib start_lat start_lng end_lat end_lng
              buffer_km engine) as [-> _].
  destruct (body_of_loop lib start_lat start_lng end_lat end_lng
              buffer_km engine Hx) as [-> _].
  unfold multipliers in *.
  destruct (local_attempts_next lib _ _ _ _ _ 1 [16 / 10; 23 / 10]
              (Hall 1 (or_introl eq_refl))) as [-> _].
  destruct (local_attempts_next lib _ _ _ _ _ (16 / 10) [23 / 10]
              (Hall (16 / 10) (or_intror (or_introl eq_refl)))) as [-> _].
  destruct (local_attempts_next lib _ _ _ _ _ (23 / 10) []
              (Hall (23 / 10) (or_intror (or_intror (or_introl eq_refl)))))
    as [-> _].
  reflexivity.
Qed.

(** C4. [route] returns a result in every case; an exception that
    leaves its body becomes the result with an empty polyline, no
    meters, no seconds, the error "server_error" and the text of the
    exception as detail; so does, after an exhausted remote attempt, an
    exception raised by the first local attempt. *)
Theorem route_never_raises :
  forall (lib : Library) (start_lat start_lng end_lat end_lng : R)
         (buffer_km : option R) (engine : string),
    (exists r,
       outcome (route lib start_lat start_lng end_lat end_lng buffer_km engine)
       = Ok r) /\
    (forall e,
       outcome (route_body lib start_lat start_lng end_lat end_lng
                  buffer_km engine) = Err e ->
       outcome (route lib start_lat start_lng end_lat end_lng buffer_km engine)
       = Ok {| polyline := []; meters := None; seconds := None;
               error := Some "server_error"%string;
               detail := Some (str e) |}) /\
    (forall e,
       remote_exhausted lib start_lat start_lng end_lat end_lng engine ->
       outcome (route_via_osmnx lib start_lat start_lng end_lat end_lng
                  (py_min 60
                     (base_buffer start_lat start_lng end_lat end_lng buffer_km
                      * 1)))
       = Err e ->
       outcome (route lib start_lat start_lng end_lat end_lng buffer_km engine)
       = Ok {| polyline := []; meters := None; seconds := None;
               error := Some "server_error"%string;
               detail := Some (str e) |}).
Proof.
  intros lib start_lat start_lng end_lat end_lng buffer_km engine.
  destruct (route_of_body lib start_lat start_lng end_lat end_lng
              buffer_km engine) as [Ho _].
  split; [|split].
  - rewrite Ho. destruct (outcome (route_body _ _ _ _ _ _ _)); eauto.
  - intros e H. rewrite Ho, H. reflexivity.
  - intros e Hx H. apply remote_exhausted_none in Hx.
    destruct (body_of_loop lib start_lat start_lng end_lat end_lng
                buffer_km engine Hx) as [Bo _].
    rewrite Ho, Bo. unfold multipliers.
    destruct (local_attempts_raised lib _ _ _ _ _ 1 [16 / 10; 23 / 10] e H)
      as [-> _].
    reflexivity.
Qed.

(** *** The scenario of the specification: from (32.781, -96.798) to
    (32.790, -96.810) with a buffer of 10 km *)

Ltac evaluate := run_route; settle_reals; reflexivity.

Lemma scenario_remote_exhausted limit :
  remote_exhausted (connects_beyond limit)
    32781e-3 (-96798e-3) 32790e-3 (-96810e-3) "auto".
Proof. right. left. reflexivity. Qed.

(** With the corridors connected from the north bounds 32, 32.9 and
    32.95 on, the first, the second and the third attempt is the one
    that succeeds; with 40, none is. *)
Lemma local_attempts_escalate_witness :
  (outcome (route_via_osmnx (connects_beyond 32)
              32781e-3 (-96798e-3) 32790e-3 (-96810e-3) (py_min 60 (10 * 1)))
   = Ok (Some chain_route) /\
   outcome (route (connects_beyond 32)
              32781e-3 (-96798e-3) 32790e-3 (-96810e-3) (Some 10) "auto")
   = Ok chain_route /\
   attempted (events (route (connects_beyond 32)
              32781e-3 (-96798e-3) 32790e-3 (-96810e-3) (Some 10) "auto"))
   = [py_min 60 (10 * 1)]) /\
  (outcome (route_via_osmnx (connects_beyond 329e-1)
              32781e-3 (-96798e-3) 32790e-3 (-96810e-3) (py_min 60 (10 * 1)))
   = Ok None /\
   outcome (route_via_osmnx (connects_beyond 329e-1)
              32781e-3 (-96798e-3) 32790e-3 (-96810e-3)
              (py_min 60 (10 * (16 / 10))))
   = Ok (Some chain_route) /\
   outcome (route (connects_beyond 329e-1)
              32781e-3 (-96798e-3) 32790e-3 (-96810e-3) (Some 10) "auto")
   = Ok chain_route /\
   attempted (events (route (connects_beyond 329e-1)
              32781e-3 (-96798e-3) 32790e-3 (-96810e-3) (Some 10) "auto"))
   = [py_min 60 (10 * 1); py_min 60 (10 * (16 / 10))]) /\
  (outcome (route_via_osmnx (connects_beyond 3295e-2)
              32781e-3 (-96798e-3) 32790e-3 (-96810e-3) (py_min 60 (10 * 1)))
   = Ok None /\
   outcome (route_via_osmnx (connects_beyond 3295e-2)
              32781e-3 (-96798e-3) 32790e-3 (-96810e-3)
              (py_min 60 (10 * (16 / 10))))
   = Ok None /\
   outcome (route_via_osmnx (connects_beyond 3295e-2)
              32781e-3 (-96798e-3) 32790e-3 (-96810e-3)
              (py_min 60 (10 * (23 / 10))))
   = Ok (Some chain_route) /\
   outcome (route (connects_beyond 3295e-2)
              32781e-3 (-96798e-3) 32790e-3 (-96810e-3) (Some 10) "auto")
   = Ok chain_route /\
   attempted (events (route (connects_beyond 3295e-2)
              32781e-3 (-96798e-3) 32790e-3 (-96810e-3) (Some 10) "auto"))
   = [py_min 60 (10 * 1); py_min 60 (10 * (16 / 10));
      py_min 60 (10 * (23 / 10))]) /\
  (outcome (route_via_osmnx (connects_beyond 40)
              32781e-3 (-96798e-3) 32790e-3 (-96810e-3) (py_min 60 (10 * 1)))
   = Ok None /\
   outcome (route_via_osmnx (connects_beyond 40)
              32781e-3 (-96798e-3) 32790e-3 (-96810e-3)
              (py_min 60 (10 * (16 / 10))))
   = Ok None /\
   outcome (route_via_osmnx (connects_beyond 40)
              32781e-3 (-96798e-3) 32790e-3 (-96810e-3)
              (py_min 60 (10 * (23 / 10))))
   = Ok None /\
   attempted (events (route (connects_beyond 40)
              32781e-3 (-96798e-3) 32790e-3 (-96810e-3) (Some 10) "auto"))
   = [py_min 60 (10 * 1); py_min 60 (10 * (16 / 10));
      py_min 60 (10 * (23 / 10))]).
Proof.
  pose proof (fun limit =>
    proj2 (local_attempts_escalate_in_order (connects_beyond limit)
             32781e-3 (-96798e-3) 32790e-3 (-96810e-3) (Some 10) "auto"
             (scenario_remote_exhausted limit))) as T.
  cbv zeta in T. cbn [base_buffer] in T.
  split; [|split; [|split]].
  - assert (H1 : outcome (route_via_osmnx (connects_beyond 32)
              32781e-3 (-96798e-3) 32790e-3 (-96810e-3) (py_min 60 (10 * 1)))
            = Ok (Some chain_route)) by evaluate.
    split; [exact H1|]. exact (proj1 (T 32) chain_route H1).
  - assert (H1 : outcome (route_via_osmnx (connects_beyond 329e-1)
              32781e-3 (-96798e-3) 32790e-3 (-96810e-3) (py_min 60 (10 * 1)))
            = Ok None) by evaluate.
    assert (H2 : outcome (route_via_osmnx (connects_beyond 329e-1)
              32781e-3 (-96798e-3) 32790e-3 (-96810e-3)
              (py_min 60 (10 * (16 / 10))))
            = Ok (Some chain_route)) by evaluate.
    split; [exact H1|]. split; [exact H2|].
    exact (proj1 (proj2 (T 329e-1)) chain_route H1 H2).
  - assert (H1 : outcome (route_via_osmnx (connects_beyond 3295e-2)
              32781e-3 (-96798e-3) 32790e-3 (-96810e-3) (py_min 60 (10 * 1)))
            = Ok None) by evaluate.
    assert (H2 : outcome (route_via_osmnx (connects_beyond 3295e-2)
              32781e-3 (-96798e-3) 32790e-3 (-96810e-3)
              (py_min 60 (10 * (16 / 10))))
            = Ok None) by evaluate.
    assert (H3 : outcome (route_via_osmnx (connects_beyond 3295e-2)
              32781e-3 (-96798e-3) 32790e-3 (-96810e-3)
              (py_min 60 (10 * (23 / 10))))
            = Ok (Some chain_route)) by evaluate.
    split; [exact H1|]. split; [exact H2|]. split; [exact H3|].
    exact (proj1 (proj2 (proj2 (T 3295e-2))) chain_route H1 H2 H3).
  - assert (H1 : outcome (route_via_osmnx (connects_beyond 40)
              32781e-3 (-96798e-3) 32790e-3 (-96810e-3) (py_min 60 (10 * 1)))
            = Ok None) by evaluate.
    assert (H2 : outcome (route_via_osmnx (connects_beyond 40)
              32781e-3 (-96798e-3) 32790e-3 (-96810e-3)
              (py_min 60 (10 * (16 / 10))))
            = Ok None) by evaluate.
    assert (H3 : outcome (route_via_osmnx (connects_beyond 40)
              32781e-3 (-96798e-3) 32790e-3 (-96810e-3)
              (py_min 60 (10 * (23 / 10))))
            = Ok None) by evaluate.
    split; [exact H1|]. split; [exact H2|]. split; [exact H3|].
    exact (proj2 (proj2 (proj2 (T 40))) H1 H2 H3).
Defined.

(** With the corridors never connected, the remote service without a
    route and a buffer of 10 km, the three local attempts return no
    result and [route] answers "no_path". *)
Lemma exhausted_route_witness :
  remote_exhausted (connects_beyond 40)
    32781e-3 (-96798e-3) 32790e-3 (-96810e-3) "auto" /\
  (forall mult, In mult multipliers ->
     outcome (route_via_osmnx (connects_beyond 40)
                32781e-3 (-96798e-3) 32790e-3 (-96810e-3)
                (py_min 60
                   (base_buffer 32781e-3 (-96798e-3) 32790e-3 (-96810e-3)
                      (Some 10) * mult)))
     = Ok None) /\
  outcome (route (connects_beyond 40)
             32781e-3 (-96798e-3) 32790e-3 (-96810e-3) (Some 10) "auto")
  = Ok {| polyline := []; meters := None; seconds := None;
          error := Some "no_path"%string; detail := None |}.
Proof.
  assert (Hall : forall mult, In mult multipliers ->
     outcome (route_via_osmnx (connects_beyond 40)
                32781e-3 (-96798e-3) 32790e-3 (-96810e-3)
                (py_min 60
                   (base_buffer 32781e-3 (-96798e-3) 32790e-3 (-96810e-3)
                      (Some 10) * mult)))
     = Ok None).
  { intros mult [<-|[<-|[<-|[]]]]; evaluate. }
  split; [apply scenario_remote_exhausted|]. split; [exact Hall|].
  exact (exhausted_route_is_no_path (connects_beyond 40)
           32781e-3 (-96798e-3) 32790e-3 (-96810e-3) (Some 10) "auto"
           (scenario_remote_exhausted 40) Hall).
Defined.

(** With a download that raises, the first local attempt raises, the
    exception leaves the body of [route], and [route] answers
    "server_error" with the text of the exception. *)
Lemma route_never_raises_witness :
  remote_exhausted download_fails
    32781e-3 (-96798e-3) 32790e-3 (-96810e-3) "auto" /\
  outcome (route_via_osmnx download_fails
             32781e-3 (-96798e-3) 32790e-3 (-96810e-3)
             (py_min 60
                (base_buffer 32781e-3 (-96798e-3) 32790e-3 (-96810e-3)
                   (Some 10) * 1)))
  = Err (Raised "overpass") /\
  outcome (route_body download_fails
             32781e-3 (-96798e-3) 32790e-3 (-96810e-3) (Some 10) "auto")
  = Err (Raised "overpass") /\
  outcome (route download_fails
             32781e-3 (-96798e-3) 32790e-3 (-96810e-3) (Some 10) "auto")
  = Ok {| polyline := []; meters := None; seconds := None;
          error := Some "server_error"%string;
          detail := Some "overpass"%string |}.
Proof.
  assert (Hx : remote_exhausted download_fails
                 32781e-3 (-96798e-3) 32790e-3 (-96810e-3) "auto")
    by (right; left; reflexivity).
  assert (H1 : outcome (route_via_osmnx download_fails
             32781e-3 (-96798e-3) 32790e-3 (-96810e-3)
             (py_min 60
                (base_buffer 32781e-3 (-96798e-3) 32790e-3 (-96810e-3)
                   (Some 10) * 1)))
           = Err (Raised "overpass")) by evaluate.
  assert (Hb : outcome (route_body download_fails
             32781e-3 (-96798e-3) 32790e-3 (-96810e-3) (Some 10) "auto")
           = Err (Raised "overpass")) by evaluate.
  split; [exact Hx|]. split; [exact H1|]. split; [exact Hb|].
  destruct (route_never_raises download_fails
              32781e-3 (-96798e-3) 32790e-3 (-96810e-3) (Some 10) "auto")
    as (_ & Hbody & Hlocal).
  pose proof (Hlocal (Raised "overpass") Hx H1) as E1.
  pose proof (Hbody (Raised "overpass") Hb) as E2.
  exact E2.
Defined.

(** C1, at the input where the code departs from it: the engine is
    "osrm", the remote service answers without a route, and the result
    is the route of the local graph, found by a local attempt. *)
Theorem osrm_engine_falls_back_to_local_graph :
  tries_remote "osrm" = true /\
  outcome (route_via_osrm local_only
             32781e-3 (-96798e-3) 32790e-3 (-96810e-3) 8) = Ok None /\
  outcome (route local_only
             32781e-3 (-96798e-3) 32790e-3 (-96810e-3) (Some 10) "osrm")
  = Ok chain_route /\
  attempted (events (route local_only
             32781e-3 (-96798e-3) 32790e-3 (-96810e-3) (Some 10) "osrm"))
  = [py_min 60 (10 * 1)].
Proof.
  split; [reflexivity|]. split; [reflexivity|].
  assert (Hx : remote_exhausted local_only
                 32781e-3 (-96798e-3) 32790e-3 (-96810e-3) "osrm")
    by (right; left; reflexivity).
  apply remote_exhausted_none in Hx.
  assert (H1 : outcome (route_via_osmnx local_only
                 32781e-3 (-96798e-3) 32790e-3 (-96810e-3)
                 (py_min 60 (10 * 1)))
               = Ok (Some chain_route)) by evaluate.
  destruct (route_of_body local_only 32781e-3 (-96798e-3) 32790e-3
              (-96810e-3) (Some 10) "osrm") as [-> ->].
  destruct (body_of_loop local_only 32781e-3 (-96798e-3) 32790e-3
              (-96810e-3) (Some 10) "osrm" Hx) as [-> ->].
  cbn [base_buffer]. unfold multipliers.
  destruct (local_attempts_found local_only _ _ _ _ 10 1
              [16 / 10; 23 / 10] chain_route H1) as [-> ->].
  auto.
Qed.

(** * Further properties *)

(** ** Geometry *)

Lemma py_max_floor a b : a <= py_max a b /\ b <= py_max a b.
Proof. rewrite py_max_Rmax. split; [apply Rmax_l | apply Rmax_r]. Qed.

Lemma haversine_bounds a b : 0 <= haversine a b <= 6371000 * PI.
Proof.
  split; [apply haversine_nonneg|].
  destruct a as [lat1 lon1], b as [lat2 lon2]. unfold haversine.
  match goal with
  | |- context [asin ?t] => pose proof (asin_bound t) as [_ H]
  end.
  lra.
Qed.

(** The great-circle distance is never negative and never more than
    half the circumference of the sphere of radius 6371000 m. *)
Theorem haversine_between_zero_and_half_circumference :
  forall a b : latlon, 0 <= haversine a b <= 6371000 * PI.
Proof. exact haversine_bounds. Qed.

Lemma sqrt_sin_sq t : 0 <= sin t -> sqrt (sin t ^ 2) = sin t.
Proof.
  intros H. replace (sin t ^ 2) with (Rsqr (sin t)) by (unfold Rsqr; ring).
  apply sqrt_Rsqr, H.
Qed.

Lemma meridian_arc lat1 lat2 lon :
  lat1 <= lat2 -> lat2 - lat1 <= 180 ->
  haversine (lat1, lon) (lat2, lon) = 6371000 * radians (lat2 - lat1).
Proof.
  intros H1 H2. unfold haversine.
  replace (lon - lon) with 0 by lra.
  replace (radians 0 / 2) with 0 by (unfold radians; lra).
  rewrite sin_0.
  set (t := radians (lat2 - lat1) / 2).
  assert (Ht : 0 <= t <= PI / 2).
  { unfold t, radians. pose proof PI_RGT_0. split.
    - apply Rmult_le_pos; [|lra]. apply Rmult_le_pos; [|lra].
      apply Rmult_le_pos; lra.
    - assert ((lat2 - lat1) * PI <= 180 * PI)
        by (apply Rmult_le_compat_r; lra).
      lra. }
  replace (sin t ^ 2 + cos (radians lat1) * cos (radians lat2) * 0 ^ 2)
    with (sin t ^ 2) by ring.
  rewrite sqrt_sin_sq by (apply sin_ge_0; pose proof PI_RGT_0; lra).
  rewrite asin_sin by lra.
  unfold t. lra.
Qed.

(** Along a meridian the distance is the arc: the radius times the
    difference of the latitudes in radians. *)
Theorem haversine_on_a_meridian_is_the_arc :
  forall lat1 lat2 lon : R,
    lat1 <= lat2 -> lat2 - lat1 <= 180 ->
    haversine (lat1, lon) (lat2, lon) = 6371000 * (lat2 - lat1) * PI / 180.
Proof.
  intros lat1 lat2 lon H1 H2. rewrite meridian_arc by assumption.
  unfold radians. lra.
Qed.

(** From the equator to the pole it is a quarter of the
    circumference. *)
Lemma haversine_on_a_meridian_witness :
  0 <= 90 /\ 90 - 0 <= 180 /\
  haversine (0, -96798e-3) (90, -96798e-3) = 6371000 * (90 - 0) * PI / 180.
Proof.
  assert (H1 : 0 <= 90) by lra. assert (H2 : 90 - 0 <= 180) by lra.
  split; [exact H1|]. split; [exact H2|].
  exact (haversine_on_a_meridian_is_the_arc 0 90 (-96798e-3) H1 H2).
Defined.

Lemma deg_buffer_bounds lat km :
  0 <= km ->
  fst (deg_buffer_for_km lat km) = km / 110574e-3 /\
  0 <= fst (deg_buffer_for_km lat km) /\
  km / 111320e-3 <= snd (deg_buffer_for_km lat km) <= km / 11132e-3.
Proof.
  intros Hkm. unfold deg_buffer_for_km. cbn [fst snd].
  split; [reflexivity|]. split.
  - apply Rmult_le_pos; [exact Hkm|]. left. apply Rinv_0_lt_compat. lra.
  - destruct (py_max_floor (1 / 10) (cos (radians lat))) as [Hlo _].
    assert (Hhi : py_max (1 / 10) (cos (radians lat)) <= 1).
    { rewrite py_max_Rmax. apply Rmax_lub; [lra|].
      apply COS_bound. }
    set (m := py_max (1 / 10) (cos (radians lat))) in *.
    assert (Hm : 0 < 111320e-3 * m) by nra.
    split.
    + apply Rmult_le_compat_l; [exact Hkm|].
      apply Rinv_le_contravar; [exact Hm | nra].
    + apply Rmult_le_compat_l; [exact Hkm|].
      apply Rinv_le_contravar; [lra | nra].
Qed.

(** For a buffer that is not negative, the latitude delta is the buffer
    over 110.574 km per degree, and the longitude delta lies between the
    buffer over 111.320 (on the equator) and ten times that: near the
    poles the cosine is held at 0.1. *)
Theorem deg_buffer_for_km_is_bounded_near_the_poles :
  forall lat km : R,
    0 <= km ->
    fst (deg_buffer_for_km lat km) = km / 110574e-3 /\
    0 <= fst (deg_buffer_for_km lat km) /\
    km / 111320e-3 <= snd (deg_buffer_for_km lat km) <= km / 11132e-3.
Proof. exact deg_buffer_bounds. Qed.

Lemma deg_buffer_for_km_witness :
  0 <= 12 /\
  fst (deg_buffer_for_km 90 12) = 12 / 110574e-3 /\
  0 <= fst (deg_buffer_for_km 90 12) /\
  12 / 111320e-3 <= snd (deg_buffer_for_km 90 12) <= 12 / 11132e-3.
Proof.
  assert (H : 0 <= 12) by lra. split; [exact H|].
  exact (deg_buffer_for_km_is_bounded_near_the_poles 90 12 H).
Defined.

(** The buffer is 8 km for trips up to 160 km, 5 % of the trip up to
    1200 km and 60 km beyond. *)
Theorem compute_buffer_km_thresholds :
  forall s_lat s_lng e_lat e_lng : R,
    let d := haversine (s_lat, s_lng) (e_lat, e_lng) in
    (d <= 160000 -> compute_buffer_km s_lat s_lng e_lat e_lng = 8) /\
    (160000 <= d <= 1200000 ->
     compute_buffer_km s_lat s_lng e_lat e_lng = d / 1000 * (5 / 100)) /\
    (1200000 <= d -> compute_buffer_km s_lat s_lng e_lat e_lng = 60).
Proof.
  intros s_lat s_lng e_lat e_lng d. unfold compute_buffer_km. fold d.
  rewrite clamp_8_60. unfold clamp.
  repeat split; intros H;
    destruct (Rlt_dec (d / 1000 * (5 / 100)) 8);
    destruct (Rlt_dec 60 (d / 1000 * (5 / 100))); lra.
Qed.

(** The trips from (0, 0) to itself, to (6, 0) and to (90, 0): 0 km,
    about 667 km and about 10 008 km. *)
Lemma compute_buffer_km_thresholds_witness :
  (haversine (0, 0) (0, 0) <= 160000 /\ compute_buffer_km 0 0 0 0 = 8) /\
  (160000 <= haversine (0, 0) (6, 0) <= 1200000 /\
   compute_buffer_km 0 0 6 0 = haversine (0, 0) (6, 0) / 1000 * (5 / 100)) /\
  (1200000 <= haversine (0, 0) (90, 0) /\ compute_buffer_km 0 0 90 0 = 60).
Proof.
  pose proof PI2_3_2 as Hlo. pose proof PI_4 as Hhi.
  assert (H0 : haversine (0, 0) (0, 0) <= 160000)
    by (rewrite haversine_refl; lra).
  assert (H6 : 160000 <= haversine (0, 0) (6, 0) <= 1200000)
    by (rewrite meridian_arc by lra; unfold radians; lra).
  assert (H90 : 1200000 <= haversine (0, 0) (90, 0))
    by (rewrite meridian_arc by lra; unfold radians; lra).
  split; [split; [exact H0|]|split; [split; [exact H6|]|split; [exact H90|]]].
  - exact (proj1 (compute_buffer_km_thresholds 0 0 0 0) H0).
  - exact (proj1 (proj2 (compute_buffer_km_thresholds 0 0 6 0)) H6).
  - exact (proj2 (proj2 (compute_buffer_km_thresholds 0 0 90 0)) H90).
Defined.

(** ** Tile key *)

Lemma not_a_digit c :
  lacks c "0123456789" = true ->
  (N_of_ascii c <? 48)%N || (57 <? N_of_ascii c)%N = true.
Proof.
  intros H.
  destruct (N.ltb_spec (N_of_ascii c) 48) as [|Hlo]; [reflexivity|].
  destruct (N.ltb_spec 57 (N_of_ascii c)) as [|Hhi]; [reflexivity|].
  exfalso. rewrite <- (ascii_N_embedding c) in H.
  assert (E : (N_of_ascii c = 48 \/ N_of_ascii c = 49 \/ N_of_ascii c = 50 \/
              N_of_ascii c = 51 \/ N_of_ascii c = 52 \/ N_of_ascii c = 53 \/
              N_of_ascii c = 54 \/ N_of_ascii c = 55 \/ N_of_ascii c = 56 \/
              N_of_ascii c = 57)%N) by lia.
  repeat (destruct E as [E|E]; [rewrite E in H; discriminate|]).
  rewrite E in H. discriminate.
Qed.

Lemma format_3f_alphabet c x :
  lacks c key_alphabet = true -> lacks c (format_3f x) = true.
Proof.
  unfold key_alphabet. intros H.
  change "0123456789.-_afin"%string
    with ("0123456789" ++ ".-_afin")%string in H.
  rewrite lacks_app in H. apply andb_true_iff in H as [Hd Hr].
  apply not_a_digit in Hd.
  cbn [lacks] in Hr.
  repeat match type of Hr with
         | _ && _ = true => apply andb_true_iff in Hr as [? Hr]
         end.
  assert (Hdot : Ascii.eqb "."%char c = false)
    by (destruct (Ascii.eqb "."%char c); [discriminate | reflexivity]).
  assert (F : forall t, lacks c (fixed3 t) = true)
    by (intros t; apply fixed3_lacks; assumption).
  assert (S : forall s, lacks c (sign_str s) = true).
  { intros [|]; [|reflexivity]. cbn [sign_str lacks]. rewrite andb_true_r.
    assumption. }
  destruct x as [s|s| |s m e]; cbn [format_3f].
  - rewrite lacks_app, S, F. reflexivity.
  - rewrite lacks_app, S. cbn [lacks andb]. rewrite andb_true_r.
    repeat (apply andb_true_iff; split); assumption.
  - cbn [lacks]. rewrite andb_true_r.
    repeat (apply andb_true_iff; split); assumption.
  - rewrite lacks_app, S, F. reflexivity.
Qed.

(** The key of any four doubles, NaN and the infinities included, is
    written with the digits and the characters of ".-_afin" alone: a
    character outside of them, such as '/', is in no key. *)
Theorem tile_key_stays_in_its_alphabet :
  forall (c : ascii) (n s e w : spec_float),
    lacks c key_alphabet = true -> lacks c (tile_key n s e w) = true.
Proof.
  intros c n s e w H.
  assert (U : negb (Ascii.eqb "_"%char c) = true).
  { unfold key_alphabet in H.
    change "0123456789.-_afin"%string
      with ("0123456789.-" ++ String "_" "afin")%string in H.
    rewrite lacks_app in H. apply andb_true_iff in H as [_ H].
    cbn [lacks] in H. apply andb_true_iff in H as [H _]. exact H. }
  unfold tile_key. cbv zeta.
  repeat (rewrite lacks_app, (format_3f_alphabet c _ H); cbn [append];
          cbn [lacks andb]; rewrite U; cbn [andb]).
  apply format_3f_alphabet, H.
Qed.

(** No key has a slash: the key of a box with an infinite and an
    undefined bound, for one. *)
Lemma tile_key_stays_in_its_alphabet_witness :
  lacks "/" key_alphabet = true /\
  lacks "/" (tile_key lat_32_75 S754_nan (S754_infinity true) lng_m96_875)
  = true.
Proof.
  assert (H : lacks "/" key_alphabet = true) by reflexivity.
  split; [exact H|].
  exact (tile_key_stays_in_its_alphabet "/" lat_32_75 S754_nan
           (S754_infinity true) lng_m96_875 H).
Defined.

(** A bound is printed with an error of at most half a thousandth: the
    digits of a double with the value [v] are those of an integer [t] of
    thousandths with | |v| - t/1000 | <= 0.0005, after the sign of the
    double. *)
Theorem format_3f_is_within_half_a_thousandth :
  forall (x : spec_float) (v : Q),
    SF2Q x = Some v ->
    exists t : N,
      format_3f x = (sign_str (sign_bit x) ++ fixed3 t)%string /\
      (Qabs (Qabs v - (Z.of_N t # 1000)) <= 1 # 2000)%Q.
Proof.
  intros x v Hx.
  destruct (format_3f_valued x v Hx) as (n & d & _ & -> & F).
  exists (round_half_even (1000 * n) d). split; [exact F|].
  pose proof (round_half_even_near (1000 * n) d) as [A B].
  cbv zeta in A, B. set (t := round_half_even (1000 * n) d) in *.
  unfold Qle, Qabs, Qminus, Qplus, Qopp, signed. cbn [Qnum Qden].
  rewrite Pos2Z.inj_mul.
  destruct (sign_bit x); lia.
Qed.

Lemma format_3f_is_within_half_a_thousandth_witness :
  SF2Q lat_above_tie = Some (4617966016528384 # 140737488355328)%Q /\
  exists t : N,
    format_3f lat_above_tie
    = (sign_str (sign_bit lat_above_tie) ++ fixed3 t)%string /\
    (Qabs (Qabs (4617966016528384 # 140737488355328) - (Z.of_N t # 1000))
     <= 1 # 2000)%Q.
Proof.
  assert (H : SF2Q lat_above_tie
              = Some (4617966016528384 # 140737488355328)%Q) by reflexivity.
  split; [exact H|].
  exact (format_3f_is_within_half_a_thousandth lat_above_tie _ H).
Defined.

(** ** Corridor *)

(** For a buffer that is not negative, [build_corridor] asks the tile
    store once, for a box that contains both end points of the trip;
    the box is as high as the latitudes are apart plus twice the
    latitude delta of the buffer. *)
Theorem build_corridor_box_contains_the_trip :
  forall (lib : Library) (start_lat start_lng end_lat end_lng km : R),
    0 <= km ->
    exists north south east west : R,
      build_corridor lib start_lat start_lng end_lat end_lng km
      = ([LoadTile north south east west],
         load_or_build_bbox lib north south east west) /\
      south <= start_lat <= north /\ south <= end_lat <= north /\
      west <= start_lng <= east /\ west <= end_lng <= east /\
      north - south = Rabs (end_lat - start_lat) + 2 * (km / 110574e-3).
Proof.
  intros lib start_lat start_lng end_lat end_lng km Hkm.
  destruct (deg_buffer_bounds ((start_lat + end_lat) / 2) km Hkm)
    as (Hlat & Hlat0 & Hlon & _).
  assert (Hlon0 : 0 <= snd (deg_buffer_for_km ((start_lat + end_lat) / 2) km)).
  { eapply Rle_trans; [|exact Hlon].
    apply Rmult_le_pos; [exact Hkm|]. left. apply Rinv_0_lt_compat. lra. }
  unfold build_corridor.
  destruct (deg_buffer_for_km ((start_lat + end_lat) / 2) km) as [dlat dlon].
  cbn [fst snd] in *.
  do 4 eexists. split; [reflexivity|].
  rewrite !py_max_Rmax, !py_min_Rmin.
  pose proof (Rmax_l start_lat end_lat). pose proof (Rmax_r start_lat end_lat).
  pose proof (Rmin_l start_lat end_lat). pose proof (Rmin_r start_lat end_lat).
  pose proof (Rmax_l start_lng end_lng). pose proof (Rmax_r start_lng end_lng).
  pose proof (Rmin_l start_lng end_lng). pose proof (Rmin_r start_lng end_lng).
  repeat split; try lra.
  subst dlat. unfold Rmax, Rmin, Rabs.
  destruct (Rle_dec start_lat end_lat), (Rcase_abs (end_lat - start_lat)); lra.
Qed.

(** The corridor of the warm-up script: from (32.781, -96.798) to
    (33.000, -96.700) with 12 km. *)
Lemma build_corridor_box_witness :
  0 <= 12 /\
  exists north south east west : R,
    build_corridor local_only 32781e-3 (-96798e-3) 33 (-967e-1) 12
    = ([LoadTile north south east west],
       load_or_build_bbox local_only north south east west) /\
    south <= 32781e-3 <= north /\ south <= 33 <= north /\
    west <= -96798e-3 <= east /\ west <= -967e-1 <= east /\
    north - south = Rabs (33 - 32781e-3) + 2 * (12 / 110574e-3).
Proof.
  assert (H : 0 <= 12) by lra. split; [exact H|].
  exact (build_corridor_box_contains_the_trip local_only
           32781e-3 (-96798e-3) 33 (-967e-1) 12 H).
Defined.

(** ** Parallel edges *)

Section BestEdge.

(** What the search of [best_edge_key] ends with: its state unchanged,
    no edge being faster than the time it holds, or the first of the
    fastest edges. *)
Lemma best_fold l :
  forall b bk b' bk',
    fold_left best_step l (b, bk) = (b', bk') ->
    (b' = b /\ bk' = bk /\
     forall k ed, In (k, ed) l -> b <= edge_time ed)
    \/ exists front k ed back,
         l = front ++ (k, ed) :: back /\ bk' = Some k /\
         b' = edge_time ed /\ edge_time ed < b /\
         (forall k' ed', In (k', ed') front -> edge_time ed < edge_time ed') /\
         (forall k' ed', In (k', ed') back -> edge_time ed <= edge_time ed').
Proof.
  induction l as [|[k1 ed1] l IH]; intros b bk b' bk' E.
  - left. injection E as <- <-. repeat split. intros ? ? [].
  - cbn [fold_left best_step] in E.
    destruct (Rlt_dec (edge_time ed1) b) as [Hlt|Hge].
    + destruct (IH _ _ _ _ E) as [(-> & -> & Hall)|
        (front & k & ed & back & -> & -> & -> & Hk & Hf & Hb)].
      * right. exists [], k1, ed1, l. repeat split; auto.
        intros ? ? [].
      * right. exists ((k1, ed1) :: front), k, ed, back.
        repeat split; auto; try lra.
        intros k' ed' [[= <- <-]|H]; [exact Hk | eauto].
    + destruct (IH _ _ _ _ E) as [(-> & -> & Hall)|
        (front & k & ed & back & -> & -> & -> & Hk & Hf & Hb)].
      * left. repeat split. intros k ed [[= <- <-]|H]; [lra | eauto].
      * right. exists ((k1, ed1) :: front), k, ed, back.
        repeat split; auto.
        intros k' ed' [[= <- <-]|H]; [lra | eauto].
Qed.

End BestEdge.

(** Among the parallel edges from [u] to [v], [best_edge_key] returns
    the key of an edge of the least estimated time, the first of them
    in the order of the edges; that time is below 1e20 s. *)
Theorem best_edge_key_is_the_first_fastest :
  forall (G : graph) (u v : node) (k : key),
    best_edge_key G u v = Some k ->
    exists front ed back,
      adj G u v = front ++ (k, ed) :: back /\
      edge_time ed < 1e20 /\
      (forall k' ed', In (k', ed') front -> edge_time ed < edge_time ed') /\
      (forall k' ed', In (k', ed') back -> edge_time ed <= edge_time ed').
Proof.
  intros G u v k. unfold best_edge_key.
  destruct (negb (has_edge G u v)); [discriminate|].
  destruct (fold_left best_step (adj G u v) (1e20, None)) as [b' bk'] eqn:E.
  cbn [snd]. intros ->.
  destruct (best_fold _ _ _ _ _ E) as [(_ & [=] & _)|
    (front & k' & ed & back & H & [= <-] & _ & Hk & Hf & Hb)].
  exists front, ed, back. auto.
Qed.

(** Of three lanes of 30 s, 20 s and 20 s, the key is that of the
    second. *)
Lemma best_edge_key_witness :
  best_edge_key Parallel.three_lanes 1%Z 2%Z = Some 1%Z /\
  exists front ed back,
    adj Parallel.three_lanes 1%Z 2%Z = front ++ (1%Z, ed) :: back /\
    edge_time ed < 1e20 /\
    (forall k' ed', In (k', ed') front -> edge_time ed < edge_time ed') /\
    (forall k' ed', In (k', ed') back -> edge_time ed <= edge_time ed').
Proof.
  assert (H : best_edge_key Parallel.three_lanes 1%Z 2%Z = Some 1%Z)
    by (run_reals; settle_reals; reflexivity).
  split; [exact H|].
  exact (best_edge_key_is_the_first_fastest _ _ _ _ H).
Defined.

(** [best_edge_key] returns no key exactly when no edge from [u] to [v]
    is estimated below 1e20 s, be it that there is no edge at all. *)
Theorem best_edge_key_is_none_without_an_edge_below_1e20 :
  forall (G : graph) (u v : node),
    best_edge_key G u v = None
    <-> forall k ed, In (k, ed) (adj G u v) -> 1e20 <= edge_time ed.
Proof.
  intros G u v. unfold best_edge_key, has_edge.
  destruct (adj G u v) as [|ke l] eqn:A.
  - split; [intros _ ? ? []|reflexivity].
  - cbn [negb]. rewrite <- A. clear A.
    destruct (fold_left best_step (adj G u v) (1e20, None)) as [b' bk'] eqn:E.
    cbn [snd].
    destruct (best_fold _ _ _ _ _ E) as [(_ & -> & Hall)|
      (front & k' & ed & back & H & -> & _ & Hk & _)].
    + split; [intros _; exact Hall | reflexivity].
    + split; [discriminate|]. intros Hall. exfalso.
      assert (1e20 <= edge_time ed); [|lra].
      apply (Hall k'). rewrite H. apply in_or_app. right. left. reflexivity.
Qed.

(** ** Lengths *)

Lemma py_min_list_least l :
  forall a, In (py_min_list a l) (a :: l)
            /\ forall t, In t (a :: l) -> py_min_list a l <= t.
Proof.
  unfold py_min_list.
  induction l as [|b l IH]; intros a; cbn [fold_left].
  - split; [left; reflexivity|]. intros t [<-|[]]. lra.
  - destruct (IH (py_min a b)) as [Hin Hle]. unfold py_min in *.
    destruct (Rlt_dec b a) as [Hlt|Hge].
    + split.
      * destruct Hin as [<-|Hin]; [right; left; reflexivity|right; right; exact Hin].
      * intros t [<-|[<-|Ht]].
        -- apply Rle_trans with b; [apply Hle; left; reflexivity | lra].
        -- apply Hle. left. reflexivity.
        -- apply Hle. right. exact Ht.
    + split.
      * destruct Hin as [<-|Hin]; [left; reflexivity|right; right; exact Hin].
      * intros t [<-|[<-|Ht]].
        -- apply Hle. left. reflexivity.
        -- apply Rle_trans with a; [apply Hle; left; reflexivity | lra].
        -- apply Hle. right. exact Ht.
Qed.

Lemma lengths_in l t :
  In t (lengths l) <-> exists k ed, In (k, ed) l /\ length ed = Some t.
Proof.
  induction l as [|[k ed] l IH]; cbn [lengths].
  - split; [intros [] | intros (? & ? & [] & _)].
  - destruct (length ed) as [len|] eqn:E.
    + split.
      * intros [<-|H]; [exists k, ed; split; [left; reflexivity | exact E]|].
        apply IH in H as (k' & ed' & H & E'). exists k', ed'.
        split; [right; exact H | exact E'].
      * intros (k' & ed' & [[= <- <-]|H] & E').
        -- left. congruence.
        -- right. apply IH. eauto.
    + split.
      * intros H. apply IH in H as (k' & ed' & H & E'). exists k', ed'.
        split; [right; exact H | exact E'].
      * intros (k' & ed' & [[= <- <-]|H] & E'); [congruence|].
        apply IH. eauto.
Qed.

(** Between two nodes with an edge that has a length, [edge_len_m] is
    the least of the lengths of the parallel edges; without an edge it
    raises [KeyError]; with edges but no length it is the distance of
    the two nodes. *)
Theorem edge_len_m_is_the_least_length :
  forall (G : graph) (u v : node),
    (has_edge G u v = false -> edge_len_m G u v = Err (KeyError "edge")) /\
    (forall k ed t,
       In (k, ed) (adj G u v) -> length ed = Some t ->
       exists m k0 ed0,
         edge_len_m G u v = Ok m /\
         In (k0, ed0) (adj G u v) /\ length ed0 = Some m /\
         forall k' ed' t',
           In (k', ed') (adj G u v) -> length ed' = Some t' -> m <= t') /\
    (has_edge G u v = true ->
     (forall k ed, In (k, ed) (adj G u v) -> length ed = None) ->
     edge_len_m G u v = node_distance G u v).
Proof.
  intros G u v. unfold edge_len_m, edges_between, has_edge.
  split; [|split].
  - destruct (adj G u v); [reflexivity | discriminate].
  - intros k ed t Hin Hlen.
    assert (Ht : In t (lengths (adj G u v))) by (apply lengths_in; eauto).
    destruct (adj G u v) as [|ke l] eqn:A; [destruct Hin|].
    cbn [rbind]. destruct (lengths (ke :: l)) as [|a vals] eqn:L;
      [destruct Ht|].
    destruct (py_min_list_least vals a) as [Hmem Hle].
    rewrite <- L in Hmem. apply lengths_in in Hmem as (k0 & ed0 & H0 & E0).
    exists (py_min_list a vals), k0, ed0. repeat split; auto.
    intros k' ed' t' Hin' Hlen'. apply Hle. rewrite <- L.
    apply lengths_in. eauto.
  - intros He Hnone. destruct (adj G u v) as [|ke l] eqn:A; [discriminate|].
    cbn [rbind]. destruct (lengths (ke :: l)) as [|a vals] eqn:L;
      [reflexivity|].
    exfalso. assert (Ha : In a (lengths (ke :: l)))
      by (rewrite L; left; reflexivity).
    apply lengths_in in Ha as (k0 & ed0 & H0 & E0).
    rewrite (Hnone k0 ed0 H0) in E0. discriminate.
Qed.

(** Of three lanes of 300 m, 250 m and 200 m the length is 200 m, the
    length of the third lane, while the key of the fastest is that of
    the second. *)
Lemma edge_len_m_witness :
  In (0%Z, plain_edge 30 300) (adj Parallel.three_lanes 1%Z 2%Z) /\
  length (plain_edge 30 300) = Some 300 /\
  edge_len_m Parallel.three_lanes 1%Z 2%Z = Ok 200 /\
  exists m k0 ed0,
    edge_len_m Parallel.three_lanes 1%Z 2%Z = Ok m /\
    In (k0, ed0) (adj Parallel.three_lanes 1%Z 2%Z) /\
    length ed0 = Some m /\
    forall k' ed' t',
      In (k', ed') (adj Parallel.three_lanes 1%Z 2%Z) ->
      length ed' = Some t' -> m <= t'.
Proof.
  assert (Hin : In (0%Z, plain_edge 30 300)
                  (adj Parallel.three_lanes 1%Z 2%Z)) by (left; reflexivity).
  assert (Hlen : length (plain_edge 30 300) = Some 300) by reflexivity.
  split; [exact Hin|]. split; [exact Hlen|].
  split; [run_reals; settle_reals; reflexivity|].
  exact (proj1 (proj2 (edge_len_m_is_the_least_length
                         Parallel.three_lanes 1%Z 2%Z)) _ _ _ Hin Hlen).
Defined.

(** ** Extraction over known nodes *)

Import PathNotions.

Section KnownNodes.

Local Open Scope result_scope.

Variable G : graph.
Hypothesis fast : below_sentinel G.

Variables u v : node.
Variables du dv : node_data.
Hypothesis Hu : assoc u (nodes G) = Some du.
Hypothesis Hv : assoc v (nodes G) = Some dv.

Lemma straight_known : straight G u v = Ok [node_point du; node_point dv].
Proof. unfold straight, node_attrs. rewrite Hu, Hv. reflexivity. Qed.

Lemma node_distance_known :
  node_distance G u v = Ok (haversine (y du, x du) (y dv, x dv)).
Proof. unfold node_distance, node_attrs. rewrite Hu, Hv. reflexivity. Qed.

Lemma edge_len_m_known :
  has_edge G u v = true -> exists L, edge_len_m G u v = Ok L.
Proof.
  intros H. unfold edge_len_m. rewrite (edges_between_ok G u v H).
  cbn [rbind]. destruct (lengths (adj G u v)); [|eauto].
  rewrite node_distance_known. eauto.
Qed.

Lemma edge_coords_known k :
  has_edge G u v = true -> In k (map fst (adj G u v)) ->
  exists seg, edge_coords G u v (Some k) = Ok seg
              /\ (no_geometry G -> seg = [node_point du; node_point dv]).
Proof.
  intros H Hk. unfold edge_coords, edge_attrs.
  rewrite (edges_between_ok G u v H). cbn [rbind].
  destruct (assoc_in k _ Hk) as [ed Hed]. rewrite Hed. cbn [rbind].
  assert (Hin : In (k, ed) (adj G u v)).
  { clear - Hed. induction (adj G u v) as [|[k' a] l IH]; [discriminate|].
    cbn [assoc] in Hed. destruct (Z.eqb_spec k k') as [->|].
    - injection Hed as ->. left. reflexivity.
    - right. exact (IH Hed). }
  destruct (geometry ed) as [g|] eqn:Eg.
  - destruct (flatten_coords g) as [[|c cs]|];
      try (rewrite straight_known; eexists; split; [reflexivity|auto]).
    eexists. split; [reflexivity|]. intros Hn.
    rewrite (Hn _ _ _ _ Hin) in Eg. discriminate.
  - rewrite straight_known. eexists. split; [reflexivity|auto].
Qed.

End KnownNodes.

Section KnownSegments.

Local Open Scope result_scope.

Variable G : graph.
Hypothesis fast : below_sentinel G.

(** The segment of a pair of known nodes: it is there in undirected
    mode, and in directed mode when the pair has an edge in a
    direction; without geometries it is the two node points. *)
Lemma segment_known undirected u v du dv :
  assoc u (nodes G) = Some du -> assoc v (nodes G) = Some dv ->
  undirected = true \/ has_edge G u v = true \/ has_edge G v u = true ->
  exists seg L,
    segment G undirected u v = Ok (seg, L)
    /\ (no_geometry G -> seg = [node_point du; node_point dv]).
Proof.
  intros Hu Hv Hc. unfold segment.
  destruct (has_edge G u v) eqn:Huv.
  - destruct (best_edge_key_found G fast u v Huv) as (k & Hk & Hin).
    destruct (edge_coords_known G u v du dv Hu Hv k Huv Hin)
      as (seg & Hseg & Hplain).
    destruct (edge_len_m_known G u v du dv Hu Hv Huv) as [L HL].
    exists seg, L. rewrite Hk, Hseg, HL.
    destruct undirected; cbn [negb is_None andb rbind]; auto.
  - assert (Hnone : best_edge_key G u v = None)
      by (unfold best_edge_key; rewrite Huv; reflexivity).
    rewrite Hnone.
    destruct (has_edge G v u) eqn:Hvu.
    + destruct (best_edge_key_found G fast v u Hvu) as (k & Hk & Hin).
      destruct (edge_coords_known G v u dv du Hv Hu k Hvu Hin)
        as (seg & Hseg & Hplain).
      destruct (edge_len_m_known G v u dv du Hv Hu Hvu) as [L HL].
      exists (rev seg), L. rewrite Hk, Hseg, HL.
      split; [destruct undirected; reflexivity|].
      intros Hn. rewrite (Hplain Hn). reflexivity.
    + destruct Hc as [->|[Hc|Hc]]; try discriminate.
      cbn [negb]. rewrite (straight_known G u v du dv Hu Hv).
      rewrite (node_distance_known G u v du dv Hu Hv).
      cbn [rbind]. eauto.
Qed.

Lemma segments_known undirected path :
  forall ds,
    located G path ds ->
    undirected = true \/ pairs_connected G path ->
    exists segs,
      segments G undirected path = Ok segs
      /\ List.length segs = List.length (pairs path)
      /\ (no_geometry G -> map fst segs = pairs (map node_point ds)).
Proof.
  induction path as [|u rest IH]; intros ds Hl Hc.
  - exists []. inversion Hl; subst. repeat split.
  - inversion Hl as [|? du ? ds' Hu Hrest]; subst.
    destruct rest as [|v rest'].
    + inversion Hrest; subst. exists []. repeat split.
    + inversion Hrest as [|? dv ? ds'' Hv Hrest']; subst.
      change (segments G undirected (u :: v :: rest'))
        with (sl <- segment G undirected u v ;;
              more <- segments G undirected (v :: rest') ;;
              Ok (sl :: more)).
      assert (Hc1 : undirected = true \/ has_edge G u v = true
                    \/ has_edge G v u = true).
      { destruct Hc as [Hc|[Hc _]]; [left; exact Hc | right; exact Hc]. }
      assert (Hc2 : undirected = true \/ pairs_connected G (v :: rest')).
      { destruct Hc as [Hc|[_ Hc]]; [left; exact Hc | right; exact Hc]. }
      destruct (segment_known undirected u v du dv Hu Hv Hc1)
        as (seg & L & -> & Hplain).
      destruct (IH (dv :: ds'') Hrest Hc2) as (more & -> & Hlen & Hmore).
      cbn [rbind]. exists ((seg, L) :: more). split; [reflexivity|].
      split; [cbn [List.length pairs] in *; congruence|].
      intros Hn. cbn [map fst pairs]. rewrite (Hplain Hn).
      f_equal. exact (Hmore Hn).
Qed.

End KnownSegments.

Lemma stitch_pairs {A} (l : list A) :
  (2 <= List.length l)%nat -> stitch (pairs l) = l.
Proof.
  destruct l as [|a [|b l]]; cbn [List.length]; try lia. intros _.
  cbn [pairs stitch app]. do 2 f_equal.
  revert b. induction l as [|c l IH]; intros b; [reflexivity|].
  cbn [pairs map tl List.concat app]. f_equal. apply IH.
Qed.

(** In undirected mode the extraction returns for every path of nodes
    of the graph, connected or not, when every edge is estimated below
    1e20 s. *)
Theorem undirected_extraction_returns_on_known_nodes :
  forall (G : graph) (path_nodes : list node) (ds : list node_data),
    below_sentinel G -> located G path_nodes ds ->
    exists poly meters,
      polyline_from_path G path_nodes true = Ok (poly, meters).
Proof.
  intros G path_nodes ds F Hl.
  destruct (segments_known G F true path_nodes ds Hl (or_introl eq_refl))
    as (segs & Hs & _).
  rewrite polyline_from_path_segments, Hs. cbn [rbind]. eauto.
Qed.

Lemma islands_below_sentinel : below_sentinel islands.
Proof. intros u v k ed []. Qed.

Lemma islands_located :
  located islands [1; 3; 2]%Z [at_0_0; at_2_2; at_1_1].
Proof. repeat constructor. Qed.

(** Over the three islands the path 1, 3, 2 is drawn with straight
    segments. *)
Lemma undirected_extraction_witness :
  below_sentinel islands /\
  located islands [1; 3; 2]%Z [at_0_0; at_2_2; at_1_1] /\
  exists poly meters,
    polyline_from_path islands [1; 3; 2]%Z true = Ok (poly, meters).
Proof.
  split; [exact islands_below_sentinel|]. split; [exact islands_located|].
  exact (undirected_extraction_returns_on_known_nodes islands _ _
           islands_below_sentinel islands_located).
Defined.

(** Over a graph without edge geometries, the polyline of a path of at
    least two nodes is the list of the coordinates of its nodes, in
    both modes (in directed mode, for a path whose consecutive nodes are
    connected in a direction). *)
Theorem polyline_without_geometry_is_the_node_points :
  forall (G : graph) (path_nodes : list node) (ds : list node_data)
         (undirected : bool),
    no_geometry G -> below_sentinel G -> located G path_nodes ds ->
    undirected = true \/ pairs_connected G path_nodes ->
    (2 <= List.length path_nodes)%nat ->
    exists meters,
      polyline_from_path G path_nodes undirected
      = Ok (map node_point ds, meters).
Proof.
  intros G path_nodes ds undirected Hn F Hl Hc Hlen.
  destruct (segments_known G F undirected path_nodes ds Hl Hc)
    as (segs & Hs & _ & Hplain).
  rewrite polyline_from_path_segments, Hs. cbn [rbind].
  rewrite (Hplain Hn), stitch_pairs; [eauto|].
  rewrite length_map. rewrite <- (Forall2_length Hl). exact Hlen.
Qed.

Lemma spread_chain_below_sentinel : below_sentinel spread_chain.
Proof.
  intros u v k ed. cbn [adj spread_chain chain].
  destruct (_ || _); [|contradiction].
  intros [[= _ <-]|[]]. run_reals. lra.
Qed.

Lemma spread_chain_no_geometry : no_geometry spread_chain.
Proof.
  intros u v k ed. cbn [adj spread_chain chain].
  destruct (_ || _); [|contradiction].
  intros [[= _ <-]|[]]. reflexivity.
Qed.

(** Against the direction of the edges too: the path 3, 2, 1 over the
    chain 1 -> 2 -> 3. *)
Lemma polyline_without_geometry_witness :
  no_geometry spread_chain /\ below_sentinel spread_chain /\
  located spread_chain [3; 2; 1]%Z [at_2_2; at_1_1; at_0_0] /\
  pairs_connected spread_chain [3; 2; 1]%Z /\
  (2 <= List.length [3; 2; 1]%Z)%nat /\
  exists meters,
    polyline_from_path spread_chain [3; 2; 1]%Z false
    = Ok (map node_point [at_2_2; at_1_1; at_0_0], meters).
Proof.
  assert (Hl : located spread_chain [3; 2; 1]%Z [at_2_2; at_1_1; at_0_0])
    by (repeat constructor).
  assert (Hc : pairs_connected spread_chain [3; 2; 1]%Z)
    by (simpl; auto).
  assert (Hlen : (2 <= List.length [3; 2; 1]%Z)%nat) by (simpl; lia).
  split; [exact spread_chain_no_geometry|].
  split; [exact spread_chain_below_sentinel|].
  split; [exact Hl|]. split; [exact Hc|]. split; [exact Hlen|].
  exact (polyline_without_geometry_is_the_node_points spread_chain
           [3; 2; 1]%Z [at_2_2; at_1_1; at_0_0] false
           spread_chain_no_geometry spread_chain_below_sentinel Hl
           (or_intror Hc) Hlen).
Defined.

(** ** Nearest node *)

Import RunNotions MoreWorlds.

Section NearestScan.

Variables lat lng : R.

#[local] Abbreviation dist d := (haversine (lat, lng) (y d, x d)).

Lemma nearest_fold l :
  forall b bn b' bn',
    fold_left (nearest_step lat lng) l (bn, b) = (bn', b') ->
    (b' = b /\ bn' = bn /\ forall n d, In (n, d) l -> b <= dist d)
    \/ exists front n d back,
         l = front ++ (n, d) :: back /\ bn' = Some n /\
         b' = dist d /\ dist d < b /\
         (forall n' d', In (n', d') front -> dist d < dist d') /\
         (forall n' d', In (n', d') back -> dist d <= dist d').
Proof.
  induction l as [|[n1 d1] l IH]; intros b bn b' bn' E.
  - left. injection E as <- <-. repeat split. intros ? ? [].
  - cbn [fold_left nearest_step] in E.
    destruct (Rlt_dec (dist d1) b) as [Hlt|Hge].
    + destruct (IH _ _ _ _ E) as [(-> & -> & Hall)|
        (front & n & d & back & -> & -> & -> & Hk & Hf & Hb)].
      * right. exists [], n1, d1, l. repeat split; auto.
        intros ? ? [].
      * right. exists ((n1, d1) :: front), n, d, back.
        repeat split; auto; try lra.
        intros n' d' [[= <- <-]|H]; [exact Hk | eauto].
    + destruct (IH _ _ _ _ E) as [(-> & -> & Hall)|
        (front & n & d & back & -> & -> & -> & Hk & Hf & Hb)].
      * left. repeat split. intros n d [[= <- <-]|H]; [lra | eauto].
      * right. exists ((n1, d1) :: front), n, d, back.
        repeat split; auto.
        intros n' d' [[= <- <-]|H]; [lra | eauto].
Qed.

Lemma haversine_below_sentinel a b : haversine a b < 1e20.
Proof.
  destruct (haversine_bounds a b) as [_ H].
  pose proof PI_4. lra.
Qed.

End NearestScan.

(** [nearest_node_fast] returns the node of the library with its
    distance when the library knows a node of the graph; when the
    library raises or names a node that the graph has not, it scans the
    nodes: on a graph without nodes it returns no node and 1e20, else
    the first of the nodes at the least distance, with that distance. *)
Theorem nearest_node_fast_scans_when_the_library_fails :
  forall (lib : Library) (G : graph) (lat lng : R),
    (forall nid d,
       nearest_nodes lib G lng lat = Ok nid ->
       assoc nid (nodes G) = Some d ->
       nearest_node_fast lib G lat lng
       = ([NearestNodes lng lat],
          Ok (Some nid, haversine (lat, lng) (y d, x d)))) /\
    ((exists e, nearest_nodes lib G lng lat = Err e)
     \/ (exists nid, nearest_nodes lib G lng lat = Ok nid
                     /\ assoc nid (nodes G) = None) ->
     (nodes G = [] ->
      outcome (nearest_node_fast lib G lat lng) = Ok (None, 1e20)) /\
     (nodes G <> [] ->
      exists front n d back,
        nodes G = front ++ (n, d) :: back /\
        outcome (nearest_node_fast lib G lat lng)
        = Ok (Some n, haversine (lat, lng) (y d, x d)) /\
        (forall n' d', In (n', d') front ->
           haversine (lat, lng) (y d, x d)
           < haversine (lat, lng) (y d', x d')) /\
        (forall n' d', In (n', d') back ->
           haversine (lat, lng) (y d, x d)
           <= haversine (lat, lng) (y d', x d')))).
Proof.
  intros lib G lat lng. split.
  - intros nid d Hn Hd. unfold nearest_node_fast. rewrite Hn.
    cbn [call Effects.bind lift]. unfold node_attrs. rewrite Hd.
    reflexivity.
  - intros Hfail.
    assert (E : outcome (nearest_node_fast lib G lat lng)
                = Ok (fold_left (nearest_step lat lng) (nodes G) (None, 1e20))).
    { unfold nearest_node_fast.
      destruct Hfail as [[e ->]|(nid & -> & Hnone)]; [reflexivity|].
      cbn [call Effects.bind lift]. unfold node_attrs. rewrite Hnone.
      reflexivity. }
    rewrite E. split.
    + intros ->. reflexivity.
    + intros Hne.
      destruct (fold_left (nearest_step lat lng) (nodes G) (None, 1e20))
        as [bn' b'] eqn:F.
      destruct (nearest_fold lat lng _ _ _ _ _ F) as [(_ & _ & Hall)|
        (front & n & d & back & H & -> & -> & _ & Hf & Hb)].
      * exfalso. destruct (nodes G) as [|[n d] l]; [contradiction|].
        pose proof (Hall n d (or_introl eq_refl)).
        pose proof (haversine_below_sentinel (lat, lng) (y d, x d)). lra.
      * exists front, n, d, back. auto.
Qed.

(** With a library whose search raises, over the three islands. *)
Lemma nearest_node_fast_witness :
  ((exists e, nearest_nodes remote_up islands (-96798e-3) 32781e-3 = Err e)
   \/ (exists nid, nearest_nodes remote_up islands (-96798e-3) 32781e-3
                   = Ok nid /\ assoc nid (nodes islands) = None)) /\
  nodes islands <> [] /\
  exists front n d back,
    nodes islands = front ++ (n, d) :: back /\
    outcome (nearest_node_fast remote_up islands 32781e-3 (-96798e-3))
    = Ok (Some n, haversine (32781e-3, -96798e-3) (y d, x d)) /\
    (forall n' d', In (n', d') front ->
       haversine (32781e-3, -96798e-3) (y d, x d)
       < haversine (32781e-3, -96798e-3) (y d', x d')) /\
    (forall n' d', In (n', d') back ->
       haversine (32781e-3, -96798e-3) (y d, x d)
       <= haversine (32781e-3, -96798e-3) (y d', x d')).
Proof.
  assert (H1 : (exists e, nearest_nodes remote_up islands (-96798e-3) 32781e-3
                          = Err e)
               \/ (exists nid,
                     nearest_nodes remote_up islands (-96798e-3) 32781e-3
                     = Ok nid /\ assoc nid (nodes islands) = None))
    by (left; eexists; reflexivity).
  assert (H2 : nodes islands <> []) by discriminate.
  split; [exact H1|]. split; [exact H2|].
  exact (proj2 (proj2 (nearest_node_fast_scans_when_the_library_fails
                         remote_up islands 32781e-3 (-96798e-3)) H1) H2).
Defined.

(** ** Searches and results of a local attempt *)

(** Splits a run into the cases of the answers of the library. *)
Ltac crack :=
  repeat (cbn [Effects.bind call ret lift try_except events outcome fst snd
               app filter is_search searches usable negb];
          match goal with
          | |- context [match ?t with _ => _ end] =>
              lazymatch t with
              | context [match _ with _ => _ end] => fail
              | _ => destruct t eqn:?
              end
          end);
  cbn [Effects.bind call ret lift try_except events outcome fst snd
       app filter is_search searches usable negb].

Ltac pick i j k :=
  exists i, j, k; split; [reflexivity | lia].

(** The searches of a local attempt follow the order of the
    strategies: by travel time, then by length, then unweighted; each
    weighted search is made at most twice (the second entry point of
    OSMnx after the first has raised), the unweighted one at most once,
    and none before the one of the strategy before it. *)
Theorem searches_follow_the_order_of_the_strategies :
  forall (lib : Library) (start_lat start_lng end_lat end_lng buffer_km : R),
    exists i j k : nat,
      searches
        (events (route_via_osmnx lib start_lat start_lng end_lat end_lng
                   buffer_km))
      = repeat (WeightedSearch by_travel_time) i
        ++ repeat (WeightedSearch by_length) j
        ++ repeat UnweightedSearch k
      /\ (i <= 2 /\ j <= 2 /\ k <= 1 /\ (0 < j -> 0 < i) /\ (0 < k -> 0 < j))%nat.
Proof.
  intros lib start_lat start_lng end_lat end_lng buffer_km.
  unfold route_via_osmnx, build_corridor, nearest_node_fast, undirected_view,
    weighted_path, searches.
  crack;
    first [ pick 0%nat 0%nat 0%nat | pick 1%nat 0%nat 0%nat
          | pick 2%nat 0%nat 0%nat | pick 1%nat 1%nat 0%nat
          | pick 1%nat 2%nat 0%nat | pick 2%nat 1%nat 0%nat
          | pick 2%nat 2%nat 0%nat | pick 1%nat 1%nat 1%nat
          | pick 1%nat 2%nat 1%nat | pick 2%nat 1%nat 1%nat
          | pick 2%nat 2%nat 1%nat ].
Qed.

Lemma found_is_route poly m s : is_route (found poly m s).
Proof.
  unfold is_route, found. cbn [meters seconds error detail].
  split; [eauto | split; reflexivity].
Qed.

(** What a local attempt returns is a route. *)
Lemma route_via_osmnx_gives_routes lib a b c d buf r :
  outcome (route_via_osmnx lib a b c d buf) = Ok (Some r) -> is_route r.
Proof.
  unfold route_via_osmnx, build_corridor, nearest_node_fast, undirected_view,
    weighted_path.
  crack; intros [=]; subst; apply found_is_route.
Qed.

Lemma route_via_osrm_gives_routes lib a b c d timeout r :
  outcome (route_via_osrm lib a b c d timeout) = Ok (Some r) -> is_route r.
Proof.
  unfold route_via_osrm.
  crack; intros [=]; subst; apply found_is_route.
Qed.

(** ** The remote route *)

Lemma route_via_osrm_events lib start_lat start_lng end_lat end_lng timeout :
  events (route_via_osrm lib start_lat start_lng end_lat end_lng timeout)
  = [OsrmGet start_lng start_lat end_lng end_lat timeout].
Proof.
  unfold route_via_osrm.
  destruct (osrm_get lib start_lng start_lat end_lng end_lat timeout)
    as [data|e]; [|reflexivity].
  cbn [call Effects.bind].
  destruct (code data) as [c|], (routes data) as [|first others];
    try destruct (String.eqb c "Ok"); reflexivity.
Qed.

(** [route_via_osrm] makes one request, with the longitudes before the
    latitudes; an exception of the request leaves it; an answer whose
    code is not "Ok" or that has no route gives no result; otherwise
    the result is made of the first route alone: its [lon, lat] pairs
    as points, its distance as meters, its duration as seconds. *)
Theorem route_via_osrm_reads_the_first_route :
  forall (lib : Library) (start_lat start_lng end_lat end_lng timeout : R),
    let answer := osrm_get lib start_lng start_lat end_lng end_lat timeout in
    let run := route_via_osrm lib start_lat start_lng end_lat end_lng timeout in
    events run = [OsrmGet start_lng start_lat end_lng end_lat timeout] /\
    (forall e, answer = Err e -> outcome run = Err e) /\
    (forall data,
       answer = Ok data -> code data <> Some "Ok"%string \/ routes data = [] ->
       outcome run = Ok None) /\
    (forall data first others,
       answer = Ok data -> code data = Some "Ok"%string ->
       routes data = first :: others ->
       outcome run
       = Ok (Some {| polyline :=
                       map (fun ll => {| lat := snd ll; lng := fst ll |})
                         (coordinates first);
                     meters := Some (distance first);
                     seconds := Some (duration first);
                     error := None; detail := None |})).
Proof.
  intros lib start_lat start_lng end_lat end_lng timeout answer run.
  subst run.
  split; [apply route_via_osrm_events|].
  unfold route_via_osrm. fold answer.
  split; [|split].
  - intros e ->. reflexivity.
  - intros data -> H. cbn [call Effects.bind].
    destruct (code data) as [c|], (routes data) as [|first others];
      try reflexivity.
    destruct (String.eqb_spec c "Ok") as [->|]; [|reflexivity].
    destruct H as [H|H]; [contradiction | discriminate].
  - intros data first others -> Hc Hr. cbn [call Effects.bind].
    rewrite Hc, Hr. reflexivity.
Qed.

(** The answer with two routes of the sample library. *)
Lemma route_via_osrm_witness :
  osrm_get remote_up (-96798e-3) 32781e-3 (-96810e-3) 32790e-3 8
  = Ok {| code := Some "Ok"%string;
          routes :=
            [ {| coordinates := [(-96798e-3, 32781e-3);
                                 (-96810e-3, 32790e-3)];
                 distance := 1500; duration := 120 |};
              {| coordinates := []; distance := 0; duration := 0 |} ] |} /\
  outcome (route_via_osrm remote_up 32781e-3 (-96798e-3) 32790e-3
             (-96810e-3) 8)
  = Ok (Some {| polyline := [ {| lat := 32781e-3; lng := -96798e-3 |};
                              {| lat := 32790e-3; lng := -96810e-3 |} ];
                meters := Some 1500; seconds := Some 120;
                error := None; detail := None |}).
Proof.
  split; [reflexivity|].
  exact (proj2 (proj2 (proj2 (route_via_osrm_reads_the_first_route remote_up
           32781e-3 (-96798e-3) 32790e-3 (-96810e-3) 8)))
           _ _ _ eq_refl eq_refl eq_refl).
Defined.

Lemma remote_attempt_returns lib a b c d engine :
  exists o, outcome (remote_attempt lib a b c d engine) = Ok o.
Proof.
  unfold remote_attempt. destruct (tries_remote engine); [|simpl; eauto].
  destruct (outcome (route_via_osrm lib a b c d 8)) as [o|e] eqn:E.
  - rewrite (try_ok _ _ _ E). simpl. eauto.
  - rewrite (try_err _ _ _ E). simpl. eauto.
Qed.

(** With the engine "auto" or "osrm" and a remote route, the run of
    [route] is the one request to OSRM, with a timeout of 8 s, and its
    result is that route: nothing is done on the local graph. *)
Theorem remote_route_ends_the_run :
  forall (lib : Library) (start_lat start_lng end_lat end_lng : R)
         (buffer_km : option R) (engine : string) (r : RouteResult),
    tries_remote engine = true ->
    outcome (route_via_osrm lib start_lat start_lng end_lat end_lng 8)
    = Ok (Some r) ->
    route lib start_lat start_lng end_lat end_lng buffer_km engine
    = ([OsrmGet start_lng start_lat end_lng end_lat 8], Ok r).
Proof.
  intros lib start_lat start_lng end_lat end_lng buffer_km engine r He H.
  pose proof (route_via_osrm_events lib
                start_lat start_lng end_lat end_lng 8) as Ev.
  unfold route, route_body, remote_attempt. rewrite He.
  rewrite (run_eta (route_via_osrm lib start_lat start_lng end_lat end_lng 8)).
  rewrite Ev, H. reflexivity.
Qed.

(** The first scenario of the route: engine "osrm", a remote route of
    1500 m and 120 s. *)
Lemma remote_route_ends_the_run_witness :
  tries_remote "osrm" = true /\
  outcome (route_via_osrm remote_up 32781e-3 (-96798e-3) 32790e-3
             (-96810e-3) 8)
  = Ok (Some (found [ {| lat := 32781e-3; lng := -96798e-3 |};
                      {| lat := 32790e-3; lng := -96810e-3 |} ] 1500 120)) /\
  route remote_up 32781e-3 (-96798e-3) 32790e-3 (-96810e-3) None "osrm"
  = ([OsrmGet (-96798e-3) 32781e-3 (-96810e-3) 32790e-3 8],
     Ok (found [ {| lat := 32781e-3; lng := -96798e-3 |};
                 {| lat := 32790e-3; lng := -96810e-3 |} ] 1500 120)).
Proof.
  assert (He : tries_remote "osrm" = true) by reflexivity.
  assert (H : outcome (route_via_osrm remote_up 32781e-3 (-96798e-3) 32790e-3
                         (-96810e-3) 8)
              = Ok (Some (found [ {| lat := 32781e-3; lng := -96798e-3 |};
                                  {| lat := 32790e-3; lng := -96810e-3 |} ]
                            1500 120))) by reflexivity.
  split; [exact He|]. split; [exact H|].
  exact (remote_route_ends_the_run remote_up 32781e-3 (-96798e-3) 32790e-3
           (-96810e-3) None "osrm" _ He H).
Defined.

(** ** What [route] asks of the remote service, and how often it tries
    the local graph *)

Lemma route_via_osmnx_free_of_osrm lib a b c d buf :
  free_of is_osrm_get (route_via_osmnx lib a b c d buf).
Proof.
  unfold route_via_osmnx, build_corridor, nearest_node_fast, undirected_view,
    weighted_path.
  quiet.
Qed.

Lemma local_attempts_free_of_osrm lib a b c d buf mults :
  free_of is_osrm_get (local_attempts lib a b c d buf mults).
Proof.
  induction mults as [|mult rest IH]; cbn [local_attempts].
  - apply free_of_ret.
  - apply free_of_bind; [apply route_via_osmnx_free_of_osrm|].
    intros [r|]; [apply free_of_ret | exact IH].
Qed.

Lemma local_part_free_of_osrm lib a b c d buf :
  free_of is_osrm_get
    (Effects.bind (local_attempts lib a b c d buf multipliers)
       (fun res => match res with
                   | Some r => ret r
                   | None => ret no_path
                   end)).
Proof.
  apply free_of_bind; [apply local_attempts_free_of_osrm|].
  intros [r|]; apply free_of_ret.
Qed.

(** With an engine other than "auto" and "osrm", [route] sends nothing
    to the remote service; with one of the two, its run starts with the
    one request (longitudes before latitudes, timeout 8 s) and has no
    other. *)
Theorem route_asks_the_remote_service_once_or_never :
  forall (lib : Library) (start_lat start_lng end_lat end_lng : R)
         (buffer_km : option R) (engine : string),
    (tries_remote engine = false ->
     free_of is_osrm_get
       (route lib start_lat start_lng end_lat end_lng buffer_km engine)) /\
    (tries_remote engine = true ->
     exists rest,
       events (route lib start_lat start_lng end_lat end_lng buffer_km engine)
       = OsrmGet start_lng start_lat end_lng end_lat 8 :: rest
       /\ forallb (fun ev => negb (is_osrm_get ev)) rest = true).
Proof.
  intros lib start_lat start_lng end_lat end_lng buffer_km engine.
  destruct (route_of_body lib start_lat start_lng end_lat end_lng
              buffer_km engine) as [_ Ev].
  pose proof (local_part_free_of_osrm lib start_lat start_lng end_lat end_lng
                (base_buffer start_lat start_lng end_lat end_lng buffer_km))
    as Hloc.
  split; intros He.
  - unfold free_of. rewrite Ev. unfold route_body, remote_attempt.
    rewrite He. cbn [ret Effects.bind].
    destruct (Effects.bind _ _) as [t r] eqn:E in Hloc |- *.
    exact Hloc.
  - rewrite Ev. unfold route_body, remote_attempt. rewrite He.
    pose proof (route_via_osrm_events lib start_lat start_lng end_lat
                  end_lng 8) as Eo.
    destruct (route_via_osrm lib start_lat start_lng end_lat end_lng 8)
      as [t [[r|]|e]]; cbn [events fst] in Eo; subst t;
      cbn [try_except ret Effects.bind app events fst].
    + exists []. split; reflexivity.
    + destruct (Effects.bind _ _) as [t r] eqn:E in Hloc |- *.
      exists t. split; [reflexivity | exact Hloc].
    + destruct (Effects.bind _ _) as [t r] eqn:E in Hloc |- *.
      exists t. split; [reflexivity | exact Hloc].
Qed.

(** The engine "local" over the sample library, and the engine "auto". *)
Lemma route_asks_the_remote_service_witness :
  (tries_remote "local" = false /\
   free_of is_osrm_get
     (route local_only 32781e-3 (-96798e-3) 32790e-3 (-96810e-3)
        (Some 10) "local")) /\
  (tries_remote "auto" = true /\
   exists rest,
     events (route local_only 32781e-3 (-96798e-3) 32790e-3 (-96810e-3)
               (Some 10) "auto")
     = OsrmGet (-96798e-3) 32781e-3 (-96810e-3) 32790e-3 8 :: rest
     /\ forallb (fun ev => negb (is_osrm_get ev)) rest = true).
Proof.
  assert (H1 : tries_remote "local" = false) by reflexivity.
  assert (H2 : tries_remote "auto" = true) by reflexivity.
  split; (split; [assumption|]).
  - exact (proj1 (route_asks_the_remote_service_once_or_never local_only
             32781e-3 (-96798e-3) 32790e-3 (-96810e-3) (Some 10) "local") H1).
  - exact (proj2 (route_asks_the_remote_service_once_or_never local_only
             32781e-3 (-96798e-3) 32790e-3 (-96810e-3) (Some 10) "auto") H2).
Defined.

Section Attempts.

Variable lib : Library.
Variables start_lat start_lng end_lat end_lng : R.

Lemma local_attempts_prefix buf mults :
  exists k,
    (k <= List.length mults)%nat /\
    attempted
      (events (local_attempts lib start_lat start_lng end_lat end_lng buf
                 mults))
    = firstn k (map (fun mult => py_min 60 (buf * mult)) mults).
Proof.
  induction mults as [|mult rest IH].
  - exists 0%nat. split; [apply Nat.le_refl | reflexivity].
  - destruct (outcome (route_via_osmnx lib start_lat start_lng end_lat end_lng
                         (py_min 60 (buf * mult)))) as [[r|]|e] eqn:E.
    + destruct (local_attempts_found lib _ _ _ _ buf mult rest r E) as [_ ->].
      exists 1%nat. split; [simpl; lia | reflexivity].
    + destruct (local_attempts_next lib _ _ _ _ buf mult rest E) as [_ ->].
      destruct IH as (k & Hk & ->).
      exists (S k). split; [simpl; lia | reflexivity].
    + destruct (local_attempts_raised lib _ _ _ _ buf mult rest e E) as [_ ->].
      exists 1%nat. split; [simpl; lia | reflexivity].
Qed.

Lemma local_attempts_give_routes buf mults r :
  outcome (local_attempts lib start_lat start_lng end_lat end_lng buf mults)
  = Ok (Some r) -> is_route r.
Proof.
  induction mults as [|mult rest IH]; [discriminate|].
  destruct (outcome (route_via_osmnx lib start_lat start_lng end_lat end_lng
                       (py_min 60 (buf * mult)))) as [[r'|]|e] eqn:E.
  - destruct (local_attempts_found lib _ _ _ _ buf mult rest r' E) as [-> _].
    intros [= <-]. exact (route_via_osmnx_gives_routes _ _ _ _ _ _ _ E).
  - destruct (local_attempts_next lib _ _ _ _ buf mult rest E) as [-> _].
    exact IH.
  - destruct (local_attempts_raised lib _ _ _ _ buf mult rest e E) as [-> _].
    discriminate.
Qed.

Lemma remote_attempt_gives_routes engine r :
  outcome (remote_attempt lib start_lat start_lng end_lat end_lng engine)
  = Ok (Some r) -> is_route r.
Proof.
  unfold remote_attempt. destruct (tries_remote engine); [|discriminate].
  destruct (outcome (route_via_osrm lib start_lat start_lng end_lat end_lng 8))
    as [o|e] eqn:E.
  - rewrite (try_ok _ _ _ E). cbn [outcome snd]. intros [= ->].
    exact (route_via_osrm_gives_routes _ _ _ _ _ _ _ E).
  - rewrite (try_err _ _ _ E). discriminate.
Qed.

End Attempts.

Lemma Forall_firstn_capped k (l : list R) :
  Forall (fun b => b <= 60) l -> Forall (fun b => b <= 60) (firstn k l).
Proof.
  intros H. revert k. induction H as [|a l Ha Hl IH]; intros [|k];
    cbn [firstn]; constructor; auto.
Qed.

(** Whatever the library answers, [route] makes at most three local
    attempts: their buffers are the first ones of base x 1.0,
    base x 1.6, base x 2.3, each capped at 60, in this order; no attempt
    has a buffer above 60 km. *)
Theorem route_makes_at_most_three_capped_attempts :
  forall (lib : Library) (start_lat start_lng end_lat end_lng : R)
         (buffer_km : option R) (engine : string),
    let base := base_buffer start_lat start_lng end_lat end_lng buffer_km in
    let run := route lib start_lat start_lng end_lat end_lng buffer_km engine in
    exists k,
      (k <= 3)%nat /\
      attempted (events run)
      = firstn k [py_min 60 (base * 1); py_min 60 (base * (16 / 10));
                  py_min 60 (base * (23 / 10))] /\
      Forall (fun b => b <= 60) (attempted (events run)).
Proof.
  intros lib start_lat start_lng end_lat end_lng buffer_km engine base run.
  destruct (route_of_body lib start_lat start_lng end_lat end_lng
              buffer_km engine) as [_ Ev].
  fold run in Ev.
  assert (Hcap : Forall (fun b => b <= 60)
                   [py_min 60 (base * 1); py_min 60 (base * (16 / 10));
                    py_min 60 (base * (23 / 10))]).
  { constructor; [apply py_min_60_cap|].
    constructor; [apply py_min_60_cap|].
    constructor; [apply py_min_60_cap | constructor]. }
  destruct (remote_attempt_returns lib start_lat start_lng end_lat end_lng
              engine) as [[r|] Hr].
  - exists 0%nat. split; [lia|]. rewrite Ev. unfold route_body.
    rewrite (events_bind_ok _ _ _ Hr), attempted_app, remote_attempted.
    split; [reflexivity | constructor].
  - destruct (body_of_loop lib start_lat start_lng end_lat end_lng
                buffer_km engine Hr) as [_ Be].
    fold base in Be.
    destruct (local_attempts_prefix lib start_lat start_lng end_lat end_lng
                base multipliers) as (k & Hk & Hp).
    exists k. rewrite Ev, Be, Hp. split; [exact Hk|].
    split; [reflexivity|]. apply Forall_firstn_capped, Hcap.
Qed.

(** [route] returns either a route, with meters and seconds and without
    an error, or a failure: an empty polyline without meters and
    seconds, with the error "no_path" and no detail or the error
    "server_error" and a detail. *)
Theorem route_returns_a_route_or_a_failure :
  forall (lib : Library) (start_lat start_lng end_lat end_lng : R)
         (buffer_km : option R) (engine : string),
    exists r,
      outcome (route lib start_lat start_lng end_lat end_lng buffer_km engine)
      = Ok r
      /\ (is_route r /\ ~ is_failure r \/ is_failure r /\ ~ is_route r).
Proof.
  intros lib start_lat start_lng end_lat end_lng buffer_km engine.
  assert (Hr : forall r, is_route r -> is_route r /\ ~ is_failure r).
  { intros r H. split; [exact H|].
    destruct H as ((m & s & Hm & Hs) & He & Hd).
    intros (_ & Hm' & _). congruence. }
  assert (Hf : forall r, is_failure r -> is_failure r /\ ~ is_route r).
  { intros r H. split; [exact H|].
    destruct H as (_ & _ & _ & [[He _]|[He _]]); intros (_ & He' & _);
      congruence. }
  destruct (route_of_body lib start_lat start_lng end_lat end_lng
              buffer_km engine) as [Ho _].
  rewrite Ho.
  destruct (outcome (route_body _ _ _ _ _ _ _)) as [r|e] eqn:B.
  - exists r. split; [reflexivity|].
    destruct (remote_attempt_returns lib start_lat start_lng end_lat end_lng
                engine) as [[r'|] Hrem].
    + left. apply Hr. unfold route_body in B.
      rewrite (outcome_bind_ok _ _ _ Hrem) in B. injection B as <-.
      exact (remote_attempt_gives_routes _ _ _ _ _ _ _ Hrem).
    + destruct (body_of_loop lib start_lat start_lng end_lat end_lng
                  buffer_km engine Hrem) as [Bo _].
      rewrite Bo in B.
      destruct (outcome (local_attempts _ _ _ _ _ _ _)) as [[r'|]|e] eqn:L;
        try discriminate; injection B as <-.
      * left. apply Hr. exact (local_attempts_give_routes _ _ _ _ _ _ _ _ L).
      * right. apply Hf. unfold is_failure, no_path.
        cbn [polyline meters seconds error detail]. auto 6.
  - exists (server_error e). split; [reflexivity|].
    right. apply Hf. unfold is_failure, server_error.
    cbn [polyline meters seconds error detail].
    repeat split. right. eauto.
Qed.

(** ** Tile store *)

Import TileStore.

Section TileRuns.

Context {A B : Type}.

Lemma tbind_ok (m : T A) (f : A -> T B) a :
  snd m = Ok a -> tbind m f = (fst m ++ fst (f a), snd (f a)).
Proof.
  destruct m as [t r]. simpl. intros ->. simpl. destruct (f a); reflexivity.
Qed.

Lemma tbind_err (m : T A) (f : A -> T B) e :
  snd m = Err e -> tbind m f = (fst m, Err e).
Proof. destruct m as [t r]. simpl. intros ->. reflexivity. Qed.

End TileRuns.

(** Splits a run of the tile store into the cases of the answers of
    the library. *)
Ltac tstep := cbn [tbind tcall tret ttry fst snd app].

Ltac tcrack :=
  unfold or_else, attempt, tbind, ttry, tcall, tret;
  repeat (cbn [fst snd app];
          match goal with
          | |- context [match ?t with _ => _ end] =>
              lazymatch t with
              | context [match _ with _ => _ end] => fail
              | _ => destruct t eqn:?
              end
          end);
  cbn [fst snd app].

(** [build_graph_from_bbox_compat] returns the graph of one of its five
    calls; the first call alone is made when it is there and returns;
    and it raises only with the exception of the last call,
    [ox.graph_from_polygon], after every call that is there has
    raised. *)
Theorem build_graph_from_bbox_compat_tries_in_order :
  forall (lib : TileLibrary) (b : bbox),
    let run := build_graph_from_bbox_compat lib b in
    (forall G,
       has_graph_graph_from_bbox lib = true ->
       graph_graph_from_bbox lib b = Ok G ->
       run = ([GraphGraphFromBbox], Ok G)) /\
    (forall G,
       snd run = Ok G ->
       graph_graph_from_bbox lib b = Ok G \/
       graph_from_bbox_tuple lib b = Ok G \/
       graph_from_bbox_positional lib b = Ok G \/
       graph_graph_from_polygon lib b = Ok G \/
       graph_from_polygon lib b = Ok G) /\
    (forall e,
       snd run = Err e ->
       graph_from_polygon lib b = Err e /\
       (has_graph_graph_from_bbox lib = true ->
        exists e', graph_graph_from_bbox lib b = Err e') /\
       (has_graph_from_bbox lib = true ->
        (exists e', graph_from_bbox_tuple lib b = Err e') /\
        (exists e', graph_from_bbox_positional lib b = Err e')) /\
       (has_graph_graph_from_polygon lib = true ->
        exists e', graph_graph_from_polygon lib b = Err e')).
Proof.
  intros lib b run. subst run. unfold build_graph_from_bbox_compat.
  split; [|split].
  - intros G H1 H2. unfold attempt, or_else. rewrite H1, H2. reflexivity.
  - intros G. tcrack; intros [=]; subst; auto 6.
  - intros e. tcrack; intros [=]; subst;
      repeat split; try discriminate; eauto.
     
Qed.

(** Witness of [build_graph_from_bbox_compat_tries_in_order]: with the
    sample library the positional call is the one that returns. *)
Lemma build_graph_from_bbox_compat_witness :
  graph_graph_from_bbox Tiles.osmnx Tiles.dallas = Ok Tiles.chain_and_island \/
  graph_from_bbox_tuple Tiles.osmnx Tiles.dallas = Ok Tiles.chain_and_island \/
  graph_from_bbox_positional Tiles.osmnx Tiles.dallas
    = Ok Tiles.chain_and_island \/
  graph_graph_from_polygon Tiles.osmnx Tiles.dallas
    = Ok Tiles.chain_and_island \/
  graph_from_polygon Tiles.osmnx Tiles.dallas = Ok Tiles.chain_and_island.
Proof.
  apply (proj1 (proj2 (build_graph_from_bbox_compat_tries_in_order
                         Tiles.osmnx Tiles.dallas))).
  reflexivity.
Defined.

Lemma longest_fold (l pre post : list (list node)) (best : list node) :
  (forall x, In x pre -> (List.length x < List.length best)%nat) ->
  (forall x, In x post -> (List.length x <= List.length best)%nat) ->
  exists before after,
    pre ++ best :: post ++ l = before ++ longest best l :: after /\
    (forall x, In x before ->
       (List.length x < List.length (longest best l))%nat) /\
    (forall x, In x after ->
       (List.length x <= List.length (longest best l))%nat).
Proof.
  unfold longest. revert pre post best.
  induction l as [|x l IH]; intros pre post best Hpre Hpost.
  - exists pre, post. rewrite app_nil_r. auto.
  - cbn [fold_left].
    destruct (Nat.ltb_spec (List.length best) (List.length x)) as [Hlt|Hge].
    + destruct (IH (pre ++ best :: post) [] x) as (bf & af & E & Hb & Ha).
      * intros z Hz. apply in_app_or in Hz. destruct Hz as [Hz|[<-|Hz]].
        -- specialize (Hpre z Hz). lia.
        -- exact Hlt.
        -- specialize (Hpost z Hz). lia.
      * intros z [].
      * exists bf, af. split; [|auto].
        rewrite <- E. cbn [app]. rewrite <- app_assoc. reflexivity.
    + destruct (IH pre (post ++ [x]) best) as (bf & af & E & Hb & Ha).
      * exact Hpre.
      * intros z Hz. apply in_app_or in Hz. destruct Hz as [Hz|[<-|[]]].
        -- auto.
        -- exact Hge.
      * exists bf, af. split; [|auto].
        rewrite <- E. rewrite <- app_assoc. reflexivity.
Qed.

Lemma longest_first (c : list node) (others : list (list node)) :
  exists before after,
    c :: others = before ++ longest c others :: after /\
    (forall x, In x before ->
       (List.length x < List.length (longest c others))%nat) /\
    (forall x, In x after ->
       (List.length x <= List.length (longest c others))%nat).
Proof.
  destruct (longest_fold others [] [] c) as (bf & af & E & Hb & Ha).
  - intros x [].
  - intros x [].
  - exists bf, af. auto.
Qed.

Lemma subgraph_nodes (G : graph) (keep : list node) :
  (number_of_nodes (subgraph G keep) <= number_of_nodes G)%nat /\
  (forall nd, In nd (nodes (subgraph G keep)) ->
     In nd (nodes G) /\ mem (fst nd) keep = true).
Proof.
  unfold number_of_nodes, subgraph. cbn [nodes]. split.
  - apply filter_length_le.
  - intros nd H. apply filter_In in H. exact H.
Qed.

Lemma subgraph_edges (G : graph) (keep : list node) (u v : node) :
  adj (subgraph G keep) u v = adj G u v \/
  adj (subgraph G keep) u v = [].
Proof.
  unfold subgraph. cbn [adj]. destruct (mem u keep && mem v keep); auto.
Qed.

Lemma prune_to_giant_cases (lib : TileLibrary) (G : graph) :
  (exists UG c others,
      to_undirected_copy lib G = Ok UG /\
      connected_components lib UG = Ok (c :: others) /\
      snd (prune_to_giant lib G) = Ok (subgraph G (longest c others))) \/
  ((forall UG c others,
       to_undirected_copy lib G = Ok UG ->
       connected_components lib UG <> Ok (c :: others)) /\
   snd (prune_to_giant lib G) = Ok G).
Proof.
  unfold prune_to_giant.
  destruct (to_undirected_copy lib G) as [UG|e] eqn:EU; cbn.
  - destruct (connected_components lib UG) as [[|c others]|e] eqn:EC; cbn.
    + right. split; [|reflexivity].
      intros UG' c others [= <-]. rewrite EC. discriminate.
    + left. exists UG, c, others. auto.
    + right. split; [|reflexivity].
      intros UG' c others [= <-]. rewrite EC. discriminate.
  - right. split; [|reflexivity]. intros UG c others [=].
Qed.

Lemma prune_to_giant_ok (lib : TileLibrary) (G : graph) :
  exists G', snd (prune_to_giant lib G) = Ok G'.
Proof.
  destruct (prune_to_giant_cases lib G) as [(UG & c & others & _ & _ & E)|[_ E]];
    eauto.
Qed.

(** [prune_to_giant] never raises.  When the components are found it
    returns the subgraph on the first of the largest of them: every
    component listed before it is strictly smaller, none after it is
    larger; otherwise it returns the graph itself.  Either way no node
    and no edge is added. *)
Theorem prune_to_giant_keeps_the_first_largest_component :
  forall (lib : TileLibrary) (G : graph),
  exists G',
    snd (prune_to_giant lib G) = Ok G' /\
    (number_of_nodes G' <= number_of_nodes G)%nat /\
    (forall nd, In nd (nodes G') -> In nd (nodes G)) /\
    (forall u v, adj G' u v = adj G u v \/ adj G' u v = []) /\
    (forall UG c others,
       to_undirected_copy lib G = Ok UG ->
       connected_components lib UG = Ok (c :: others) ->
       exists before giant after,
         c :: others = before ++ giant :: after /\
         (forall x, In x before -> (List.length x < List.length giant)%nat) /\
         (forall x, In x after -> (List.length x <= List.length giant)%nat) /\
         G' = subgraph G giant /\
         (forall nd, In nd (nodes G') -> mem (fst nd) giant = true)) /\
    ((forall UG c others,
        to_undirected_copy lib G = Ok UG ->
        connected_components lib UG <> Ok (c :: others)) ->
     G' = G).
Proof.
  intros lib G.
  destruct (prune_to_giant_cases lib G)
    as [(UG & c & others & EU & EC & E)|[Hno E]].
  - exists (subgraph G (longest c others)).
    split; [exact E|].
    split; [apply subgraph_nodes|].
    split; [intros nd H; apply (subgraph_nodes G (longest c others)), H|].
    split; [apply subgraph_edges|].
    split.
    + intros UG' c' others' EU' EC'.
      rewrite EU in EU'. injection EU' as <-.
      rewrite EC in EC'. injection EC' as <- <-.
      destruct (longest_first c others) as (bf & af & Esplit & Hb & Ha).
      exists bf, (longest c others), af.
      repeat split; auto.
      intros nd H. apply (subgraph_nodes G (longest c others)), H.
    + intros Hno. exfalso. exact (Hno UG c others EU EC).
  - exists G. split; [exact E|].
    split; [lia|]. split; [auto|]. split; [auto|]. split; [|auto].
    intros UG c others EU EC. exfalso. exact (Hno UG c others EU EC).
Qed.

Lemma add_speeds_ok (lib : TileLibrary) (G : graph) :
  exists G', snd (add_speeds lib G) = Ok G'.
Proof. unfold add_speeds. tcrack; eauto. Qed.

Lemma polygon_fallback_cases (lib : TileLibrary) (b : bbox) (G : graph) :
  exists G',
    snd (polygon_fallback lib b G) = Ok G' /\
    (G' = G \/ (number_of_nodes G < number_of_nodes G')%nat).
Proof.
  unfold polygon_fallback.
  assert (forall r : result graph, forall ev,
            exists G',
              snd (ttry
                     (tbind (tcall ev r) (fun G2 =>
                      tbind (tcall AddEdgeLengths (add_edge_lengths lib G2))
                        (fun G2 =>
                      tbind (add_speeds lib G2) (fun G2 =>
                      tret (if (number_of_nodes G <? number_of_nodes G2)%nat
                            then G2 else G)))))
                     (fun _ => tret G)) = Ok G' /\
              (G' = G \/ (number_of_nodes G < number_of_nodes G')%nat)) as H.
  { intros [G2|e] ev; [|tstep; eauto].
    tstep. destruct (add_edge_lengths lib G2) as [G3|e]; [|tstep; eauto].
    tstep. destruct (add_speeds_ok lib G3) as (G4 & E).
    destruct (add_speeds lib G3) as [t r]. cbn [snd] in E. subst r. tstep.
    destruct (Nat.ltb_spec (number_of_nodes G) (number_of_nodes G4)); eauto. }
  destruct (has_graph_graph_from_polygon lib); apply H.
Qed.

(** The polygon fallback never raises, and it never gives a graph with
    fewer nodes: it returns the graph it was given unless the polygon's
    graph has strictly more nodes. *)
Theorem polygon_fallback_never_shrinks_the_graph :
  forall (lib : TileLibrary) (b : bbox) (G : graph),
  exists G',
    snd (polygon_fallback lib b G) = Ok G' /\
    (G' = G \/ (number_of_nodes G < number_of_nodes G')%nat).
Proof. intros lib b G. apply polygon_fallback_cases. Qed.

(** Building a tile raises exactly when the download raises, or
    [ox.distance.add_edge_lengths] raises on the downloaded graph, and
    with that exception; the speeds, the polygon fallback and the
    pruning never make it fail. *)
Theorem build_tile_raises_only_with_the_download :
  forall (lib : TileLibrary) (b : bbox) (e : exn),
    snd (build_tile lib b) = Err e <->
    (snd (build_graph_from_bbox_compat lib b) = Err e \/
     exists G, snd (build_graph_from_bbox_compat lib b) = Ok G /\
               add_edge_lengths lib G = Err e).
Proof.
  intros lib b e. unfold build_tile.
  destruct (build_graph_from_bbox_compat lib b) as [t [G|e0]]; tstep.
  - destruct (add_edge_lengths lib G) as [G1|e1] eqn:EL; tstep.
    + destruct (add_speeds_ok lib G1) as (G2 & E2).
      destruct (add_speeds lib G1) as [t2 r2]. cbn [snd] in E2. subst r2.
      tstep.
      assert (forall m : T graph,
                 (exists G3, snd m = Ok G3) ->
                 snd (tbind m (fun G => prune_to_giant lib G)) <> Err e)
        as Tail.
      { intros [t3 r3] (G3 & E3). cbn [snd] in E3. subst r3. tstep.
        destruct (prune_to_giant_ok lib G3) as (G4 & E4).
        destruct (prune_to_giant lib G3) as [t4 r4]. cbn [snd] in E4.
        subst r4. discriminate. }
      assert (snd (tbind
                     (if (number_of_nodes G2 <? MIN_NODES)%nat
                      then polygon_fallback lib b G2 else tret G2)
                     (fun G => prune_to_giant lib G)) <> Err e) as Hn.
      { apply Tail. destruct (number_of_nodes G2 <? MIN_NODES)%nat.
        - destruct (polygon_fallback_cases lib b G2) as (G3 & E3 & _). eauto.
        - eexists. reflexivity. }
      destruct (tbind
                  (if (number_of_nodes G2 <? MIN_NODES)%nat
                   then polygon_fallback lib b G2 else tret G2)
                  (fun G => prune_to_giant lib G)) as [t3 r3].
      cbn [snd] in *. split.
      * intros H. destruct r3; [discriminate | congruence].
      * intros [H|(G' & [= <-] & H)]; [discriminate | congruence].
    + tstep. split.
      * intros [= <-]. right. eauto.
      * intros [H|(G' & [= <-] & H)]; [discriminate | congruence].
  - tstep. split.
    + intros [= <-]. auto.
    + intros [[= <-]|(G' & H & _)]; [reflexivity | discriminate].
Qed.

Lemma upd_same {A} (m : string -> option A) (k : string) (a : A) :
  upd m k a k = Some a.
Proof. unfold upd. rewrite String.eqb_refl. reflexivity. Qed.

Lemma upd_other {A} (m : string -> option A) (k k' : string) (a : A) :
  k' <> k -> upd m k a k' = m k'.
Proof.
  intros H. unfold upd. apply String.eqb_neq in H. rewrite H. reflexivity.
Qed.

Lemma upd_kept {A} (m : string -> option A) (k k' : string) (a c : A) :
  m k = None -> m k' = Some c -> upd m k a k' = Some c.
Proof.
  intros Hk Hk'. rewrite upd_other; [exact Hk'|]. congruence.
Qed.

(** Splits a call of [load_or_build_bbox] into its ways through the
    cache, the file and the building. *)
Ltac open_load lib st b :=
  unfold load_or_build_bbox, FORCE_REBUILD;
  fold (key_of b); fold (file_of b);
  destruct (GRAPH_CACHE st (key_of b)) as [?G|] eqn:?Hcache;
  [|destruct (tiles st (file_of b)) as [[?G|?e]|] eqn:?Hfile;
    [| |destruct (build_tile lib b) as [?t [?G|?e]] eqn:?Hbuild;
        [destruct (write_tile lib (file_of b) _) as [|?e|?e ?c] eqn:?Hwrite|]]];
  cbn [fst snd tret tcall GRAPH_CACHE tiles].

(** Once [load_or_build_bbox] has returned a graph, a call for any box
    with the same tile key returns that graph from the cache: nothing
    is read, downloaded or written, and the store stays as it is. *)
Theorem load_or_build_bbox_serves_a_loaded_tile_from_memory :
  forall (lib : TileLibrary) (st : store) (b b' : bbox) (G : graph),
    snd (fst (load_or_build_bbox lib st b)) = Ok G ->
    key_of b' = key_of b ->
    load_or_build_bbox lib (snd (load_or_build_bbox lib st b)) b'
    = (([], Ok G), snd (load_or_build_bbox lib st b)).
Proof.
  intros lib st b b' G H K.
  assert (GRAPH_CACHE (snd (load_or_build_bbox lib st b)) (key_of b) = Some G)
    as Hit.
  { revert H. open_load lib st b; intros [= <-];
      try apply upd_same; assumption. }
  unfold load_or_build_bbox at 1. unfold FORCE_REBUILD.
  fold (key_of b'). rewrite K, Hit. reflexivity.
Qed.

(** Witness of [load_or_build_bbox_serves_a_loaded_tile_from_memory]:
    after the tile of a box is built, a box a little to the north of it
    is served from memory. *)
Lemma load_or_build_bbox_serves_from_memory_witness :
  load_or_build_bbox Tiles.osmnx Tiles.warm_store Tiles.dallas_nearby
  = (([], Ok (subgraph Tiles.chain_and_island [1%Z; 2%Z; 3%Z])),
     Tiles.warm_store).
Proof.
  apply (load_or_build_bbox_serves_a_loaded_tile_from_memory
           Tiles.osmnx Tiles.empty_store Tiles.dallas Tiles.dallas_nearby).
  - vm_compute. reflexivity.
  - vm_compute. reflexivity.
Defined.

(** [load_or_build_bbox] never replaces what the store holds: every
    cached graph and every file is still there afterwards, unchanged,
    and entries of other tiles are neither added nor changed. *)
Theorem load_or_build_bbox_only_adds_its_own_tile :
  forall (lib : TileLibrary) (st : store) (b : bbox),
    kept st (snd (load_or_build_bbox lib st b)) /\
    same_elsewhere b st (snd (load_or_build_bbox lib st b)).
Proof.
  intros lib st b. unfold kept, same_elsewhere.
  open_load lib st b;
    repeat split; intros;
    try assumption; try reflexivity;
    try (apply upd_other; assumption);
    try (eapply upd_kept; eassumption).
Qed.

(** A call of [load_or_build_bbox] that raises caches nothing; the one
    file it can leave behind is the file of its own tile, where there
    was none, when [pickle.dump] raised after [open] had created it. *)
Theorem load_or_build_bbox_caches_nothing_when_it_raises :
  forall (lib : TileLibrary) (st : store) (b : bbox) (e : exn),
    snd (fst (load_or_build_bbox lib st b)) = Err e ->
    GRAPH_CACHE (snd (load_or_build_bbox lib st b)) = GRAPH_CACHE st /\
    (snd (load_or_build_bbox lib st b) = st \/
     exists G content,
       snd (build_tile lib b) = Ok G /\
       write_tile lib (file_of b) G = Broken e content /\
       tiles st (file_of b) = None /\
       tiles (snd (load_or_build_bbox lib st b)) (file_of b) = Some content).
Proof.
  intros lib st b e. open_load lib st b; intros [=]; subst;
    (split; [reflexivity|]); auto.
  right.
  match goal with
  | Hw : write_tile _ _ ?G = Broken _ ?c |- _ => exists G, c
  end.
  rewrite upd_same. auto.
Qed.

(** Witness of [load_or_build_bbox_caches_nothing_when_it_raises], on
    the disk that fills up. *)
Lemma load_or_build_bbox_raises_witness :
  GRAPH_CACHE
    (snd (load_or_build_bbox Tiles.full_disk Tiles.empty_store Tiles.dallas))
  = GRAPH_CACHE Tiles.empty_store.
Proof.
  apply (load_or_build_bbox_caches_nothing_when_it_raises
           Tiles.full_disk Tiles.empty_store Tiles.dallas
           (Raised "No space left on device")).
  vm_compute. reflexivity.
Defined.

(** [load_or_build_bbox] downloads and writes only for a tile that is
    neither cached nor on disk: when the key is cached or the file
    exists, the only thing it may do is read that file. *)
Theorem load_or_build_bbox_builds_only_a_missing_tile :
  forall (lib : TileLibrary) (st : store) (b : bbox),
    GRAPH_CACHE st (key_of b) <> None \/ tiles st (file_of b) <> None ->
    forall ev,
      In ev (fst (fst (load_or_build_bbox lib st b))) ->
      ev = ReadTile (file_of b) /\ GRAPH_CACHE st (key_of b) = None.
Proof.
  intros lib st b H ev. revert H.
  open_load lib st b; intros [H|H] Hin; try congruence;
    cbn in Hin; intuition congruence.
Qed.

(** Witness of [load_or_build_bbox_builds_only_a_missing_tile]: after
    a restart the tile of the box is on disk, and is read. *)
Lemma load_or_build_bbox_builds_only_witness :
  In (ReadTile (file_of Tiles.dallas))
     (fst (fst (load_or_build_bbox Tiles.osmnx Tiles.restarted
                  Tiles.dallas))) /\
  forall ev,
    In ev (fst (fst (load_or_build_bbox Tiles.osmnx Tiles.restarted
                       Tiles.dallas))) ->
    ev = ReadTile (file_of Tiles.dallas) /\
    GRAPH_CACHE Tiles.restarted (key_of Tiles.dallas) = None.
Proof.
  split.
  - vm_compute. left. reflexivity.
  - apply (load_or_build_bbox_builds_only_a_missing_tile
             Tiles.osmnx Tiles.restarted Tiles.dallas).
    right. vm_compute. discriminate.
Defined.

(** When [pickle.dump] raises after [open] has created the file, the
    tile is not built again: every later call for the same key reads
    the file left behind and returns what [pickle.load] makes of it. *)
Theorem load_or_build_bbox_reads_the_file_of_a_failed_dump :
  forall (lib : TileLibrary) (st : store) (b b' : bbox)
         (G : graph) (e : exn) (content : result graph),
    GRAPH_CACHE st (key_of b) = None ->
    tiles st (file_of b) = None ->
    snd (build_tile lib b) = Ok G ->
    write_tile lib (file_of b) G = Broken e content ->
    key_of b' = key_of b ->
    snd (fst (load_or_build_bbox lib st b)) = Err e /\
    fst (load_or_build_bbox lib (snd (load_or_build_bbox lib st b)) b')
    = ([ReadTile (file_of b)], content).
Proof.
  intros lib st b b' G e content Hc Hf Hb Hw K.
  assert (load_or_build_bbox lib st b
          = ((fst (build_tile lib b) ++ [WriteTile (file_of b)], Err e),
             {| GRAPH_CACHE := GRAPH_CACHE st;
                tiles := upd (tiles st) (file_of b) content |})) as E.
  { unfold load_or_build_bbox, FORCE_REBUILD.
    fold (key_of b). fold (file_of b). rewrite Hc, Hf.
    destruct (build_tile lib b) as [t r]. cbn [snd fst] in *. subst r.
    rewrite Hw. reflexivity. }
  rewrite E. cbn [fst snd]. split; [reflexivity|].
  assert (file_of b' = file_of b) as F
    by (unfold file_of; rewrite K; reflexivity).
  unfold load_or_build_bbox, FORCE_REBUILD. cbv zeta.
  fold (key_of b'). fold (file_of b'). rewrite K, F.
  cbn [GRAPH_CACHE tiles]. rewrite Hc, upd_same.
  destruct content; reflexivity.
Qed.

(** Witness of [load_or_build_bbox_reads_the_file_of_a_failed_dump], on
    the disk that fills up. *)
Lemma load_or_build_bbox_failed_dump_witness :
  snd (fst (load_or_build_bbox Tiles.full_disk Tiles.empty_store
              Tiles.dallas))
  = Err (Raised "No space left on device") /\
  fst (load_or_build_bbox Tiles.full_disk
         (snd (load_or_build_bbox Tiles.full_disk Tiles.empty_store
                 Tiles.dallas))
         Tiles.dallas_nearby)
  = ([ReadTile (file_of Tiles.dallas)], Err (Raised "EOFError")).
Proof.
  apply (load_or_build_bbox_reads_the_file_of_a_failed_dump
           Tiles.full_disk Tiles.empty_store Tiles.dallas Tiles.dallas_nearby
           (subgraph Tiles.chain_and_island [1%Z; 2%Z; 3%Z])).
  - reflexivity.
  - reflexivity.
  - vm_compute. reflexivity.
  - reflexivity.
  - vm_compute. reflexivity.
Defined.
